(** * Stage command driver for the PI motorized stage

    A shallow embedding of [qudi/hardware/motor/motor_stage_pi.py]
    (class [MotorStagePI]) and the properties of its move, query and retry
    logic.

    Modelling conventions.
    - A finite Python float is the rational number it denotes ([Q]), and
      comparisons are exact as in the source.  The arithmetic on positions
      and velocities rounds as binary64 does ([Py.round64]: to nearest,
      ties to even): the products with [1e7] and [1e-7], the conversion of
      an int to a float and the sum of a position and a step.  A product
      that is not finite makes [int] raise [OverflowError], as does an int
      too large for a float.  Infinities and NaN as arguments of the driver
      are outside the model, and so is the rounding of the differences of
      clock readings, which are compared as exact numbers.  Python ints
      are [Z].
    - The VISA serial resource and the wall clock are an interface
      ([Env]); the driver is written against it in a state-and-exception
      monad.  Every call on the serial resource is recorded in a ghost
      [trace], which is how "no write happens" and "n attempts happen" are
      stated.
    - [while] loops whose exit depends on the clock or on the device take a
      fuel argument and answer [Diverge] when it runs out; [Diverge] is not
      an exception and no [except] clause catches it. *)

From Stdlib Require Import List String Ascii ZArith QArith Qabs Lia Lqa Bool.
From Stdlib Require Import DecimalString DecimalZ.
Import ListNotations.

Local Open Scope string_scope.
Local Open Scope Z_scope.

(** ** Python strings and integers *)

Module Py.

(** [s[:-1]] *)
Fixpoint drop_last (s : string) : string :=
  match s with
  | EmptyString => EmptyString
  | String c EmptyString => EmptyString
  | String c r => String c (drop_last r)
  end.

(** [s[n:]] *)
Fixpoint drop (n : nat) (s : string) : string :=
  match n, s with
  | O, _ => s
  | S n', EmptyString => EmptyString
  | S n', String _ r => drop n' r
  end.

(** [s.replace(c, "")] for a one-character [c] *)
Fixpoint remove_char (c : ascii) (s : string) : string :=
  match s with
  | EmptyString => EmptyString
  | String a r =>
      if Ascii.eqb a c then remove_char c r else String a (remove_char c r)
  end.

Definition CR : ascii := Ascii.ascii_of_nat 13.
Definition LF : ascii := Ascii.ascii_of_nat 10.
Definition newline : string := String LF EmptyString.

(** [str(raw).replace("\r", "").replace("\n", "")] *)
Definition strip_line_ends (s : string) : string :=
  remove_char LF (remove_char CR s).

(** [s.split(":", 1)[1]]: the text after the first colon, [None] where
    Python raises [IndexError] *)
Fixpoint after_colon (s : string) : option string :=
  match s with
  | EmptyString => None
  | String a r => if Ascii.eqb a ":" then Some r else after_colon r
  end.

(** Characters of a string, as iteration over a [str] yields them *)
Fixpoint chars (s : string) : list string :=
  match s with
  | EmptyString => []
  | String a r => String a EmptyString :: chars r
  end.

Definition is_space (a : ascii) : bool :=
  let n := Ascii.nat_of_ascii a in
  (Nat.eqb n 32 || (Nat.leb 9 n && Nat.leb n 13)
   || (Nat.leb 28 n && Nat.leb n 31))%bool.

Fixpoint lstrip (s : string) : string :=
  match s with
  | String a r => if is_space a then lstrip r else s
  | EmptyString => EmptyString
  end.

Fixpoint rstrip (s : string) : string :=
  match s with
  | EmptyString => EmptyString
  | String a r =>
      match rstrip r with
      | EmptyString => if is_space a then EmptyString else String a EmptyString
      | r' => String a r'
      end
  end.

Definition strip (s : string) : string := rstrip (lstrip s).

(** Digit groups of an integer literal: single underscores are allowed
    between digits and dropped. [prev] tells whether the previous
    character was a digit. *)
Fixpoint ungroup (prev : bool) (s : string) : option string :=
  match s with
  | EmptyString => if prev then Some EmptyString else None
  | String a r =>
      if Ascii.eqb a "_" then
        if prev then
          match r with
          | EmptyString => None
          | _ => ungroup false r
          end
        else None
      else option_map (String a) (ungroup true r)
  end.

Definition digits (s : string) : option Z :=
  match ungroup false s with
  | Some s' => option_map Z.of_uint (NilEmpty.uint_of_string s')
  | None => None
  end.

(** [int(s)] for a string: surrounding white space, an optional sign,
    decimal digits. [None] where Python raises [ValueError]. *)
Definition int_of_str (s : string) : option Z :=
  match strip s with
  | String a r =>
      if Ascii.eqb a "-" then option_map Z.opp (digits r)
      else if Ascii.eqb a "+" then digits r
      else digits (String a r)
  | EmptyString => None
  end.

(** ['{0:d}'.format(z)] and ['{0}'.format(z)] for an int *)
Definition format_d (z : Z) : string :=
  NilZero.string_of_int (Z.to_int z).

(** [int(x)] for a float: truncation towards zero *)
Definition int_of_float (x : Q) : Z :=
  Z.quot (Qnum x) (Zpos (Qden x)).

(** [x < y] on floats *)
Definition Qlt_bool (x y : Q) : bool := negb (Qle_bool y x).

(** *** Float arithmetic

    The result of an operation on floats is the exact result rounded to
    the nearest binary64 number, ties to even: a multiple [m * 2 ^ e] of
    the unit in the last place, with [m] nearest to the exact quotient,
    [e] chosen so that [m] has 53 bits and not below [-1074]. *)

(** The integer nearest to [a / b], ties to even, for [0 <= a], [0 < b]. *)
Definition rnd_div (a b : Z) : Z :=
  let q := (a / b)%Z in
  match (2 * (a mod b) ?= b)%Z with
  | Lt => q
  | Gt => (q + 1)%Z
  | Eq => if Z.even q then q else (q + 1)%Z
  end.

(** The exponent [l] with [2 ^ l <= n / d < 2 ^ (l + 1)], for [0 < n],
    [0 < d]. *)
Definition log2_floor (n d : Z) : Z :=
  let l0 := (Z.log2 n - Z.log2 d)%Z in
  if (if (0 <=? l0)%Z then (2 ^ l0 * d <=? n)%Z
      else (d <=? n * 2 ^ (- l0))%Z)
  then l0 else (l0 - 1)%Z.

(** The binary64 number nearest to [n / d], for [0 < n], [0 < d], with no
    bound on the exponent from above. *)
Definition round64_pos (n d : Z) : Q :=
  let e := Z.max (log2_floor n d - 52) (-1074) in
  if (0 <=? e)%Z then inject_Z (rnd_div n (d * 2 ^ e) * 2 ^ e)
  else Qred (rnd_div (n * 2 ^ (- e)) d # Z.to_pos (2 ^ (- e))).

Definition round64 (x : Q) : Q :=
  match Qnum x with
  | Z0 => 0
  | Zpos n => round64_pos (Zpos n) (Zpos (Qden x))
  | Zneg n => - round64_pos (Zpos n) (Zpos (Qden x))
  end.

(** The rounded result is beyond the largest finite float: the operation
    gives an infinity. *)
Definition overflows (x : Q) : bool :=
  Qle_bool (inject_Z (2 ^ 1024)) (Qabs (round64 x)).

(** [x * y] and [x + y] on floats, where the result is finite *)
Definition fmul (x y : Q) : Q := round64 (x * y).

Definition fadd (x y : Q) : Q := round64 (x + y).

(** A decimal literal of the source, such as [1e-7] *)
Definition literal (x : Q) : Q := round64 x.

End Py.

(** ** Dictionaries

    Python dictionaries keep insertion order; assignment to a key that is
    present replaces the value in place. *)

Definition dict (V : Type) : Type := list (string * V).

Fixpoint dict_get {V} (d : dict V) (k : string) : option V :=
  match d with
  | [] => None
  | (k', v) :: r => if String.eqb k' k then Some v else dict_get r k
  end.

Fixpoint dict_set {V} (d : dict V) (k : string) (v : V) : dict V :=
  match d with
  | [] => [(k, v)]
  | (k', v') :: r =>
      if String.eqb k' k then (k', v) :: r else (k', v') :: dict_set r k v
  end.

Definition dict_keys {V} (d : dict V) : list string := map fst d.

(** ** Exceptions, log records and the device interface *)

Inductive exn : Type :=
| KeyError (key : string)
| UnboundLocalError (name : string)
| ValueError
| IndexError
| TypeError
| OverflowError
| VisaIOError (msg : string)
| KeyboardInterrupt.

(** [except Exception] lets [KeyboardInterrupt] through; a bare [except]
    and [except BaseException] catch everything. *)
Definition is_Exception (e : exn) : bool :=
  match e with
  | KeyboardInterrupt => false
  | _ => true
  end.

Inductive level : Type := DEBUG | INFO | WARNING | ERROR.

Inductive log_arg : Type :=
| AStr (s : string)
| ANum (q : Q)
| AExn (e : exn).

(** A log call: the level, the message text as it stands in the source and
    the values interpolated into it. *)
Record log_record : Type := mkLog {
  lvl : level;
  msg : string;
  args : list log_arg
}.

(** One call on the serial resource, with what it answered. *)
Inductive io_event : Type :=
| EvWrite (cmd : string) (r : option exn)
| EvRead (r : exn + string).

(** The collaborators of the driver: the VISA resource ([write], [read])
    and the [time] module ([perf_counter], [sleep]). *)
Class Env (W : Type) : Type := {
  serial_write : string -> W -> option exn * W;
  serial_read : W -> (exn + string) * W;
  perf_counter : W -> Q * W;
  sleep : Q -> W -> W
}.

(** ** The driver monad *)

Inductive outcome (A : Type) : Type :=
| Ret (a : A)
| Raise (e : exn)
| Diverge.
Arguments Ret {A} a.
Arguments Raise {A} e.
Arguments Diverge {A}.

Record St (W : Type) : Type := mkSt {
  world : W;
  log : list log_record;
  trace : list io_event
}.
Arguments mkSt {W}.
Arguments world {W}.
Arguments log {W}.
Arguments trace {W}.

Definition M (W A : Type) : Type := St W -> outcome A * St W.

Definition ret {W A} (a : A) : M W A := fun st => (Ret a, st).

Definition raise {W A} (e : exn) : M W A := fun st => (Raise e, st).

Definition diverge {W A} : M W A := fun st => (Diverge, st).

Definition bind {W A B} (m : M W A) (k : A -> M W B) : M W B :=
  fun st =>
    match m st with
    | (Ret a, st') => k a st'
    | (Raise e, st') => (Raise e, st')
    | (Diverge, st') => (Diverge, st')
    end.

Declare Scope drv_scope.
Delimit Scope drv_scope with drv.
Notation "x <- m ;; k" := (bind m (fun x => k))
  (at level 61, m at next level, right associativity) : drv_scope.
Notation "m ;;; k" := (bind m (fun _ => k))
  (at level 61, right associativity) : drv_scope.
Local Open Scope drv_scope.

(** [try: body except: handler] *)
Definition try_except {W A} (body : M W A) (handler : exn -> M W A) : M W A :=
  fun st =>
    match body st with
    | (Raise e, st') => handler e st'
    | r => r
    end.

(** [try: body except Exception as e: handler] *)
Definition try_except_Exception {W A}
    (body : M W A) (handler : exn -> M W A) : M W A :=
  fun st =>
    match body st with
    | (Raise e, st') =>
        if is_Exception e then handler e st' else (Raise e, st')
    | r => r
    end.

(** [d[k]], raising [KeyError] *)
Definition getitem {W V} (d : dict V) (k : string) : M W V :=
  match dict_get d k with
  | Some v => ret v
  | None => raise (KeyError k)
  end.

(** [int(s)], raising [ValueError] *)
Definition int_ {W} (s : string) : M W Z :=
  match Py.int_of_str s with
  | Some z => ret z
  | None => raise ValueError
  end.

(** [s.split(":", 1)[1]], raising [IndexError] *)
Definition split_colon_1 {W} (s : string) : M W string :=
  match Py.after_colon s with
  | Some r => ret r
  | None => raise IndexError
  end.

(** [int(x * y)] for floats [x] and [y]: the product is rounded; when it
    is not finite, [int] raises [OverflowError]. *)
Definition int_of_product {W} (x y : Q) : M W Z :=
  if Py.overflows (x * y) then raise OverflowError
  else ret (Py.int_of_float (Py.fmul x y)).

(** [n * y] for an int [n] and a float [y] of magnitude at most one: the
    int is converted to a float first, which raises [OverflowError] when
    it is too large; the product is then finite. *)
Definition int_times_float {W} (n : Z) (y : Q) : M W Q :=
  if Py.overflows (inject_Z n) then raise OverflowError
  else ret (Py.fmul (Py.round64 (inject_Z n)) y).

Definition log_call {W} (l : level) (m : string) (a : list log_arg)
    : M W unit :=
  fun st => (Ret tt, mkSt (world st) (log st ++ [mkLog l m a]) (trace st)).

Section Primitives.
Context {W : Type} `{Env W}.

Definition write (cmd : string) : M W unit :=
  fun st =>
    let (r, w') := serial_write cmd (world st) in
    let st' := mkSt w' (log st) (trace st ++ [EvWrite cmd r]) in
    match r with
    | None => (Ret tt, st')
    | Some e => (Raise e, st')
    end.

Definition read : M W string :=
  fun st =>
    let (r, w') := serial_read (world st) in
    let st' := mkSt w' (log st) (trace st ++ [EvRead r]) in
    match r with
    | inr s => (Ret s, st')
    | inl e => (Raise e, st')
    end.

Definition time_perf_counter : M W Q :=
  fun st =>
    let (t, w') := perf_counter (world st) in
    (Ret t, mkSt w' (log st) (trace st)).

Definition time_sleep (dt : Q) : M W unit :=
  fun st => (Ret tt, mkSt (sleep dt (world st)) (log st) (trace st)).

End Primitives.

(** ** Configuration and constraints *)

(** The entries of one axis of [get_constraints] that the driver reads
    (['unit'] is always ['m']; ['ramp'] and the acceleration entries are
    always [None]). *)
Record Axis : Type := mkAxis {
  label : string;
  ID : string;
  pos_min : Q;
  pos_max : Q;
  pos_step : Q;
  vel_min : Q;
  vel_max : Q;
  vel_step : Q
}.

(** The [ConfigOption]s of the module. *)
Record Config : Type := mkConfig {
  first_axis : Axis;
  second_axis : Axis;
  third_axis : Axis;
  _pi_xyz_timeout : Q;
  _vel_default : Q
}.

Definition get_constraints (cfg : Config) : dict Axis :=
  let axis0 := first_axis cfg in
  let axis1 := second_axis cfg in
  let axis2 := third_axis cfg in
  let constraints := [] in
  let constraints := dict_set constraints (label axis0) axis0 in
  let constraints := dict_set constraints (label axis1) axis1 in
  let constraints := dict_set constraints (label axis2) axis2 in
  constraints.

(** What the getters hand back: a mapping, or the integer they use as a
    failure sentinel. *)
Inductive answer (V : Type) : Type :=
| Mapping (d : dict V)
| Sentinel (z : Z).
Arguments Mapping {V} d.
Arguments Sentinel {V} z.

(** The [param_list] argument of the getters: [None], a list of labels, or
    (as [_do_move_rel] passes it) a bare string. *)
Inductive param_list : Type :=
| PNone
| PList (l : list string)
| PStr (s : string).

Definition dq : string := String (Ascii.ascii_of_nat 34) EmptyString.

(** The literals [1e7], which is a float, and [1e-7], which is not: the
    source multiplies by the float nearest to it. *)
Definition scale_up : Q := 10000000 # 1.
Definition scale_down : Q := Py.literal (1 # 10000000).

(** Rounding moves a number by at most [unit_roundoff] of its magnitude,
    or by [tiny] where floats are spaced evenly around zero. *)
Definition unit_roundoff : Q := 1 # 2 ^ 53.
Definition tiny : Q := 1 # 2 ^ 1075.

(** The largest magnitude of a velocity considered in the round trip:
    [1e300]. *)
Definition velocity_range : Q := inject_Z (10 ^ 300).

(** ** Log records of the driver *)

Definition emit {W} (r : log_record) : M W unit :=
  log_call (lvl r) (msg r) (args r).

Definition border_warning (axis : string) (ax : Axis) : log_record :=
  mkLog WARNING
    ("Cannot make the movement of the axis " ++ dq ++ "{0}" ++ dq
     ++ "since the border [{1},{2}] would be crossed! Ignore command!")
    [AStr axis; ANum (pos_min ax); ANum (pos_max ax)].

Definition step_warning : log_record :=
  mkLog WARNING
    ("Cannot make the movement of the axis " ++ dq ++ "{0}" ++ dq
     ++ "since the step is too small! Ignore command!") [].

Definition retry_warning : log_record :=
  mkLog WARNING "Motor connection problem! Try again..." [].

Definition cannot_move_error : log_record :=
  mkLog ERROR "Motor cannot move!" [].

Definition read_timeout_warning (t : Q) : log_record :=
  mkLog WARNING "Timed out after {t} s while serial read" [ANum t].

(** The state after one more log record. *)
Definition logged {W} (r : log_record) (st : St W) : St W :=
  mkSt (world st) (log st ++ [r]) (trace st).

(** ** The driver *)

Section Driver.
Context {W : Type} `{Env W}.
Variable cfg : Config.

(** *** Internal methods *)

Fixpoint _read_answer_loop (fuel : nat) (timeout_s t_start : Q)
    (answer : string) : M W (string * option Q) :=
  match fuel with
  | O => diverge
  | S fuel' =>
      now <- time_perf_counter ;;
      let t := (now - t_start)%Q in
      if (Qle_bool 0 timeout_s && Py.Qlt_bool timeout_s t)%bool then
        ret (answer, Some t)
      else
        fun st =>
          match read st with
          | (Ret chunk, st') =>
              _read_answer_loop fuel' timeout_s t_start
                (answer ++ Py.drop_last chunk) st'
          | (Raise _, st') => (Ret (answer, None), st')
          | (Diverge, st') => (Diverge, st')
          end
  end.

Definition _read_answer_xyz (fuel : nat) : M W string :=
  let timeout_ms := _pi_xyz_timeout cfg in
  let timeout_s := (timeout_ms / 1000)%Q in
  t_start <- time_perf_counter ;;
  r <- _read_answer_loop fuel timeout_s t_start "" ;;
  match r with
  | (answer, Some t) =>
      emit (read_timeout_warning t) ;;;
      ret answer
  | (answer, None) => ret answer
  end.

Definition _write_xyz (fuel : nat) (axis command : string) : M W Z :=
  let constraints := get_constraints cfg in
  try_except
    (ax <- getitem constraints axis ;;
     write (ID ax ++ command ++ Py.newline) ;;;
     _ <- _read_answer_xyz fuel ;;
     ret 0)
    (fun e =>
       log_call ERROR "Command was no accepted: " [AExn e] ;;;
       ret (-1)).

Fixpoint read_chunks (nchunks : nat) (str_ret : string) : M W string :=
  match nchunks with
  | O => ret str_ret
  | S n =>
      raw_ret <- read ;;
      read_chunks n (str_ret ++ Py.strip_line_ends raw_ret)
  end.

Definition _ask_xyz (axis question : string) (nchunks : nat) : M W string :=
  let constraints := get_constraints cfg in
  ax <- getitem constraints axis ;;
  write (ID ax ++ question ++ Py.newline) ;;;
  read_chunks nchunks "".

(** *** Position, velocity *)

(** One pass through the body of the [try] in [get_pos]. *)
Definition query_pos (axis_label : string) : M W Q :=
  r <- _ask_xyz axis_label "TT" 3 ;;
  v <- split_colon_1 r ;;
  pos <- int_ v ;;
  int_times_float pos scale_down.

(** [for attempt in range(n): try: ... except: continue else: break] *)
Fixpoint get_pos_attempts (n : nat) (axis_label : string)
    (param_dict : dict Q) : M W (dict Q) :=
  match n with
  | O => ret param_dict
  | S n' =>
      fun st =>
        match query_pos axis_label st with
        | (Ret p, st') => (Ret (dict_set param_dict axis_label p), st')
        | (Raise _, st') => get_pos_attempts n' axis_label param_dict st'
        | (Diverge, st') => (Diverge, st')
        end
  end.

Fixpoint get_pos_axes (axes : list string) (param_dict : dict Q)
    : M W (dict Q) :=
  match axes with
  | [] => ret param_dict
  | axis_label :: rest =>
      d <- get_pos_attempts 5 axis_label param_dict ;;
      get_pos_axes rest d
  end.

Definition iter_param_list {V} (pl : param_list) (constraints : dict V)
    : list string :=
  match pl with
  | PNone => dict_keys constraints
  | PList l => l
  | PStr s => Py.chars s
  end.

Definition get_pos (pl : param_list) : M W (answer Q) :=
  let constraints := get_constraints cfg in
  try_except
    (d <- get_pos_axes (iter_param_list pl constraints) [] ;;
     ret (Mapping d))
    (fun _ =>
       log_call ERROR "Could not find current xyz motor position" [] ;;;
       ret (Sentinel (-1))).

Fixpoint get_velocity_axes (axes : list string) (param_dict : dict Q)
    : M W (dict Q) :=
  match axes with
  | [] => ret param_dict
  | axis_label :: rest =>
      r <- _ask_xyz axis_label "TY" 3 ;;
      v <- split_colon_1 r ;;
      vel <- int_ v ;;
      velocity <- int_times_float vel scale_down ;;
      get_velocity_axes rest (dict_set param_dict axis_label velocity)
  end.

Definition get_velocity (pl : param_list) : M W (answer Q) :=
  let constraints := get_constraints cfg in
  try_except
    (d <- get_velocity_axes (iter_param_list pl constraints) [] ;;
     ret (Mapping d))
    (fun _ =>
       log_call ERROR "Could not find current axis velocity" [] ;;;
       ret (Sentinel (-1))).

Fixpoint set_velocity_axes (fuel : nat) (axes : list string)
    (param_dict : dict Q) : M W unit :=
  match axes with
  | [] => ret tt
  | axis_label :: rest =>
      v <- getitem param_dict axis_label ;;
      vel <- int_of_product v scale_up ;;
      _write_xyz fuel axis_label ("SV" ++ Py.format_d vel) ;;;
      set_velocity_axes fuel rest param_dict
  end.

Definition set_velocity (fuel : nat) (param_dict : dict Q)
    : M W (answer Q) :=
  try_except
    (set_velocity_axes fuel (dict_keys param_dict) param_dict ;;;
     ret (Mapping param_dict))
    (fun _ =>
       log_call ERROR "Could not set axis velocity" [] ;;;
       ret (Sentinel (-1))).

(** *** Movement status *)

(** The loop of [_in_movement_xyz]. The local [tmp0] is unbound until
    the first query succeeds ([None]); after a failed query it keeps the
    value of the axis before. *)
Fixpoint _in_movement_loop (constraints : dict Axis) (axes : list string)
    (tmp0 : option Z) (param_dict : dict Z) : M W (dict Z) :=
  match axes with
  | [] => ret param_dict
  | axis_label :: rest =>
      tmp0' <- try_except_Exception
                 (ax <- getitem constraints axis_label ;;
                  r <- _ask_xyz (label ax) "TS" 3 ;;
                  v <- int_ (Py.drop 8 r) ;;
                  ret (Some v))
                 (fun e =>
                    log_call ERROR "Failed: " [AExn e] ;;;
                    ret tmp0) ;;
      match tmp0' with
      | None => raise (UnboundLocalError "tmp0")
      | Some v =>
          _in_movement_loop constraints rest (Some v)
            (dict_set param_dict axis_label (v mod 2))
      end
  end.

Definition _in_movement_xyz : M W (dict Z) :=
  let constraints := get_constraints cfg in
  _in_movement_loop constraints (dict_keys constraints) None [].

Fixpoint _motor_stopped_loop (param_dict : dict Z) (axes : list string)
    (stopped : bool) : M W bool :=
  match axes with
  | [] => ret stopped
  | axis_label :: rest =>
      v <- getitem param_dict axis_label ;;
      if negb (Z.eqb v 0) then
        log_call DEBUG (axis_label ++ " is moving") [] ;;;
        _motor_stopped_loop param_dict rest false
      else _motor_stopped_loop param_dict rest stopped
  end.

Definition _motor_stopped : M W bool :=
  param_dict <- _in_movement_xyz ;;
  _motor_stopped_loop param_dict (dict_keys param_dict) true.

Fixpoint wait_loop (fuel : nat) (condition : M W bool)
    (dt_s timeout_s t_start : Q) : M W (option Q) :=
  match fuel with
  | O => diverge
  | S fuel' =>
      c <- condition ;;
      if c then ret None
      else
        now <- time_perf_counter ;;
        let t := (now - t_start)%Q in
        if (Qle_bool 0 timeout_s && Py.Qlt_bool timeout_s t)%bool then
          ret (Some t)
        else
          time_sleep dt_s ;;;
          wait_loop fuel' condition dt_s timeout_s t_start
  end.

(** [condition] is what [eval(condition_str)] runs. *)
Definition wait_on_condition (fuel : nat) (condition_str : string)
    (condition : M W bool) (dt_s timeout_s : Q) : M W unit :=
  t_start <- time_perf_counter ;;
  r <- wait_loop fuel condition dt_s timeout_s t_start ;;
  match r with
  | Some t =>
      log_call WARNING "Timed out after {t} s waiting for {condition_str}"
        [ANum t; AStr condition_str]
  | None => ret tt
  end.

(** *** Moves *)

Definition _do_move_abs (fuel : nat) (axis : string) (move : Q)
    : M W (string * Q) :=
  let constraints := get_constraints cfg in
  ax <- getitem constraints axis ;;
  if negb (Qle_bool (pos_min ax) move && Qle_bool move (pos_max ax)) then
    emit (border_warning axis ax) ;;;
    ret (axis, move)
  else
    raw <- int_of_product move scale_up ;;
    _write_xyz fuel axis ("MA" ++ Py.format_d raw) ;;;
    ret (axis, move).

(** [x[axis]] on what [get_pos] returned *)
Definition subscript (x : answer Q) (axis : string) : M W Q :=
  match x with
  | Mapping d => getitem d axis
  | Sentinel _ => raise TypeError
  end.

(** In the branch that ignores the command the local [move] is never
    assigned, so [return axis, move] raises.  The target is the float sum
    [current_pos + step]; a sum beyond the largest float is an infinity in
    the source and a number beyond every float here, and both fail the
    bounds test of the absolute move against bounds that are floats. *)
Definition _do_move_rel (fuel : nat) (axis : string) (step : Q)
    : M W (string * Q) :=
  let constraints := get_constraints cfg in
  ax <- getitem constraints axis ;;
  if negb (Py.Qlt_bool (Qabs (pos_step ax)) (Qabs step)) then
    emit step_warning ;;;
    raise (UnboundLocalError "move")
  else
    p <- get_pos (PStr axis) ;;
    current_pos <- subscript p axis ;;
    let move := Py.fadd current_pos step in
    _do_move_abs fuel axis move ;;;
    ret (axis, move).

(** The body of the [try] in [move_rel]. *)
Fixpoint move_rel_batch (fuel : nat) (axes : list string)
    (param_dict : dict Q) : M W unit :=
  match axes with
  | [] => ret tt
  | axis_label :: rest =>
      step <- getitem param_dict axis_label ;;
      _do_move_rel fuel axis_label step ;;;
      move_rel_batch fuel rest param_dict
  end.

Definition move_rel_attempt (fuel : nat) (param_dict : dict Q) : M W unit :=
  move_rel_batch fuel (dict_keys param_dict) param_dict.

Fixpoint move_abs_batch (fuel : nat) (axes : list string)
    (param_dict : dict Q) : M W unit :=
  match axes with
  | [] => ret tt
  | axis_label :: rest =>
      move <- getitem param_dict axis_label ;;
      _do_move_abs fuel axis_label move ;;;
      move_abs_batch fuel rest param_dict
  end.

(** The body of the [try] in [move_abs]. *)
Definition move_abs_attempt (fuel : nat) (param_dict : dict Q) : M W unit :=
  move_abs_batch fuel (dict_keys param_dict) param_dict ;;;
  let timeout_ms := _pi_xyz_timeout cfg in
  wait_on_condition fuel "self._motor_stopped()" _motor_stopped
    (2 # 100) (timeout_ms / 1000)%Q.

(** [for attempt in range(n): try: body except: warning else: break
    else: error] *)
Fixpoint attempts (n : nat) (body : M W unit) : M W unit :=
  match n with
  | O => emit cannot_move_error
  | S n' =>
      fun st =>
        match body st with
        | (Ret _, st') => (Ret tt, st')
        | (Raise _, st') =>
            (emit retry_warning ;;; attempts n' body) st'
        | (Diverge, st') => (Diverge, st')
        end
  end.

Definition move_rel (fuel : nat) (param_dict : dict Q) : M W (dict Q) :=
  attempts 3 (move_rel_attempt fuel param_dict) ;;;
  ret param_dict.

Definition move_abs (fuel : nat) (param_dict : dict Q) : M W (dict Q) :=
  attempts 3 (move_abs_attempt fuel param_dict) ;;;
  ret param_dict.

(** *** Abort, status, calibration *)

Fixpoint write_each (fuel : nat) (axes : list string) (command : string)
    : M W unit :=
  match axes with
  | [] => ret tt
  | axis_label :: rest =>
      _write_xyz fuel axis_label command ;;;
      write_each fuel rest command
  end.

(** [while not self._motor_stopped(): time.sleep(0.2)] *)
Fixpoint abort_wait (fuel : nat) : M W unit :=
  match fuel with
  | O => diverge
  | S fuel' =>
      stopped <- _motor_stopped ;;
      if stopped then ret tt
      else time_sleep (2 # 10) ;;; abort_wait fuel'
  end.

Definition abort (fuel : nat) : M W Z :=
  let constraints := get_constraints cfg in
  try_except
    (write_each fuel (dict_keys constraints) "AB" ;;;
     abort_wait fuel ;;;
     ret 0)
    (fun _ =>
       log_call ERROR "MOTOR MOVEMENT NOT STOPPED!!!)" [] ;;;
       ret (-1)).

Fixpoint get_status_axes (axes : list string) (param_dict : dict string)
    : M W (dict string) :=
  match axes with
  | [] => ret param_dict
  | axis_label :: rest =>
      r <- _ask_xyz axis_label "TS" 3 ;;
      status <- split_colon_1 r ;;
      get_status_axes rest (dict_set param_dict axis_label status)
  end.

Definition get_status (pl : param_list) : M W (answer string) :=
  let constraints := get_constraints cfg in
  try_except
    (d <- get_status_axes (iter_param_list pl constraints) [] ;;
     ret (Mapping d))
    (fun _ =>
       log_call ERROR "Status request unsuccessful" [] ;;;
       ret (Sentinel (-1))).

(** [for axis_label in param_list] where [None] is not replaced by the
    constraints: iterating [None] raises [TypeError]. *)
Definition iterate (pl : param_list) : M W (list string) :=
  match pl with
  | PNone => raise TypeError
  | PList l => ret l
  | PStr s => ret (Py.chars s)
  end.

Definition calibrate (fuel : nat) (pl : param_list) (direction : Z)
    : M W (answer Q) :=
  if negb (existsb (Z.eqb direction) [0; 1; 2; 3]) then raise ValueError
  else
    try_except
      (axes <- iterate pl ;;
       write_each fuel axes ("FE" ++ Py.format_d direction) ;;;
       log_call INFO
         ("Motors {param_list} are now slowly homing."
          ++ " Remember to finish_calibrate() afterwards!") [])
      (fun e => log_call ERROR "Calibration did not work: " [AExn e]) ;;;
    axes <- iterate pl ;;
    let param_dict :=
      fold_left (fun d axis_label => dict_set d axis_label 0%Q) axes [] in
    move_abs fuel param_dict ;;;
    get_pos PNone.

Definition finish_calibrate (fuel : nat) (pl : param_list)
    : M W (answer Q) :=
  stopped <- _motor_stopped ;;
  if negb stopped then
    log_call WARNING "Motors still moving. Couldn't finish calibration." [] ;;;
    get_pos PNone
  else
    axes <- iterate pl ;;
    write_each fuel axes "DH" ;;;
    get_pos PNone.

End Driver.

(** ** A clock that advances

    Termination of the two polling loops rests on the clock: every reading
    of [perf_counter] moves it on by at least [tick], and no other call
    moves it back. *)

Class Ticking (W : Type) `{Env W} : Type := {
  time_of : W -> Q;
  tick : Q;
  tick_pos : (0 < tick)%Q;
  reading_lo : forall w, (time_of w <= fst (perf_counter w))%Q;
  reading_hi : forall w,
    (fst (perf_counter w) <= time_of (snd (perf_counter w)))%Q;
  reading_ticks : forall w,
    (time_of w + tick <= time_of (snd (perf_counter w)))%Q;
  write_later : forall c w, (time_of w <= time_of (snd (serial_write c w)))%Q;
  read_later : forall w, (time_of w <= time_of (snd (serial_read w)))%Q;
  sleep_later : forall dt w, (time_of w <= time_of (sleep dt w))%Q
}.

(** ** A simulated controller

    A device with one-character ids that stores what [SV] and [MA] set and
    answers [TY], [TT] and [TS] in three chunks.  Writes can be scripted to
    fail, and the inbox can be loaded with pending replies. *)

Module Sim.

Record t : Type := mk {
  now : Q;
  dead : bool;
  wfail : list bool;
  inbox : list (exn + string);
  velocity : dict Z;
  position : dict Z;
  status : list Z
}.

Definition crlf : string := String Py.CR (String Py.LF EmptyString).

Definition stored (d : dict Z) (id : string) : Z :=
  match dict_get d id with
  | Some z => z
  | None => 0
  end.

(** What the device does with a command that arrived. *)
Definition execute (cmd : string) (w : t) : t :=
  match cmd with
  | String i (String a (String b arg)) =>
      let id := String i EmptyString in
      let op := String a (String b EmptyString) in
      let n := match Py.int_of_str arg with Some z => z | None => 0 end in
      if String.eqb op "SV" then
        mk (now w) (dead w) (wfail w) (inbox w)
           (dict_set (velocity w) id n) (position w) (status w)
      else if String.eqb op "MA" then
        mk (now w) (dead w) (wfail w) (inbox w)
           (velocity w) (dict_set (position w) id n) (status w)
      else if String.eqb op "TY" then
        mk (now w) (dead w) (wfail w)
           (inbox w ++ [inr (id ++ "TY"); inr ":";
                        inr (Py.format_d (stored (velocity w) id) ++ crlf)])
           (velocity w) (position w) (status w)
      else if String.eqb op "TT" then
        mk (now w) (dead w) (wfail w)
           (inbox w ++ [inr (id ++ "TT"); inr ":";
                        inr (Py.format_d (stored (position w) id) ++ crlf)])
           (velocity w) (position w) (status w)
      else if String.eqb op "TS" then
        mk (now w) (dead w) (wfail w)
           (inbox w ++ [inr (id ++ "TS"); inr " S:0x";
                        inr (Py.format_d (hd 0 (status w)) ++ crlf)])
           (velocity w) (position w) (tl (status w))
      else w
  | _ => w
  end.

Definition do_write (cmd : string) (w : t) : option exn * t :=
  if dead w then (Some (VisaIOError "write failed"), w)
  else
    match wfail w with
    | true :: r =>
        (Some (VisaIOError "write failed"),
         mk (now w) (dead w) r (inbox w) (velocity w) (position w)
            (status w))
    | false :: r =>
        (None,
         execute cmd
           (mk (now w) (dead w) r (inbox w) (velocity w) (position w)
               (status w)))
    | [] => (None, execute cmd w)
    end.

Definition do_read (w : t) : (exn + string) * t :=
  match inbox w with
  | [] => (inl (VisaIOError "timeout"), w)
  | r :: rest =>
      (r, mk (now w) (dead w) (wfail w) rest (velocity w) (position w)
             (status w))
  end.

Definition advance (dt : Q) (w : t) : t :=
  mk (Qred (now w + dt)) (dead w) (wfail w) (inbox w) (velocity w)
     (position w) (status w).

Definition step : Q := 1 # 1000.

Definition do_clock (w : t) : Q * t := (now w, advance step w).

Definition do_sleep (dt : Q) (w : t) : t :=
  advance (if Qle_bool 0 dt then dt else 0) w.

#[global] Instance env : Env t := {
  serial_write := do_write;
  serial_read := do_read;
  perf_counter := do_clock;
  sleep := do_sleep
}.

Definition idle : t := mk 0 false [] [] [] [] [].

Definition boot (w : t) : St t := mkSt w [] [].

(** A line on which the next [n] writes raise. *)
Definition flaky (n : nat) : t := mk 0 false (repeat true n) [] [] [] [].

(** A device with replies pending in the inbox. *)
Definition chatty (pending : list string) : t :=
  mk 0 false [] (map inr pending) [] [] [].

End Sim.

(** The clock of the simulated controller advances. *)
#[global] Instance sim_ticking : Ticking Sim.t.
Proof.
  refine {| time_of := Sim.now; tick := Sim.step |}.
  - reflexivity.
  - intros w. apply Qle_refl.
  - intros w. change (Sim.now w <= Qred (Sim.now w + Sim.step))%Q.
    rewrite Qred_correct. unfold Sim.step. lra.
  - intros w.
    change (Sim.now w + Sim.step <= Qred (Sim.now w + Sim.step))%Q.
    rewrite Qred_correct. apply Qle_refl.
  - intros c w. change (Sim.now w <= Sim.now (snd (Sim.do_write c w)))%Q.
    unfold Sim.do_write.
    assert (Hex : forall w', Sim.now (Sim.execute c w') = Sim.now w').
    { intros w'. unfold Sim.execute.
      destruct c as [|i [|a [|b arg]]]; try reflexivity.
      repeat match goal with
             | |- context [if ?t then _ else _] => destruct t
             end; reflexivity. }
    destruct (Sim.dead w); [apply Qle_refl|].
    destruct (Sim.wfail w) as [|[|] r]; cbn [snd]; rewrite ?Hex;
      apply Qle_refl.
  - intros w. change (Sim.now w <= Sim.now (snd (Sim.do_read w)))%Q.
    unfold Sim.do_read. destruct (Sim.inbox w); apply Qle_refl.
  - intros dt w.
    change (Sim.now w
            <= Qred (Sim.now w + (if Qle_bool 0 dt then dt else 0)))%Q.
    rewrite Qred_correct.
    destruct (Qle_bool 0 dt) eqn:Hdt; [|lra].
    apply Qle_bool_iff in Hdt. lra.
Defined.

(** ** An unplugged line

    A transport on which every write and every read raises. *)

Module Unplugged.

Definition t : Type := unit.

#[global] Instance env : Env t := {
  serial_write := fun _ w => (Some (VisaIOError "no device"), w);
  serial_read := fun w => (inl (VisaIOError "no device"), w);
  perf_counter := fun w => (0%Q, w);
  sleep := fun _ w => w
}.

Definition boot : St t := mkSt tt [] [].

End Unplugged.

(** The configuration of the docstring of the class. *)
Definition example_axis (l i : string) : Axis :=
  mkAxis l i (-1 # 10) (1 # 10) (1 # 10000000)
         (1 # 100000) (5 # 100) (1 # 100000).

Definition example_cfg : Config :=
  mkConfig (example_axis "x" "1") (example_axis "y" "2")
           (example_axis "z" "3") 1000 (3 # 1000).

(** ** Reading a trace *)

Definition is_write (e : io_event) : bool :=
  match e with
  | EvWrite _ _ => true
  | EvRead _ => false
  end.

Definition is_read (e : io_event) : bool := negb (is_write e).

Definition writes (tr : list io_event) : list string :=
  flat_map (fun e => match e with
                     | EvWrite c _ => [c]
                     | EvRead _ => []
                     end) tr.

Definition count_reads (tr : list io_event) : nat :=
  List.length (filter is_read tr).

(** ** Vocabulary of the statements *)

(** A request whose every target is out of bounds. *)
Definition all_out_of_bounds (cfg : Config) (param_dict : dict Q) : Prop :=
  forall k v, In (k, v) param_dict ->
    exists ax, dict_get (get_constraints cfg) k = Some ax
               /\ (v < pos_min ax \/ pos_max ax < v)%Q.

(** A computation whose every write on the serial line is a command
    satisfying [P]. *)
Definition emits {W A} (P : string -> Prop) (m : M W A) : Prop :=
  forall st, exists tr : list io_event,
    trace (snd (m st)) = (trace st ++ tr)%list /\ Forall P (writes tr).

(** [cmd] is the status query of a configured axis. *)
Definition status_query (cfg : Config) (cmd : string) : Prop :=
  exists k ax,
    dict_get (get_constraints cfg) k = Some ax
    /\ cmd = (ID ax ++ "TS" ++ Py.newline)%string.

(** [cmd] is the move command of an axis of the request whose target is
    within the bounds of the axis. *)
Definition move_command (cfg : Config) (param_dict : dict Q) (cmd : string)
    : Prop :=
  exists k v ax,
    dict_get param_dict k = Some v
    /\ dict_get (get_constraints cfg) k = Some ax
    /\ (pos_min ax <= v)%Q /\ (v <= pos_max ax)%Q
    /\ cmd = (ID ax
              ++ ("MA" ++ Py.format_d (Py.int_of_float (Py.fmul v scale_up)))
              ++ Py.newline)%string.

(** A computation that always comes back, with a value or an exception. *)
Definition terminates {W A} (m : M W A) : Prop :=
  forall st, fst (m st) <> Diverge.

Definition is_raise {A} (o : outcome A) : bool :=
  match o with
  | Raise _ => true
  | _ => false
  end.

(** The two batched operations, to state what they share. *)
Inductive batched : Type := MoveRel | MoveAbs.

Definition attempt_of {W} `{Env W} (cfg : Config) (fuel : nat) (b : batched)
    : dict Q -> M W unit :=
  match b with
  | MoveRel => move_rel_attempt cfg fuel
  | MoveAbs => move_abs_attempt cfg fuel
  end.

Definition run_batched {W} `{Env W} (cfg : Config) (fuel : nat) (b : batched)
    : dict Q -> M W (dict Q) :=
  match b with
  | MoveRel => move_rel cfg fuel
  | MoveAbs => move_abs cfg fuel
  end.

(** The commands of a trace, each with its line end. *)
Definition lines (cmds : list string) : list string :=
  map (fun c => c ++ Py.newline) cmds.

(** The trace of reads that each returned a chunk. *)
Definition ok_reads (chunks : list string) : list io_event :=
  map (fun c => EvRead (inr c)) chunks.

(** The status queries of the axes [axes], asked in order from [st], all
    come back: the reply of each parses (from its ninth character on) to
    the status value listed in [vs], and the last query leaves [st']. *)
Inductive status_replies {W} `{Env W} (cfg : Config)
    : list string -> St W -> list Z -> St W -> Prop :=
| replies_nil st : status_replies cfg [] st [] st
| replies_cons a axes st r st1 v vs st2 :
    _ask_xyz cfg a "TS" 3 st = (Ret r, st1) ->
    Py.int_of_str (Py.drop 8 r) = Some v ->
    status_replies cfg axes st1 vs st2 ->
    status_replies cfg (a :: axes) st (v :: vs) st2.

(** A device reporting the given status values on its next queries. *)
Definition reporting (values : list Z) : Sim.t :=
  Sim.mk 0 false [] [] [] [] values.

(** Every entry is filed under its own label. *)
Definition labelled (d : dict Axis) : Prop :=
  Forall (fun kv => label (snd kv) = fst kv) d.

(** [n] position queries of [axis] in a row that all raise, from [st] to
    [st']. *)
Inductive failed_queries {W} `{Env W} (cfg : Config) (axis : string)
    : nat -> St W -> St W -> Prop :=
| failed_none st : failed_queries cfg axis 0 st st
| failed_more n st e st1 st2 :
    query_pos cfg axis st = (Raise e, st1) ->
    failed_queries cfg axis n st1 st2 ->
    failed_queries cfg axis (S n) st st2.

(** A transport that always fails: every write raises, or every read
    raises. *)
Definition always_fails (W : Type) `{Env W} : Prop :=
  (forall c w, exists e, fst (serial_write c w) = Some e)
  \/ (forall w, exists e, fst (serial_read w) = inl e).

(** The simulated controller after [set_velocity] stored [raw] for axis
    ["x"] from the idle state. *)
Definition sim_after_set (raw : Z) : St Sim.t :=
  mkSt (Sim.mk (1 # 500) false [] [] [("1", raw)] [] []) []
    [EvWrite ("1SV" ++ Py.format_d raw ++ Py.newline) None;
     EvRead (inl (VisaIOError "timeout"))].

(** A computation during which the clock does not go back. *)
Definition steady {W} `{Ticking W} {A} (m : M W A) : Prop :=
  forall st, (time_of (world st) <= time_of (world (snd (m st))))%Q.

(** Fuel that outlasts the channel time limit: more loop rounds than ticks
    fit into it. *)
Definition enough_fuel {W} `{Ticking W} (cfg : Config) (fuel : nat) : Prop :=
  (_pi_xyz_timeout cfg / 1000 < inject_Z (Z.of_nat fuel - 1) * tick)%Q.

(** ** Activation *)

Section Lifecycle.
Context {W : Type} `{Env W}.
Variable cfg : Config.

(** [on_activate], from the point where the VISA resource is open (the
    resource is the [Env]): the warning, the default velocity for the labels
    ['x'], ['y'] and ['z'] as the source spells them, and the return code.
    What [set_velocity] returns is dropped. *)
Definition on_activate (fuel : nat) : M W Z :=
  log_call WARNING
    ("This module has not been tested on the new qudi core."
     ++ "Use with caution and contribute bug fixed back, please.") [] ;;;
  set_velocity cfg fuel
    [("x", _vel_default cfg); ("y", _vel_default cfg);
     ("z", _vel_default cfg)] ;;;
  ret 0.

(** The body of the [try] of [_in_movement_xyz] for one axis: the status
    query and the parse of its reply from the ninth character on. *)
Definition status_value (axis : string) : M W Z :=
  r <- _ask_xyz cfg axis "TS" 3 ;;
  int_ (Py.drop 8 r).

End Lifecycle.

(** ** More vocabulary *)

(** Does the character occur in the string? *)
Fixpoint has_char (c : ascii) (s : string) : bool :=
  match s with
  | EmptyString => false
  | String a r => (Ascii.eqb a c || has_char c r)%bool
  end.

(** The chunks of an answer, each without its last character, in one
    string. *)
Definition joined (chunks : list string) : string :=
  fold_right append EmptyString (map Py.drop_last chunks).

(** The chunks of a reply with the line ends removed, in one string. *)
Definition unlined (chunks : list string) : string :=
  fold_right append EmptyString (map Py.strip_line_ends chunks).

(** The log record of the send primitive for an exception. *)
Definition not_accepted (e : exn) : log_record :=
  mkLog ERROR "Command was no accepted: " [AExn e].

(** [cmd] is the query [question] of a configured axis. *)
Definition query_of (cfg : Config) (question cmd : string) : Prop :=
  exists k ax,
    dict_get (get_constraints cfg) k = Some ax
    /\ cmd = (ID ax ++ question ++ Py.newline)%string.

(** The command bodies the driver knows. *)
Definition opcode (body : string) : Prop :=
  body = "AB" \/ body = "DH" \/ body = "TT" \/ body = "TS" \/ body = "TY"
  \/ exists z : Z,
       body = ("MA" ++ Py.format_d z)%string
       \/ body = ("SV" ++ Py.format_d z)%string
       \/ body = ("FE" ++ Py.format_d z)%string.

(** [cmd] is a framed command: the device id of a configured axis, a known
    command body, a line feed. *)
Definition framed (cfg : Config) (cmd : string) : Prop :=
  exists k ax body,
    dict_get (get_constraints cfg) k = Some ax
    /\ opcode body
    /\ cmd = (ID ax ++ body ++ Py.newline)%string.

(** The status poll of the axes [axes] from [st]: each axis either
    answers with a value, or its query fails with an [Exception] and the
    axis is counted with the value in hand, that of the axis before it.
    [vs] lists the value each axis is counted with. *)
Inductive status_poll {W} `{Env W} (cfg : Config)
    : list string -> option Z -> St W -> list Z -> St W -> Prop :=
| poll_done tmp0 st : status_poll cfg [] tmp0 st [] st
| poll_fresh a axes tmp0 st v st1 vs st2 :
    status_value cfg a st = (Ret v, st1) ->
    status_poll cfg axes (Some v) st1 vs st2 ->
    status_poll cfg (a :: axes) tmp0 st (v :: vs) st2
| poll_stale a axes v0 st e st1 vs st2 :
    status_value cfg a st = (Raise e, st1) ->
    is_Exception e = true ->
    status_poll cfg axes (Some v0)
      (logged (mkLog ERROR "Failed: " [AExn e]) st1) vs st2 ->
    status_poll cfg (a :: axes) (Some v0) st (v0 :: vs) st2.

(** A line on which the scripted writes fail ([true]) or pass, with the
    given status values to report. *)
Definition scripted (wfail : list bool) (values : list Z) : Sim.t :=
  Sim.mk 0 false wfail [] [] [] values.

(** The simulated controller after the absolute move of axis ["x"] to the
    raw position [raw] from the idle state. *)
Definition sim_after_move (raw : Z) : St Sim.t :=
  mkSt (Sim.mk (1 # 500) false [] [] [] [("1", raw)] []) []
    [EvWrite ("1MA" ++ Py.format_d raw ++ Py.newline) None;
     EvRead (inl (VisaIOError "timeout"))].

(** A computation that logs nothing. *)
Definition quiet {W A} (m : M W A) : Prop :=
  forall st, log (snd (m st)) = log st.

(** A request whose values all have a finite float product with [1e7]:
    [int(v * 1e7)] does not raise for any of them. *)
Definition convertible (param_dict : dict Q) : Prop :=
  forall k v, dict_get param_dict k = Some v ->
              Py.overflows (v * scale_up) = false.

(** The last character of a string, [s[-1]] where there is one. *)
Fixpoint last_char (s : string) : option ascii :=
  match s with
  | EmptyString => None
  | String a r =>
      match r with
      | EmptyString => Some a
      | String _ _ => last_char r
      end
  end.

(** * Properties *)

(** ** Dictionaries and constraints *)

Lemma dict_get_In {V} (d : dict V) (k : string) (v : V) :
  dict_get d k = Some v -> In (k, v) d.
Proof.
  induction d as [|[k' v'] r IH]; simpl; [discriminate|].
  destruct (String.eqb_spec k' k) as [->|Hne].
  - intros [= ->]. now left.
  - intros Hg. right. now apply IH.
Qed.

Lemma dict_get_keys {V} (d : dict V) (k : string) :
  In k (dict_keys d) -> exists v, dict_get d k = Some v.
Proof.
  induction d as [|[k' v'] r IH]; simpl; [tauto|].
  intros [->|Hin].
  - rewrite String.eqb_refl. eauto.
  - destruct (String.eqb k' k); eauto.
Qed.

Lemma dict_set_keys {V} (d : dict V) (k k0 : string) (v : V) :
  In k0 (dict_keys (dict_set d k v)) -> k0 = k \/ In k0 (dict_keys d).
Proof.
  induction d as [|[k' v'] r IH]; simpl.
  - intros [<-|[]]. now left.
  - destruct (String.eqb_spec k' k) as [->|Hne]; simpl.
    + intros [<-|Hin]; auto.
    + intros [<-|Hin]; auto. destruct (IH Hin); auto.
Qed.

(** ** Running the monad *)

Section Facts.
Context {W : Type} `{Env W}.
Variable cfg : Config.

Lemma bind_ret_l {A B} (a : A) (k : A -> M W B) (st : St W) :
  bind (ret a) k st = k a st.
Proof. reflexivity. Qed.

Lemma bind_eq {A B} (m : M W A) (k : A -> M W B) (st st' : St W) (a : A) :
  m st = (Ret a, st') -> bind m k st = k a st'.
Proof. unfold bind. now intros ->. Qed.

Lemma bind_raise {A B} (m : M W A) (k : A -> M W B) (st st' : St W) e :
  m st = (Raise e, st') -> bind m k st = (Raise e, st').
Proof. unfold bind. now intros ->. Qed.

Lemma emit_eq (r : log_record) (st : St W) :
  emit r st = (Ret tt, logged r st).
Proof. destruct r. reflexivity. Qed.

(** *** Bounds check of the absolute move *)

Lemma out_of_bounds_test (ax : Axis) (move : Q) :
  (move < pos_min ax \/ pos_max ax < move)%Q ->
  negb (Qle_bool (pos_min ax) move && Qle_bool move (pos_max ax)) = true.
Proof.
  intros Hout. apply negb_true_iff, andb_false_iff.
  destruct Hout as [Hlo|Hhi]; [left|right];
    apply not_true_is_false; rewrite Qle_bool_iff; lra.
Qed.

Lemma do_move_abs_rejects fuel axis ax move (st : St W) :
  dict_get (get_constraints cfg) axis = Some ax ->
  (move < pos_min ax \/ pos_max ax < move)%Q ->
  _do_move_abs cfg fuel axis move st
  = (Ret (axis, move), logged (border_warning axis ax) st).
Proof.
  intros Hax Hout. unfold _do_move_abs, getitem. rewrite Hax.
  rewrite bind_ret_l, (out_of_bounds_test _ _ Hout).
  unfold bind. now rewrite emit_eq.
Qed.

Lemma move_abs_batch_rejects fuel param_dict :
  all_out_of_bounds cfg param_dict ->
  forall axes (st : St W),
    incl axes (dict_keys param_dict) ->
    exists st',
      move_abs_batch cfg fuel axes param_dict st = (Ret tt, st')
      /\ world st' = world st /\ trace st' = trace st.
Proof.
  intros Hall. induction axes as [|k rest IH]; intros st Hincl; simpl.
  - exists st. auto.
  - assert (Hk : In k (dict_keys param_dict)) by (apply Hincl; now left).
    destruct (dict_get_keys _ _ Hk) as [v Hv].
    destruct (Hall k v (dict_get_In _ _ _ Hv)) as (ax & Hax & Hout).
    unfold getitem at 1. rewrite Hv, bind_ret_l.
    unfold bind at 1. rewrite (do_move_abs_rejects _ _ _ _ _ Hax Hout).
    destruct (IH (logged (border_warning k ax) st)) as (st' & Hrun & Hw & Ht).
    { intros a Ha. apply Hincl. now right. }
    exists st'. rewrite Hrun. auto.
Qed.

End Facts.

Create HintDb driver.

(** ** What a move writes on the line *)

Section Traffic.
Context {W : Type} `{Env W}.
Variable cfg : Config.

Lemma writes_snoc tr e :
  writes (tr ++ [e])
  = (writes tr ++ match e with
                  | EvWrite c _ => [c]
                  | EvRead _ => []
                  end)%list.
Proof.
  unfold writes. rewrite flat_map_app. simpl. now rewrite app_nil_r.
Qed.

Lemma emits_silent {A} P (m : M W A) :
  (forall st, trace (snd (m st)) = trace st) -> emits P m.
Proof.
  intros Hsame st. exists []. rewrite Hsame, app_nil_r. split; constructor.
Qed.

Lemma emits_ret {A} P (a : A) : emits P (ret (W := W) a).
Proof. now apply emits_silent. Qed.

Lemma emits_raise {A} P e : emits P (raise (W := W) (A := A) e).
Proof. now apply emits_silent. Qed.

Lemma emits_log P l m a : emits P (log_call (W := W) l m a).
Proof. now apply emits_silent. Qed.

Lemma emits_emit P r : emits P (emit (W := W) r).
Proof. now apply emits_silent. Qed.

Lemma emits_getitem {V} P (d : dict V) k : emits P (getitem (W := W) d k).
Proof.
  apply emits_silent. intros st. unfold getitem.
  now destruct (dict_get d k).
Qed.

Lemma emits_int P s : emits P (int_ (W := W) s).
Proof.
  apply emits_silent. intros st. unfold int_.
  now destruct (Py.int_of_str s).
Qed.

Lemma emits_int_of_product P x y : emits P (int_of_product (W := W) x y).
Proof.
  apply emits_silent. intros st. unfold int_of_product.
  now destruct (Py.overflows (x * y)).
Qed.

Lemma emits_int_times_float P n y :
  emits P (int_times_float (W := W) n y).
Proof.
  apply emits_silent. intros st. unfold int_times_float.
  now destruct (Py.overflows (inject_Z n)).
Qed.

Lemma emits_clock P : emits P time_perf_counter.
Proof.
  apply emits_silent. intros st. unfold time_perf_counter.
  now destruct (perf_counter (world st)).
Qed.

Lemma emits_sleep P dt : emits P (time_sleep dt).
Proof. now apply emits_silent. Qed.

Lemma emits_read P : emits P read.
Proof.
  intros st. unfold read.
  destruct (serial_read (world st)) as [r w1].
  exists [EvRead r]. split; [now destruct r|constructor].
Qed.

Lemma emits_write (P : string -> Prop) cmd : P cmd -> emits P (write cmd).
Proof.
  intros Hp st. unfold write.
  destruct (serial_write cmd (world st)) as [r w1].
  exists [EvWrite cmd r]. split; [now destruct r|].
  simpl. now repeat constructor.
Qed.

Lemma emits_bind {A B} P (m : M W A) (k : A -> M W B) :
  emits P m -> (forall a, emits P (k a)) -> emits P (bind m k).
Proof.
  intros Hm Hk st. unfold bind. destruct (Hm st) as (tr & Htr & Hp).
  destruct (m st) as [[a|e|] st1]; cbn [snd] in *; try (exists tr; now split).
  destruct (Hk a st1) as (tr' & Htr' & Hp').
  exists (tr ++ tr')%list. split.
  - now rewrite Htr', Htr, app_assoc.
  - unfold writes in *. rewrite flat_map_app. now apply Forall_app.
Qed.

Lemma emits_try_except {A} P (m : M W A) (h : exn -> M W A) :
  emits P m -> (forall e, emits P (h e)) -> emits P (try_except m h).
Proof.
  intros Hm Hh st. unfold try_except. destruct (Hm st) as (tr & Htr & Hp).
  destruct (m st) as [[a|e|] st1]; cbn [snd] in *; try (exists tr; now split).
  destruct (Hh e st1) as (tr' & Htr' & Hp').
  exists (tr ++ tr')%list. split.
  - now rewrite Htr', Htr, app_assoc.
  - unfold writes in *. rewrite flat_map_app. now apply Forall_app.
Qed.

Lemma emits_try_except_Exception {A} P (m : M W A) (h : exn -> M W A) :
  emits P m -> (forall e, emits P (h e)) ->
  emits P (try_except_Exception m h).
Proof.
  intros Hm Hh st. unfold try_except_Exception.
  destruct (Hm st) as (tr & Htr & Hp).
  destruct (m st) as [[a|e|] st1]; cbn [snd] in *; try (exists tr; now split).
  destruct (is_Exception e); [|exists tr; now split].
  destruct (Hh e st1) as (tr' & Htr' & Hp').
  exists (tr ++ tr')%list. split.
  - now rewrite Htr', Htr, app_assoc.
  - unfold writes in *. rewrite flat_map_app. now apply Forall_app.
Qed.

Hint Resolve emits_ret emits_raise emits_log emits_emit emits_getitem
  emits_int emits_int_of_product emits_int_times_float emits_clock
  emits_sleep emits_read : driver.

Lemma emits_read_chunks P n s : emits P (read_chunks n s).
Proof.
  revert s. induction n as [|n IH]; intros s; cbn [read_chunks];
    auto with driver.
  apply emits_bind; auto with driver.
Qed.

Lemma emits_ext {A} P (m m' : M W A) :
  (forall st, m st = m' st) -> emits P m' -> emits P m.
Proof. intros Heq Hm st. rewrite Heq. apply Hm. Qed.

(** A lookup in the constraints followed by [k]: the entry [k] receives is
    the one filed under [axis]. *)
Lemma emits_lookup {A} P axis (k : Axis -> M W A) :
  (forall ax, dict_get (get_constraints cfg) axis = Some ax ->
              emits P (k ax)) ->
  emits P (bind (getitem (get_constraints cfg) axis) k).
Proof.
  intros Hk. unfold getitem.
  destruct (dict_get (get_constraints cfg) axis) as [ax|] eqn:Hax.
  - apply (emits_ext P _ (k ax)); [intros st; apply bind_ret_l|].
    now apply Hk.
  - now apply emits_silent.
Qed.

Lemma emits_ask (P : string -> Prop) axis q n :
  (forall ax, dict_get (get_constraints cfg) axis = Some ax ->
              P (ID ax ++ q ++ Py.newline)) ->
  emits P (_ask_xyz cfg axis q n).
Proof.
  intros Hp. unfold _ask_xyz. apply emits_lookup. intros ax Hax.
  apply emits_bind; [apply emits_write; auto|intros _].
  apply emits_read_chunks.
Qed.

Lemma emits_read_answer_loop P fuel T t0 :
  forall ans, emits P (_read_answer_loop (W := W) fuel T t0 ans).
Proof.
  induction fuel as [|fuel IH]; intros ans; cbn [_read_answer_loop].
  - now apply emits_silent.
  - apply emits_bind; [auto with driver|intros now].
    destruct (Qle_bool 0 T && Py.Qlt_bool T (now - t0))%bool;
      [auto with driver|].
    intros st. destruct (emits_read P st) as (tr & Htr & Hp).
    destruct (read st) as [[c|e|] st1]; cbn [snd] in *;
      try (exists tr; now split).
    destruct (IH (ans ++ Py.drop_last c) st1) as (tr' & Htr' & Hp').
    exists (tr ++ tr')%list. split.
    + now rewrite Htr', Htr, app_assoc.
    + unfold writes in *. rewrite flat_map_app. now apply Forall_app.
Qed.

Lemma emits_read_answer P fuel : emits P (_read_answer_xyz cfg fuel).
Proof.
  unfold _read_answer_xyz. apply emits_bind; [auto with driver|intros t0].
  apply emits_bind; [apply emits_read_answer_loop|intros [a [t|]]];
    [apply emits_bind|]; auto with driver.
Qed.

Lemma emits_write_xyz (P : string -> Prop) fuel axis command :
  (forall ax, dict_get (get_constraints cfg) axis = Some ax ->
              P (ID ax ++ command ++ Py.newline)) ->
  emits P (_write_xyz cfg fuel axis command).
Proof.
  intros Hp. unfold _write_xyz. apply emits_try_except.
  - apply emits_lookup. intros ax Hax.
    apply emits_bind; [apply emits_write; auto|intros _].
    apply emits_bind; [apply emits_read_answer|auto with driver].
  - intros e. apply emits_bind; auto with driver.
Qed.

Lemma in_bounds_test (ax : Axis) (move : Q) :
  negb (Qle_bool (pos_min ax) move && Qle_bool move (pos_max ax)) = false ->
  (pos_min ax <= move)%Q /\ (move <= pos_max ax)%Q.
Proof.
  rewrite negb_false_iff, andb_true_iff, !Qle_bool_iff. tauto.
Qed.

(** The absolute move of one axis writes at most the move command of that
    axis, and only for a target within its bounds. *)
Lemma emits_do_move_abs (P : string -> Prop) fuel axis move :
  (forall ax,
     dict_get (get_constraints cfg) axis = Some ax ->
     (pos_min ax <= move)%Q -> (move <= pos_max ax)%Q ->
     P (ID ax
        ++ ("MA" ++ Py.format_d (Py.int_of_float (Py.fmul move scale_up)))
        ++ Py.newline)) ->
  emits P (_do_move_abs cfg fuel axis move).
Proof.
  intros Hp. unfold _do_move_abs. apply emits_lookup. intros ax Hax.
  destruct (negb _) eqn:Htest.
  - apply emits_bind; auto with driver.
  - apply in_bounds_test in Htest. destruct Htest as [Hlo Hhi].
    unfold int_of_product. destruct (Py.overflows (move * scale_up)).
    + now apply emits_silent.
    + apply (emits_ext P _
               (bind (_write_xyz cfg fuel axis
                        ("MA" ++ Py.format_d
                                   (Py.int_of_float (Py.fmul move scale_up))))
                  (fun _ => ret (axis, move))));
        [intros st; reflexivity|].
      apply emits_bind; [|auto with driver].
      apply emits_write_xyz. intros ax' Hax'.
      rewrite Hax in Hax'. injection Hax' as <-. now apply Hp.
Qed.

Lemma emits_move_abs_batch (P : string -> Prop) fuel pd :
  (forall c, move_command cfg pd c -> P c) ->
  forall axes, emits P (move_abs_batch cfg fuel axes pd).
Proof.
  intros Hp. induction axes as [|k rest IH]; cbn [move_abs_batch];
    auto with driver.
  unfold getitem. destruct (dict_get pd k) as [v|] eqn:Hv.
  - apply (emits_ext P _ (bind (_do_move_abs cfg fuel k v)
                            (fun _ => move_abs_batch cfg fuel rest pd)));
      [intros st; reflexivity|].
    apply emits_bind; [|intros _; exact IH].
    apply emits_do_move_abs. intros ax Hax Hlo Hhi.
    apply Hp. exists k, v, ax. auto.
  - now apply emits_silent.
Qed.

Lemma emits_in_movement_loop (P : string -> Prop) axes :
  (forall c, status_query cfg c -> P c) ->
  forall tmp0 d,
    emits P (_in_movement_loop cfg (get_constraints cfg) axes tmp0 d).
Proof.
  intros Hp. induction axes as [|a rest IH]; intros tmp0 d;
    cbn [_in_movement_loop]; auto with driver.
  apply emits_bind.
  - apply emits_try_except_Exception.
    + apply emits_bind; [auto with driver|intros ax].
      apply emits_bind; [|intros r; apply emits_bind; auto with driver].
      apply emits_ask. intros ax' Hax'. apply Hp.
      exists (label ax), ax'. auto.
    + intros e. apply emits_bind; auto with driver.
  - intros [v|]; auto with driver.
Qed.

Lemma emits_motor_stopped_loop P pd axes :
  forall b, emits P (_motor_stopped_loop (W := W) pd axes b).
Proof.
  induction axes as [|a rest IH]; intros b; cbn [_motor_stopped_loop];
    auto with driver.
  apply emits_bind; [auto with driver|intros v].
  destruct (negb (v =? 0)); [|apply IH].
  apply emits_bind; auto with driver.
Qed.

Lemma emits_motor_stopped (P : string -> Prop) :
  (forall c, status_query cfg c -> P c) -> emits P (_motor_stopped cfg).
Proof.
  intros Hp. unfold _motor_stopped, _in_movement_xyz.
  apply emits_bind; [now apply emits_in_movement_loop|intros pd].
  apply emits_motor_stopped_loop.
Qed.

Lemma emits_wait_loop P fuel (condition : M W bool) dt T t0 :
  emits P condition -> emits P (wait_loop fuel condition dt T t0).
Proof.
  intros Hc. induction fuel as [|fuel IH]; cbn [wait_loop].
  - now apply emits_silent.
  - apply emits_bind; [exact Hc|intros [|]]; [auto with driver|].
    apply emits_bind; [auto with driver|intros now].
    destruct (Qle_bool 0 T && Py.Qlt_bool T (now - t0))%bool;
      [auto with driver|].
    apply emits_bind; [auto with driver|intros _; exact IH].
Qed.

Lemma emits_wait_on_condition P fuel name (condition : M W bool) dt T :
  emits P condition -> emits P (wait_on_condition fuel name condition dt T).
Proof.
  intros Hc. unfold wait_on_condition.
  apply emits_bind; [auto with driver|intros t0].
  apply emits_bind; [now apply emits_wait_loop|intros [t|]];
    auto with driver.
Qed.

Lemma emits_attempts P n (body : M W unit) :
  emits P body -> emits P (attempts n body).
Proof.
  intros Hb. induction n as [|n IH]; cbn [attempts]; [auto with driver|].
  intros st. destruct (Hb st) as (tr & Htr & Hp).
  destruct (body st) as [[[]|e|] st1]; cbn [snd] in *;
    try (exists tr; now split).
  destruct (emits_bind P (emit retry_warning) (fun _ => attempts n body)
              (emits_emit P retry_warning) (fun _ => IH) st1)
    as (tr' & Htr' & Hp').
  exists (tr ++ tr')%list. split.
  - now rewrite Htr', Htr, app_assoc.
  - unfold writes in *. rewrite flat_map_app. now apply Forall_app.
Qed.

(** All that [move_abs] writes: status queries, and move commands for the
    targets of the request that are within bounds. *)
Lemma emits_move_abs fuel pd :
  emits (fun c => status_query cfg c \/ move_command cfg pd c)
    (move_abs cfg fuel pd).
Proof.
  unfold move_abs. apply emits_bind; [|auto with driver].
  apply emits_attempts. unfold move_abs_attempt.
  apply emits_bind; [apply emits_move_abs_batch; auto|intros _].
  apply emits_wait_on_condition, emits_motor_stopped. auto.
Qed.

Lemma emits_write_each (P : string -> Prop) fuel command axes :
  (forall k ax, dict_get (get_constraints cfg) k = Some ax ->
                P (ID ax ++ command ++ Py.newline)) ->
  emits P (write_each cfg fuel axes command).
Proof.
  intros Hp. induction axes as [|a rest IH]; cbn [write_each];
    auto with driver.
  apply emits_bind; [|intros _; exact IH].
  apply emits_write_xyz. intros ax Hax. now apply (Hp a).
Qed.

Lemma emits_abort_wait (P : string -> Prop) fuel :
  (forall c, status_query cfg c -> P c) -> emits P (abort_wait cfg fuel).
Proof.
  intros Hp. induction fuel as [|fuel IH]; cbn [abort_wait].
  - now apply emits_silent.
  - apply emits_bind; [now apply emits_motor_stopped|intros [|]];
      [auto with driver|].
    apply emits_bind; [auto with driver|intros _; exact IH].
Qed.

(** All that [abort] writes: the stop command of every configured axis
    and status queries. *)
Lemma emits_abort fuel :
  emits (fun c => status_query cfg c
                  \/ exists k ax,
                       dict_get (get_constraints cfg) k = Some ax
                       /\ c = (ID ax ++ "AB" ++ Py.newline)%string)
    (abort cfg fuel).
Proof.
  unfold abort. apply emits_try_except.
  - apply emits_bind; [|intros _; apply emits_bind; auto with driver].
    + apply emits_write_each. intros k ax Hax. right. eauto.
    + apply emits_abort_wait. auto.
  - intros e. apply emits_bind; auto with driver.
Qed.

(** A direction outside [0..3] is refused before anything is sent. *)
Lemma calibrate_refuses_direction fuel pl direction (st : St W) :
  (direction < 0 \/ 3 < direction)%Z ->
  calibrate cfg fuel pl direction st = (Raise ValueError, st).
Proof.
  intros Hdir. unfold calibrate.
  assert (Htest : existsb (Z.eqb direction) [0; 1; 2; 3] = false).
  { cbn [existsb]. repeat rewrite orb_false_iff.
    repeat split; try (apply Z.eqb_neq; lia). }
  now rewrite Htest.
Qed.

End Traffic.

(** ** C1: a target out of bounds is rejected without serial I/O *)

(** C1. For every configured axis and every target strictly outside
    [[pos_min, pos_max]], the absolute move of that axis ([_do_move_abs], the
    step [move_abs] runs per axis) returns after one border warning: the
    device state and the trace of serial calls are unchanged, so neither a
    write nor a read has happened.  Accordingly, when every target of a
    request is out of bounds, the axis loop of [move_abs] ends with the
    device state and the trace untouched; and whatever the request, all
    that a whole [move_abs] writes is status queries of its settle poll and
    move commands for targets that are within bounds. *)
Theorem move_abs_rejects_out_of_bounds_locally
    {W : Type} `{Env W} (cfg : Config) (fuel : nat) (axis : string)
    (ax : Axis) (move : Q) (st : St W) :
  dict_get (get_constraints cfg) axis = Some ax ->
  (move < pos_min ax \/ pos_max ax < move)%Q ->
  _do_move_abs cfg fuel axis move st
  = (Ret (axis, move),
     mkSt (world st) (log st ++ [border_warning axis ax]) (trace st))
  /\ (forall param_dict st0,
        all_out_of_bounds cfg param_dict ->
        exists st',
          move_abs_batch cfg fuel (dict_keys param_dict) param_dict st0
          = (Ret tt, st')
          /\ world st' = world st0 /\ trace st' = trace st0)
  /\ (forall param_dict st0,
        exists tr : list io_event,
          trace (snd (move_abs cfg fuel param_dict st0))
          = (trace st0 ++ tr)%list
          /\ Forall (fun c => status_query cfg c
                              \/ move_command cfg param_dict c)
               (writes tr)).
Proof.
  intros Hax Hout. split; [|split].
  - now apply do_move_abs_rejects.
  - intros pd st0 Hall.
    apply move_abs_batch_rejects; [assumption|apply incl_refl].
  - intros pd st0. apply emits_move_abs.
Qed.

Lemma move_abs_rejects_out_of_bounds_locally_witness :
  _do_move_abs example_cfg 10 "x" (2 # 10) (Sim.boot Sim.idle)
  = (Ret ("x", 2 # 10),
     mkSt Sim.idle [border_warning "x" (example_axis "x" "1")] []).
Proof.
  refine (proj1 (move_abs_rejects_out_of_bounds_locally
                   example_cfg 10 "x" (example_axis "x" "1") (2 # 10)
                   (Sim.boot Sim.idle) _ _)).
  - reflexivity.
  - right. reflexivity.
Defined.

(** ** Queries come back *)


Section Termination.
Context {W : Type} `{Env W}.
Variable cfg : Config.

Lemma terminates_ret {A} (a : A) : terminates (ret (W := W) a).
Proof. intros st. discriminate. Qed.

Lemma terminates_raise {A} e : terminates (raise (W := W) (A := A) e).
Proof. intros st. discriminate. Qed.

Lemma terminates_bind {A B} (m : M W A) (k : A -> M W B) :
  terminates m -> (forall a, terminates (k a)) -> terminates (bind m k).
Proof.
  intros Hm Hk st. unfold bind. specialize (Hm st).
  destruct (m st) as [[a|e|] st']; simpl in *;
    [apply Hk|discriminate|congruence].
Qed.

Lemma terminates_try_except {A} (m : M W A) (h : exn -> M W A) :
  terminates m -> (forall e, terminates (h e)) ->
  terminates (try_except m h).
Proof.
  intros Hm Hh st. unfold try_except. specialize (Hm st).
  destruct (m st) as [[a|e|] st']; simpl in *;
    [discriminate|apply Hh|congruence].
Qed.

Lemma terminates_try_except_Exception {A} (m : M W A) (h : exn -> M W A) :
  terminates m -> (forall e, terminates (h e)) ->
  terminates (try_except_Exception m h).
Proof.
  intros Hm Hh st. unfold try_except_Exception. specialize (Hm st).
  destruct (m st) as [[a|e|] st']; simpl in *;
    [discriminate| |congruence].
  destruct (is_Exception e); [apply Hh|discriminate].
Qed.

Lemma terminates_write cmd : terminates (write cmd).
Proof.
  intros st. unfold write.
  destruct (serial_write cmd (world st)) as [[e|] w']; discriminate.
Qed.

Lemma terminates_read : terminates read.
Proof.
  intros st. unfold read.
  destruct (serial_read (world st)) as [[e|s] w']; discriminate.
Qed.

Lemma terminates_clock : terminates time_perf_counter.
Proof.
  intros st. unfold time_perf_counter.
  destruct (perf_counter (world st)); discriminate.
Qed.

Lemma terminates_sleep dt : terminates (time_sleep dt).
Proof. intros st. discriminate. Qed.

Lemma terminates_emit r : terminates (emit (W := W) r).
Proof. intros st. discriminate. Qed.

Lemma terminates_log l m a : terminates (log_call (W := W) l m a).
Proof. intros st. discriminate. Qed.

Lemma terminates_getitem {V} (d : dict V) k :
  terminates (getitem (W := W) d k).
Proof. intros st. unfold getitem. destruct (dict_get d k); discriminate. Qed.

Lemma terminates_int s : terminates (int_ (W := W) s).
Proof. intros st. unfold int_. destruct (Py.int_of_str s); discriminate. Qed.

Lemma terminates_split s : terminates (split_colon_1 (W := W) s).
Proof.
  intros st. unfold split_colon_1.
  destruct (Py.after_colon s); discriminate.
Qed.

Lemma terminates_int_of_product x y :
  terminates (int_of_product (W := W) x y).
Proof.
  intros st. unfold int_of_product.
  destruct (Py.overflows (x * y)); discriminate.
Qed.

Lemma terminates_int_times_float n y :
  terminates (int_times_float (W := W) n y).
Proof.
  intros st. unfold int_times_float.
  destruct (Py.overflows (inject_Z n)); discriminate.
Qed.

Hint Resolve terminates_ret terminates_raise terminates_write
  terminates_read terminates_clock terminates_sleep terminates_emit
  terminates_log terminates_getitem terminates_int terminates_split
  terminates_int_of_product terminates_int_times_float
  : driver.

Ltac term_step :=
  first [ apply terminates_bind; [|intros ?]
        | apply terminates_try_except; [|intros ?]
        | apply terminates_try_except_Exception; [|intros ?] ].

Lemma read_chunks_terminates n s : terminates (read_chunks n s).
Proof.
  revert s. induction n as [|n IH]; intros s; simpl; auto with driver.
  term_step; auto with driver.
Qed.

Lemma ask_terminates axis q n : terminates (_ask_xyz cfg axis q n).
Proof.
  unfold _ask_xyz. repeat term_step; auto using read_chunks_terminates with driver.
Qed.

Lemma query_pos_terminates axis : terminates (query_pos cfg axis).
Proof.
  unfold query_pos. repeat term_step; auto using ask_terminates with driver.
Qed.

(** The retry loop of [get_pos] always hands a mapping back, and the only
    key it can add is the label it was asked for. *)
Lemma get_pos_attempts_returns n axis d (st : St W) :
  exists d' st',
    get_pos_attempts cfg n axis d st = (Ret d', st')
    /\ forall k, In k (dict_keys d') -> k = axis \/ In k (dict_keys d).
Proof.
  revert st. induction n as [|n IH]; intros st; simpl.
  - exists d, st. auto.
  - pose proof (query_pos_terminates axis st) as Hterm.
    destruct (query_pos cfg axis st) as [[p|e|] st1]; simpl in Hterm.
    + exists (dict_set d axis p), st1. split; [reflexivity|].
      intros k. apply dict_set_keys.
    + apply IH.
    + congruence.
Qed.

Lemma get_pos_axes_returns axes d (st : St W) :
  exists d' st',
    get_pos_axes cfg axes d st = (Ret d', st')
    /\ forall k, In k (dict_keys d') -> In k axes \/ In k (dict_keys d).
Proof.
  revert d st. induction axes as [|a rest IH]; intros d st;
    cbn [get_pos_axes].
  - exists d, st. auto.
  - destruct (get_pos_attempts_returns 5 a d st) as (d1 & st1 & Hrun & Hk).
    unfold bind. rewrite Hrun.
    destruct (IH d1 st1) as (d2 & st2 & Hrun2 & Hk2).
    exists d2, st2. split; [assumption|].
    intros k Hin. destruct (Hk2 k Hin) as [Hrest|Hin1].
    + left. now right.
    + destruct (Hk k Hin1) as [->|Hd]; [left; now left|now right].
Qed.

Lemma get_pos_returns pl (st : St W) :
  exists d st',
    get_pos cfg pl st = (Ret (Mapping d), st')
    /\ forall k, In k (dict_keys d) ->
                 In k (iter_param_list pl (get_constraints cfg)).
Proof.
  unfold get_pos, try_except, bind.
  destruct (get_pos_axes_returns
              (iter_param_list pl (get_constraints cfg)) [] st)
    as (d & st' & Hrun & Hk).
  rewrite Hrun. exists d, st'. split; [reflexivity|].
  intros k Hin. destruct (Hk k Hin) as [|[]]; assumption.
Qed.

Lemma chars_length s k : In k (Py.chars s) -> String.length k = 1%nat.
Proof.
  induction s as [|a r IH]; simpl; [tauto|].
  intros [<-|Hin]; [reflexivity|auto].
Qed.

Lemma dict_get_key_in {V} (d : dict V) k v :
  dict_get d k = Some v -> In k (dict_keys d).
Proof.
  intros Hg. apply dict_get_In in Hg.
  unfold dict_keys. change k with (fst (k, v)). now apply in_map.
Qed.

(** *** The step test of the relative move *)

Lemma step_too_small_test (ax : Axis) (step : Q) :
  (Qabs step <= Qabs (pos_step ax))%Q ->
  negb (Py.Qlt_bool (Qabs (pos_step ax)) (Qabs step)) = true.
Proof.
  intros Hle. unfold Py.Qlt_bool. rewrite negb_involutive.
  now apply Qle_bool_iff.
Qed.

Lemma step_large_enough_test (ax : Axis) (step : Q) :
  (Qabs (pos_step ax) < Qabs step)%Q ->
  negb (Py.Qlt_bool (Qabs (pos_step ax)) (Qabs step)) = false.
Proof.
  intros Hlt. unfold Py.Qlt_bool. rewrite negb_involutive.
  apply not_true_is_false. rewrite Qle_bool_iff. lra.
Qed.

Lemma do_move_rel_too_small fuel axis ax step (st : St W) :
  dict_get (get_constraints cfg) axis = Some ax ->
  (Qabs step <= Qabs (pos_step ax))%Q ->
  _do_move_rel cfg fuel axis step st
  = (Raise (UnboundLocalError "move"), logged step_warning st).
Proof.
  intros Hax Hsmall. unfold _do_move_rel, getitem. rewrite Hax.
  rewrite bind_ret_l, (step_too_small_test _ _ Hsmall).
  unfold bind. now rewrite emit_eq.
Qed.

(** The mapping [get_pos] builds from a bare string has one-character
    keys only. *)
Lemma get_pos_of_label axis (st : St W) :
  String.length axis <> 1%nat ->
  exists d st',
    get_pos cfg (PStr axis) st = (Ret (Mapping d), st')
    /\ dict_get d axis = None.
Proof.
  intros Hlen.
  destruct (get_pos_returns (PStr axis) st) as (d & st' & Hrun & Hk).
  exists d, st'. split; [assumption|].
  destruct (dict_get d axis) as [v|] eqn:Hg; [|reflexivity].
  apply dict_get_key_in, Hk in Hg. simpl in Hg.
  apply chars_length in Hg. contradiction.
Qed.

Lemma do_move_rel_lookup_raises fuel axis ax step (st : St W) :
  String.length axis <> 1%nat ->
  dict_get (get_constraints cfg) axis = Some ax ->
  (Qabs (pos_step ax) < Qabs step)%Q ->
  exists st', _do_move_rel cfg fuel axis step st = (Raise (KeyError axis), st').
Proof.
  intros Hlen Hax Hbig. unfold _do_move_rel, getitem. rewrite Hax.
  rewrite bind_ret_l, (step_large_enough_test _ _ Hbig).
  destruct (get_pos_of_label axis st Hlen) as (d & st' & Hrun & Hnone).
  unfold bind at 1. rewrite Hrun.
  unfold bind, subscript, getitem. rewrite Hnone. unfold raise. eauto.
Qed.

(** A relative move of an axis whose label is not one character long
    raises, whatever the step and the state. *)
Lemma do_move_rel_raises fuel axis step (st : St W) :
  String.length axis <> 1%nat ->
  exists e st', _do_move_rel cfg fuel axis step st = (Raise e, st').
Proof.
  intros Hlen.
  destruct (dict_get (get_constraints cfg) axis) as [ax|] eqn:Hax.
  - destruct (Qlt_le_dec (Qabs (pos_step ax)) (Qabs step)) as [Hbig|Hsmall].
    + destruct (do_move_rel_lookup_raises fuel axis ax step st Hlen Hax Hbig)
        as (st' & Hrun).
      eauto.
    + rewrite (do_move_rel_too_small fuel axis ax step st Hax Hsmall). eauto.
  - unfold _do_move_rel, getitem. rewrite Hax. unfold bind, raise. eauto.
Qed.

Lemma move_rel_batch_cannot_pass fuel axis pd :
  String.length axis <> 1%nat ->
  forall axes (st : St W),
    In axis axes ->
    fst (move_rel_batch cfg fuel axes pd st) <> Ret tt.
Proof.
  intros Hlen. induction axes as [|k rest IH]; intros st Hin;
    [destruct Hin|].
  cbn [move_rel_batch]. unfold bind at 1.
  destruct (getitem pd k st) as [[step|e|] st1]; simpl; try discriminate.
  destruct (String.eqb_spec k axis) as [->|Hne].
  - destruct (do_move_rel_raises fuel axis step st1 Hlen) as (e & st2 & Hr).
    unfold bind. rewrite Hr. discriminate.
  - unfold bind.
    destruct (_do_move_rel cfg fuel k step st1) as [[r|e|] st2]; simpl;
      try discriminate.
    apply IH. destruct Hin; [contradiction|assumption].
Qed.

(** *** Absolute move of one axis *)

Lemma do_move_abs_value fuel axis move (st st' : St W) r :
  _do_move_abs cfg fuel axis move st = (Ret r, st') -> r = (axis, move).
Proof.
  unfold _do_move_abs, bind, getitem.
  destruct (dict_get (get_constraints cfg) axis) as [ax|];
    [|discriminate].
  cbv beta iota delta [ret].
  destruct (negb _).
  - rewrite emit_eq. now intros [= <- _].
  - unfold int_of_product.
    destruct (Py.overflows (move * scale_up)); [discriminate|].
    cbv beta iota delta [ret].
    destruct (_write_xyz cfg fuel axis _ st) as [[z|e|] st1];
      [now intros [= <- _]|discriminate|discriminate].
Qed.

Lemma do_move_abs_then_ret fuel axis move (st : St W) :
  bind (_do_move_abs cfg fuel axis move) (fun _ => ret (axis, move)) st
  = _do_move_abs cfg fuel axis move st.
Proof.
  unfold bind at 1.
  destruct (_do_move_abs cfg fuel axis move st) as [[r|e|] st'] eqn:Hrun;
    [|reflexivity|reflexivity].
  apply do_move_abs_value in Hrun. now subst.
Qed.

End Termination.

(** ** The three-attempt loop *)

Section Attempts.
Context {W : Type} `{Env W}.
Variable cfg : Config.

Lemma attempts_exhausted (body : M W unit) (st : St W) :
  attempts 0 body st = (Ret tt, logged cannot_move_error st).
Proof. reflexivity. Qed.

Lemma attempts_success n (body : M W unit) (st : St W) :
  fst (body st) = Ret tt ->
  attempts (S n) body st = (Ret tt, snd (body st)).
Proof.
  simpl. destruct (body st) as [[[]|e|] st']; simpl; congruence.
Qed.

Lemma attempts_retry n (body : M W unit) (st : St W) :
  is_raise (fst (body st)) = true ->
  attempts (S n) body st
  = attempts n body (logged retry_warning (snd (body st))).
Proof.
  simpl. destruct (body st) as [[[]|e|] st']; simpl; try discriminate.
  intros _. unfold bind. now rewrite emit_eq.
Qed.

Lemma attempts_diverge n (body : M W unit) (st : St W) :
  fst (body st) = Diverge ->
  fst (attempts (S n) body st) = Diverge.
Proof.
  simpl. destruct (body st) as [[[]|e|] st']; simpl; congruence.
Qed.

(** The loop itself never raises. *)
Lemma attempts_outcome n (body : M W unit) (st : St W) :
  fst (attempts n body st) = Ret tt \/ fst (attempts n body st) = Diverge.
Proof.
  revert st. induction n as [|n IH]; intros st.
  - now left.
  - destruct (body st) as [[[]|e|] st'] eqn:Hb.
    + left. rewrite attempts_success by now rewrite Hb. reflexivity.
    + rewrite attempts_retry by now rewrite Hb. apply IH.
    + right. apply attempts_diverge. now rewrite Hb.
Qed.

Lemma attempts_terminates n (body : M W unit) :
  terminates body -> terminates (attempts n body).
Proof.
  intros Hb. induction n as [|n IH]; intros st.
  - discriminate.
  - specialize (Hb st).
    destruct (body st) as [[[]|e|] st'] eqn:Hrun; simpl in Hb.
    + rewrite attempts_success by now rewrite Hrun. discriminate.
    + rewrite attempts_retry by now rewrite Hrun. apply IH.
    + congruence.
Qed.

(** When no attempt can succeed, the loop ends on the error record
    (or the fuel runs out inside an attempt). *)
Lemma attempts_all_fail n (body : M W unit) :
  (forall st, fst (body st) <> Ret tt) ->
  forall st,
    fst (attempts n body st) = Diverge
    \/ exists l : list log_record,
         log (snd (attempts n body st)) = (l ++ [cannot_move_error])%list.
Proof.
  intros Hfail. induction n as [|n IH]; intros st.
  - right. exists (log st). reflexivity.
  - specialize (Hfail st).
    destruct (body st) as [[[]|e|] st'] eqn:Hrun; simpl in Hfail.
    + congruence.
    + rewrite attempts_retry by now rewrite Hrun. apply IH.
    + left. apply attempts_diverge. now rewrite Hrun.
Qed.

Lemma run_batched_eq fuel b pd (st : St W) :
  run_batched cfg fuel b pd st
  = bind (attempts 3 (attempt_of cfg fuel b pd)) (fun _ => ret pd) st.
Proof. destruct b; reflexivity. Qed.

Lemma run_batched_after fuel b pd (st st' : St W) :
  attempts 3 (attempt_of cfg fuel b pd) st = (Ret tt, st') ->
  run_batched cfg fuel b pd st = (Ret pd, st').
Proof. intros Hrun. rewrite run_batched_eq. unfold bind. now rewrite Hrun. Qed.

Lemma run_batched_outcome fuel b pd (st : St W) :
  fst (run_batched cfg fuel b pd st) = Ret pd
  \/ fst (run_batched cfg fuel b pd st) = Diverge.
Proof.
  rewrite run_batched_eq. unfold bind.
  destruct (attempts_outcome 3 (attempt_of cfg fuel b pd) st) as [Ho|Ho];
    destruct (attempts 3 (attempt_of cfg fuel b pd) st) as [[[]|e|] st'];
    simpl in *; try discriminate; auto.
Qed.

End Attempts.

(** ** C2: at most three attempts, stopping at the first that completes *)

(** C2. For both batched operations ([move_rel] and [move_abs]): when the
    first two whole-batch attempts raise and the third completes, the
    operation returns in the state the third attempt left, so it succeeded
    on the third attempt and nothing runs after it.  In general the loop
    stops at the first attempt that completes (first or second), and after
    three raising attempts it logs the error and stops: there is no fourth
    attempt.  Between attempts only the retry warning is logged. *)
Theorem batched_move_makes_at_most_three_attempts
    {W : Type} `{Env W} (cfg : Config) (fuel : nat) (b : batched)
    (param_dict : dict Q) (st : St W) :
  let body := attempt_of cfg fuel b param_dict in
  let r1 := body st in
  let r2 := body (logged retry_warning (snd r1)) in
  let r3 := body (logged retry_warning (snd r2)) in
  (is_raise (fst r1) = true -> is_raise (fst r2) = true ->
   fst r3 = Ret tt ->
   run_batched cfg fuel b param_dict st = (Ret param_dict, snd r3))
  /\ (fst r1 = Ret tt ->
      run_batched cfg fuel b param_dict st = (Ret param_dict, snd r1))
  /\ (is_raise (fst r1) = true -> fst r2 = Ret tt ->
      run_batched cfg fuel b param_dict st = (Ret param_dict, snd r2))
  /\ (is_raise (fst r1) = true -> is_raise (fst r2) = true ->
      is_raise (fst r3) = true ->
      run_batched cfg fuel b param_dict st
      = (Ret param_dict,
         logged cannot_move_error (logged retry_warning (snd r3)))).
Proof.
  intros body r1 r2 r3. repeat split.
  - intros H1 H2 H3. apply run_batched_after. fold body.
    rewrite attempts_retry by exact H1. rewrite attempts_retry by exact H2.
    now rewrite attempts_success by exact H3.
  - intros H1. apply run_batched_after. fold body.
    now rewrite attempts_success by exact H1.
  - intros H1 H2. apply run_batched_after. fold body.
    rewrite attempts_retry by exact H1.
    now rewrite attempts_success by exact H2.
  - intros H1 H2 H3. apply run_batched_after. fold body.
    rewrite attempts_retry by exact H1. rewrite attempts_retry by exact H2.
    rewrite attempts_retry by exact H3. apply attempts_exhausted.
Qed.

Lemma batched_move_makes_at_most_three_attempts_witness :
  let pd := [("x", 5 # 100)] in
  let st := Sim.boot (Sim.flaky 4) in
  fst (run_batched example_cfg 10 MoveAbs pd st) = Ret pd
  /\ writes (trace (snd (run_batched example_cfg 10 MoveAbs pd st)))
     = lines ["1MA500000"; "1TS"; "1MA500000"; "1TS";
              "1MA500000"; "1TS"; "2TS"; "3TS"].
Proof.
  intros pd st.
  rewrite (proj1 (batched_move_makes_at_most_three_attempts
                    example_cfg 10 MoveAbs pd st));
    [split| | |]; vm_compute; reflexivity.
Defined.

(** ** C3: the step gate of the relative move *)

(** C3 (amended). For a configured axis: when [|offset| <= |pos_step|] the
    relative move issues no command for the axis, it only logs the step
    warning (device state and serial trace unchanged); when
    [|pos_step| < |offset|] and the position query gives the current
    position of the axis, the relative move is the absolute move of that
    axis to [current_pos + offset] (the float sum), run in the state the
    query left. *)
Theorem move_rel_step_gate
    {W : Type} `{Env W} (cfg : Config) (fuel : nat) (axis : string)
    (ax : Axis) (step : Q) (st : St W) :
  dict_get (get_constraints cfg) axis = Some ax ->
  ((Qabs step <= Qabs (pos_step ax))%Q ->
   snd (_do_move_rel cfg fuel axis step st) = logged step_warning st)
  /\ ((Qabs (pos_step ax) < Qabs step)%Q ->
      forall d st1 current_pos,
        get_pos cfg (PStr axis) st = (Ret (Mapping d), st1) ->
        dict_get d axis = Some current_pos ->
        _do_move_rel cfg fuel axis step st
        = _do_move_abs cfg fuel axis (Py.fadd current_pos step) st1).
Proof.
  intros Hax. split.
  - intros Hsmall. now rewrite (do_move_rel_too_small cfg fuel axis ax step st).
  - intros Hbig d st1 current_pos Hpos Hcur.
    unfold _do_move_rel, getitem at 1. rewrite Hax.
    rewrite bind_ret_l, (step_large_enough_test _ _ Hbig).
    unfold bind at 1. rewrite Hpos.
    unfold bind at 1, subscript, getitem. rewrite Hcur.
    cbv beta iota delta [ret]. apply do_move_abs_then_ret.
Qed.

Lemma move_rel_step_gate_witness :
  writes (trace (snd (_do_move_rel example_cfg 10 "x" (1 # 100)
                        (Sim.boot Sim.idle))))
  = lines ["1TT"; "1MA100000"].
Proof.
  assert (Hpos : get_pos example_cfg (PStr "x") (Sim.boot Sim.idle)
                 = (Ret (Mapping [("x", 0%Q)]),
                    snd (get_pos example_cfg (PStr "x") (Sim.boot Sim.idle))))
    by (vm_compute; reflexivity).
  assert (Hbig : (Qabs (pos_step (example_axis "x" "1")) < Qabs (1 # 100))%Q)
    by (vm_compute; reflexivity).
  rewrite (proj2 (move_rel_step_gate example_cfg 10 "x"
                    (example_axis "x" "1") (1 # 100) (Sim.boot Sim.idle)
                    eq_refl)
             Hbig _ _ _ Hpos eq_refl).
  vm_compute. reflexivity.
Defined.

(** C3 as stated fails at the boundary: with [pos_step = 1e-7] an offset of
    exactly [1e-7] satisfies [|offset| >= pos_step], yet the relative move
    sends nothing (no position query, no [MA]), while the absolute move to
    [current_pos + offset] that the claim promises would send [MA1]. *)
Lemma move_rel_step_equal_to_resolution_is_ignored :
  let step := 1 # 10000000 in
  let st := Sim.boot Sim.idle in
  (pos_step (example_axis "x" "1") <= Qabs step)%Q
  /\ trace (snd (_do_move_rel example_cfg 10 "x" step st)) = []
  /\ writes (trace (snd (_do_move_abs example_cfg 10 "x" (Py.fadd 0 step)
                           st)))
     = lines ["1MA1"].
Proof.
  intros step st. split; [|split].
  - vm_compute. discriminate.
  - vm_compute. reflexivity.
  - vm_compute. reflexivity.
Qed.

(** ** C5: a validation failure on one axis of a relative batch *)

(** C5 (behaviour of the code where the claim fails). When the first axis of
    a [move_rel] request has an offset that is too small
    ([|offset| <= |pos_step|]), the helper raises after its warning (its
    [return] reads the local [move], which that branch never assigns).  The
    batch then stops at this axis in each of the three attempts: all three
    retries are used up, the error is logged, and no command at all reaches
    the device, so the sibling axes of the request are never moved. *)
Theorem move_rel_small_step_aborts_the_batch
    {W : Type} `{Env W} (cfg : Config) (fuel : nat) (axis : string)
    (ax : Axis) (step : Q) (rest : dict Q) (st : St W) :
  dict_get (get_constraints cfg) axis = Some ax ->
  (Qabs step <= Qabs (pos_step ax))%Q ->
  move_rel cfg fuel ((axis, step) :: rest) st
  = (Ret ((axis, step) :: rest),
     mkSt (world st)
       (log st ++ [step_warning; retry_warning;
                   step_warning; retry_warning;
                   step_warning; retry_warning; cannot_move_error])
       (trace st)).
Proof.
  intros Hax Hsmall.
  assert (Hbody : forall s : St W,
             move_rel_attempt cfg fuel ((axis, step) :: rest) s
             = (Raise (UnboundLocalError "move"), logged step_warning s)).
  { intros s. unfold move_rel_attempt. cbn [dict_keys map fst move_rel_batch].
    unfold getitem. cbn [dict_get]. rewrite String.eqb_refl, bind_ret_l.
    unfold bind. now rewrite (do_move_rel_too_small cfg fuel axis ax step s). }
  apply (run_batched_after cfg fuel MoveRel). cbn [attempt_of].
  rewrite attempts_retry by now rewrite Hbody.
  rewrite attempts_retry by now rewrite Hbody.
  rewrite attempts_retry by now rewrite Hbody.
  rewrite attempts_exhausted, !Hbody. unfold logged; cbn [snd world log trace].
  repeat rewrite <- app_assoc. reflexivity.
Qed.

Lemma move_rel_small_step_aborts_the_batch_witness :
  let pd := [("x", 0 # 1); ("y", 1 # 100)] in
  move_rel example_cfg 10 pd (Sim.boot Sim.idle)
  = (Ret pd,
     mkSt Sim.idle
       [step_warning; retry_warning; step_warning; retry_warning;
        step_warning; retry_warning; cannot_move_error] []).
Proof.
  intros pd.
  apply (move_rel_small_step_aborts_the_batch example_cfg 10 "x"
           (example_axis "x" "1") (0 # 1) [("y", 1 # 100)]
           (Sim.boot Sim.idle)).
  - reflexivity.
  - vm_compute. discriminate.
Defined.

(** ** C10: relative moves need one-character labels *)

(** C10. [_do_move_rel] hands the bare label to [get_pos], which iterates it
    character by character.  For an axis whose label is not exactly one
    character long the relative move therefore raises in every state and
    for every step; when the step passes the step test, the exception is the
    [KeyError] of looking the full label up in the mapping [get_pos]
    returned.  Any [move_rel] request that names such an axis uses up all
    its attempts and ends on the error record (unless fuel runs out in a
    sibling's read loop): the relative move never succeeds. *)
Theorem move_rel_needs_one_character_labels
    {W : Type} `{Env W} (cfg : Config) (fuel : nat) (axis : string)
    (step : Q) (st : St W) :
  String.length axis <> 1%nat ->
  (exists e st', _do_move_rel cfg fuel axis step st = (Raise e, st'))
  /\ (forall ax,
        dict_get (get_constraints cfg) axis = Some ax ->
        (Qabs (pos_step ax) < Qabs step)%Q ->
        exists st',
          _do_move_rel cfg fuel axis step st = (Raise (KeyError axis), st'))
  /\ (forall param_dict st0,
        In axis (dict_keys param_dict) ->
        let r := move_rel cfg fuel param_dict st0 in
        fst r = Diverge
        \/ (fst r = Ret param_dict
            /\ exists l : list log_record,
                 log (snd r) = (l ++ [cannot_move_error])%list)).
Proof.
  intros Hlen. split; [|split].
  - now apply do_move_rel_raises.
  - intros ax Hax Hbig. now apply (do_move_rel_lookup_raises cfg fuel axis ax).
  - intros pd st0 Hin r. subst r.
    pose proof (attempts_all_fail 3 (move_rel_attempt cfg fuel pd)
                  (fun s => move_rel_batch_cannot_pass cfg fuel axis pd Hlen
                              (dict_keys pd) s Hin) st0) as Hall.
    pose proof (attempts_outcome 3 (move_rel_attempt cfg fuel pd) st0) as Ho.
    unfold move_rel, bind.
    destruct (attempts 3 (move_rel_attempt cfg fuel pd) st0)
      as [[[]|e|] st']; cbn [fst snd ret] in *.
    + right. split; [reflexivity|].
      destruct Hall as [Hd|Hl]; [discriminate|exact Hl].
    + destruct Ho; discriminate.
    + now left.
Qed.

Lemma move_rel_needs_one_character_labels_witness :
  exists e st',
    _do_move_rel
      (mkConfig (example_axis "phi" "1") (example_axis "y" "2")
                (example_axis "z" "3") 1000 (3 # 1000))
      10 "phi" (1 # 100) (Sim.boot Sim.idle)
    = (Raise e, st').
Proof.
  refine (proj1 (move_rel_needs_one_character_labels _ 10 "phi" (1 # 100)
                   (Sim.boot Sim.idle) _)).
  vm_compute. discriminate.
Defined.


(** ** The send primitive *)

Section Send.
Context {W : Type} `{Env W}.
Variable cfg : Config.

Lemma timed_out_test (T t : Q) :
  (Qle_bool 0 T && Py.Qlt_bool T t)%bool = true -> (0 <= T)%Q /\ (T < t)%Q.
Proof.
  unfold Py.Qlt_bool. rewrite andb_true_iff, negb_true_iff.
  intros [Hpos Hlt]. split; [now apply Qle_bool_iff|].
  apply Qnot_le_lt. intros Hle. apply Qle_bool_iff in Hle. congruence.
Qed.

(** The read loop is a run of reads that returned, closed by a read that
    raised, by the time limit, or by the end of the fuel; it logs nothing. *)
Lemma read_answer_loop_shape fuel T t0 : forall ans (st st' : St W) o,
  _read_answer_loop fuel T t0 ans st = (o, st') ->
  log st' = log st
  /\ exists (chunks : list string) (tail : list io_event),
       trace st' = (trace st ++ ok_reads chunks ++ tail)%list
       /\ ((exists e a, tail = [EvRead (inl e)] /\ o = Ret (a, None))
           \/ (tail = [] /\ exists a t,
                 o = Ret (a, Some t) /\ (0 <= T)%Q /\ (T < t)%Q)
           \/ (tail = [] /\ o = Diverge)).
Proof.
  induction fuel as [|fuel IH]; intros ans st st' o.
  - intros [= <- <-]. split; [reflexivity|]. exists [], []. simpl.
    rewrite app_nil_r. auto.
  - cbn [_read_answer_loop]. unfold bind, time_perf_counter.
    destruct (perf_counter (world st)) as [now w1].
    destruct (Qle_bool 0 T && Py.Qlt_bool T (now - t0))%bool eqn:Hout.
    + apply timed_out_test in Hout. intros [= <- <-].
      split; [reflexivity|].
      exists [], []. simpl. rewrite app_nil_r. split; [reflexivity|].
      right. left. split; [reflexivity|]. exists ans, (now - t0)%Q. tauto.
    + unfold read. cbn [world log trace].
      destruct (serial_read w1) as [[e|c] w2].
      * intros [= <- <-]. split; [reflexivity|].
        exists [], [EvRead (inl e)]. simpl.
        split; [reflexivity|]. left. eauto.
      * intros Hrun. apply IH in Hrun. cbn [log trace] in Hrun.
        destruct Hrun as (Hlog & chunks & tail & Htr & Hend).
        split; [exact Hlog|]. exists (c :: chunks), tail.
        split; [|exact Hend].
        rewrite Htr. simpl. now rewrite <- app_assoc.
Qed.

Lemma read_answer_shape fuel (st st' : St W) o :
  _read_answer_xyz cfg fuel st = (o, st') ->
  exists (chunks : list string) (tail : list io_event),
    trace st' = (trace st ++ ok_reads chunks ++ tail)%list
    /\ ((exists e a, tail = [EvRead (inl e)] /\ o = Ret a
                     /\ log st' = log st)
        \/ (tail = [] /\ exists a t,
              o = Ret a
              /\ log st' = (log st ++ [read_timeout_warning t])%list
              /\ (0 <= _pi_xyz_timeout cfg / 1000)%Q
              /\ (_pi_xyz_timeout cfg / 1000 < t)%Q)
        \/ (tail = [] /\ o = Diverge)).
Proof.
  unfold _read_answer_xyz, bind at 1, time_perf_counter.
  destruct (perf_counter (world st)) as [t_start w1].
  unfold bind.
  destruct (_read_answer_loop fuel (_pi_xyz_timeout cfg / 1000) t_start ""
              (mkSt w1 (log st) (trace st))) as [o1 st2] eqn:Hloop.
  apply read_answer_loop_shape in Hloop. cbn [log trace] in Hloop.
  destruct Hloop as (Hlog & chunks & tail & Htr & Hend).
  intros Hrun. exists chunks, tail.
  destruct Hend as [(e & a & Ht & ->)|[(Ht & a & t & -> & Hp & Hl)|(Ht & ->)]].
  - injection Hrun as <- <-. split; [exact Htr|]. left. exists e, a. tauto.
  - rewrite emit_eq in Hrun. injection Hrun as <- <-.
    cbn [logged trace log]. split; [exact Htr|]. right. left.
    split; [exact Ht|]. exists a, t. rewrite Hlog. tauto.
  - injection Hrun as <- <-. split; [exact Htr|]. right. right. tauto.
Qed.

(** The send primitive on a configured axis: one write of the framed
    command, then the read loop. *)
Lemma write_xyz_shape fuel axis ax command (st st' : St W) o :
  dict_get (get_constraints cfg) axis = Some ax ->
  _write_xyz cfg fuel axis command st = (o, st') ->
  exists (w : option exn) (chunks : list string) (tail : list io_event),
    trace st'
    = (trace st ++ EvWrite (ID ax ++ command ++ Py.newline) w
         :: ok_reads chunks ++ tail)%list
    /\ match w with
       | Some e =>
           chunks = [] /\ tail = [] /\ o = Ret (-1)
       | None =>
           (exists e, tail = [EvRead (inl e)] /\ o = Ret 0
                      /\ log st' = log st)
           \/ (tail = [] /\ o = Ret 0
               /\ exists t,
                    log st' = (log st ++ [read_timeout_warning t])%list
                    /\ (0 <= _pi_xyz_timeout cfg / 1000)%Q
                    /\ (_pi_xyz_timeout cfg / 1000 < t)%Q)
           \/ (tail = [] /\ o = Diverge)
       end.
Proof.
  intros Hax. unfold _write_xyz, try_except, getitem. rewrite Hax.
  rewrite bind_ret_l. unfold bind at 1, write.
  destruct (serial_write (ID ax ++ command ++ Py.newline) (world st))
    as [[e|] w1].
  - unfold bind, log_call, ret. intros [= <- <-].
    exists (Some e), [], []. cbn [trace]. split; [reflexivity|]. auto.
  - unfold bind.
    destruct (_read_answer_xyz cfg fuel
                (mkSt w1 (log st) (trace st ++ [EvWrite _ None])))
      as [o1 st2] eqn:Hread.
    apply read_answer_shape in Hread. cbn [log trace] in Hread.
    destruct Hread as (chunks & tail & Htr & Hend).
    intros Hrun. exists None, chunks, tail.
    assert (Htr' : trace st2
                   = (trace st ++ EvWrite (ID ax ++ command ++ Py.newline) None
                        :: ok_reads chunks ++ tail)%list).
    { rewrite Htr, <- app_assoc. reflexivity. }
    destruct Hend as [(e & a & Ht & -> & Hl)
                     |[(Ht & a & t & -> & Hl & Hp & Hlt)|(Ht & ->)]].
    + injection Hrun as <- <-. split; [exact Htr'|]. left. exists e. tauto.
    + injection Hrun as <- <-. split; [exact Htr'|]. right. left.
      repeat split; auto. exists t. tauto.
    + injection Hrun as <- <-. split; [exact Htr'|]. right. right. tauto.
Qed.

End Send.

(** ** C4: what the send primitive reads *)

(** C4 (amended). On a configured axis the send primitive writes the framed
    command [ID ++ opcode ++ newline] exactly once.  If that write raises,
    nothing is read and [-1] is returned.  Otherwise it runs the loop that
    reads the answer, discards what was read and returns [0]: the loop
    reads as long as the reads return, and ends at the first read that
    raises or, tested before each read, once the channel time limit has
    passed (a warning is then logged), or never within the fuel.  The
    number of reads of one command is therefore not fixed: it is the
    number of reads that returned, plus one when a read that raised ended
    the loop. *)
Theorem send_writes_once_then_reads_until_a_read_fails
    {W : Type} `{Env W} (cfg : Config) (fuel : nat) (axis : string)
    (ax : Axis) (command : string) (st : St W) :
  dict_get (get_constraints cfg) axis = Some ax ->
  let r := _write_xyz cfg fuel axis command st in
  exists (w : option exn) (chunks : list string) (tail : list io_event),
    trace (snd r)
    = (trace st ++ EvWrite (ID ax ++ command ++ Py.newline) w
         :: ok_reads chunks ++ tail)%list
    /\ match w with
       | Some e =>
           chunks = [] /\ tail = [] /\ fst r = Ret (-1)
       | None =>
           (exists e, tail = [EvRead (inl e)] /\ fst r = Ret 0
                      /\ log (snd r) = log st)
           \/ (tail = [] /\ fst r = Ret 0
               /\ exists t,
                    log (snd r) = (log st ++ [read_timeout_warning t])%list
                    /\ (0 <= _pi_xyz_timeout cfg / 1000)%Q
                    /\ (_pi_xyz_timeout cfg / 1000 < t)%Q)
           \/ (tail = [] /\ fst r = Diverge)
       end
    /\ count_reads (trace (snd r))
       = (count_reads (trace st) + List.length chunks
          + List.length tail)%nat.
Proof.
  intros Hax r. subst r.
  destruct (_write_xyz cfg fuel axis command st) as [o st'] eqn:Hrun.
  cbn [fst snd].
  destruct (write_xyz_shape cfg fuel axis ax command st st' o Hax Hrun)
    as (w & chunks & tail & Htr & Hend).
  exists w, chunks, tail. split; [exact Htr|]. split; [exact Hend|].
  assert (Htail : tail = [] \/ exists e, tail = [EvRead (inl e)]).
  { destruct w as [e|].
    - left. tauto.
    - destruct Hend as [(e & -> & _)|[(-> & _)|(-> & _)]]; eauto. }
  assert (Hreads : forall l, count_reads (ok_reads l) = List.length l).
  { induction l as [|c l IH]; [reflexivity|].
    change (count_reads (ok_reads (c :: l)))
      with (S (count_reads (ok_reads l))).
    now rewrite IH. }
  assert (Happ : forall a b,
             count_reads (a ++ b) = (count_reads a + count_reads b)%nat).
  { intros a b. unfold count_reads. now rewrite filter_app, length_app. }
  rewrite Htr, Happ.
  change (count_reads (EvWrite (ID ax ++ command ++ Py.newline) w
                         :: ok_reads chunks ++ tail))
    with (count_reads (ok_reads chunks ++ tail)).
  rewrite Happ, Hreads.
  destruct Htail as [->|[e ->]]; cbn; lia.
Qed.

Lemma send_writes_once_then_reads_until_a_read_fails_witness :
  exists (w : option exn) (chunks : list string) (tail : list io_event),
    trace (snd (_write_xyz example_cfg 10 "x" "AB" (Sim.boot Sim.idle)))
    = (EvWrite ("1AB" ++ Py.newline) w :: ok_reads chunks ++ tail)%list.
Proof.
  destruct (send_writes_once_then_reads_until_a_read_fails
              example_cfg 10 "x" (example_axis "x" "1") "AB"
              (Sim.boot Sim.idle) eq_refl)
    as (w & chunks & tail & Htr & _ & _).
  exists w, chunks, tail. exact Htr.
Defined.

(** C4 as stated fails: with two acknowledgement lines pending, one [AB]
    command is followed by three reads (two that return and the one that
    raises), not by exactly one. *)
Lemma send_reads_until_the_line_is_silent :
  let st := Sim.boot (Sim.chatty (lines ["ok"; "ok"])) in
  let tr := trace (snd (_write_xyz example_cfg 10 "x" "AB" st)) in
  writes tr = lines ["1AB"]
  /\ count_reads tr = 3%nat
  /\ count_reads tr <> 1%nat.
Proof.
  intros st tr.
  split; [vm_compute; reflexivity|].
  split; [vm_compute; reflexivity|vm_compute; discriminate].
Qed.

(** ** C6: when the motor counts as stopped *)

Section Stopped.
Context {W : Type} `{Env W}.
Variable cfg : Config.

Lemma dict_set_fresh {V} (d : dict V) k v :
  ~ In k (dict_keys d) -> dict_set d k v = (d ++ [(k, v)])%list.
Proof.
  induction d as [|[k' v'] r IH]; simpl; [reflexivity|].
  intros Hnin. destruct (String.eqb_spec k' k) as [->|Hne].
  - exfalso. apply Hnin. now left.
  - f_equal. apply IH. intros Hin. apply Hnin. now right.
Qed.

Lemma dict_set_labelled (d : dict Axis) (a : Axis) :
  labelled d -> labelled (dict_set d (label a) a).
Proof.
  unfold labelled. induction d as [|[k' v'] r IH]; intros Hd; simpl.
  - constructor; [reflexivity|constructor].
  - inversion Hd as [|? ? Hhd Htl]; subst. simpl in Hhd.
    destruct (String.eqb_spec k' (label a)) as [->|Hne].
    + constructor; [reflexivity|assumption].
    + constructor; [assumption|now apply IH].
Qed.

Lemma dict_set_nodup {V} (d : dict V) k v :
  NoDup (dict_keys d) -> NoDup (dict_keys (dict_set d k v)).
Proof.
  induction d as [|[k' v'] r IH]; intros Hd; simpl.
  - constructor; [intros []|constructor].
  - apply NoDup_cons_iff in Hd as [Hnin Hnd].
    destruct (String.eqb_spec k' k) as [->|Hne]; simpl.
    + constructor; assumption.
    + constructor; [|now apply IH].
      intros Hin. apply dict_set_keys in Hin. destruct Hin; [congruence|].
      contradiction.
Qed.

Lemma constraints_labelled : labelled (get_constraints cfg).
Proof.
  unfold get_constraints. repeat apply dict_set_labelled. constructor.
Qed.

Lemma constraints_nodup : NoDup (dict_keys (get_constraints cfg)).
Proof.
  unfold get_constraints. repeat apply dict_set_nodup. constructor.
Qed.

Lemma constraints_key k :
  In k (dict_keys (get_constraints cfg)) ->
  exists ax, dict_get (get_constraints cfg) k = Some ax /\ label ax = k.
Proof.
  intros Hin. destruct (dict_get_keys _ _ Hin) as [ax Hax].
  exists ax. split; [assumption|].
  pose proof constraints_labelled as Hl. unfold labelled in Hl.
  rewrite Forall_forall in Hl.
  exact (Hl (k, ax) (dict_get_In _ _ _ Hax)).
Qed.

Lemma status_replies_length axes (st st' : St W) vs :
  status_replies cfg axes st vs st' -> List.length axes = List.length vs.
Proof. induction 1; simpl; congruence. Qed.

Lemma in_movement_loop_replies axes (st st' : St W) vs :
  status_replies cfg axes st vs st' ->
  forall tmp0 d,
    (forall a, In a axes ->
       exists ax, dict_get (get_constraints cfg) a = Some ax /\ label ax = a) ->
    NoDup axes ->
    (forall a, In a axes -> ~ In a (dict_keys d)) ->
    _in_movement_loop cfg (get_constraints cfg) axes tmp0 d st
    = (Ret (d ++ combine axes (map (fun v => v mod 2) vs))%list, st').
Proof.
  induction 1 as [st|a axes st r st1 v vs st2 Hask Hint Hrest IH];
    intros tmp0 d Hcfg Hnd Hfresh.
  - simpl. now rewrite app_nil_r.
  - cbn [_in_movement_loop]. unfold bind at 1, try_except_Exception.
    destruct (Hcfg a (or_introl eq_refl)) as (ax & Hax & Hlab).
    unfold getitem at 1. rewrite Hax, bind_ret_l, Hlab.
    unfold bind at 1. rewrite Hask.
    unfold bind at 1, int_. rewrite Hint. cbv beta iota delta [ret].
    apply NoDup_cons_iff in Hnd as [Hnin Hnd'].
    rewrite (dict_set_fresh d a (v mod 2))
      by (apply Hfresh; now left).
    rewrite IH.
    + simpl. now rewrite <- app_assoc.
    + intros b Hb. apply Hcfg. now right.
    + assumption.
    + intros b Hb Hin. unfold dict_keys in Hin. rewrite map_app in Hin.
      apply in_app_or in Hin. destruct Hin as [Hin|[<-|[]]].
      * apply (Hfresh b); [now right|assumption].
      * contradiction.
Qed.

Lemma forallb_over_map {A B} (f : B -> bool) (g : A -> B) l :
  forallb f (map g l) = forallb (fun x => f (g x)) l.
Proof. induction l as [|x l IH]; simpl; [reflexivity|now rewrite IH]. Qed.

Lemma Forall2_mem {A B} (P : A -> B -> Prop) l l' :
  Forall2 P l l' -> Forall2 (fun a b => P a b /\ In a l) l l'.
Proof.
  induction 1 as [|a b l l' Hp Hrest IH]; constructor.
  - split; [assumption|now left].
  - eapply Forall2_impl; [|exact IH].
    intros a' b' [Hp' Hin]. split; [assumption|now right].
Qed.

Lemma combine_lookup axes : forall (vals : list Z),
  NoDup axes -> List.length axes = List.length vals ->
  Forall2 (fun a v => dict_get (combine axes vals) a = Some v) axes vals.
Proof.
  induction axes as [|a rest IH]; intros [|v vs] Hnd Hlen;
    try discriminate; simpl; constructor.
  - now rewrite String.eqb_refl.
  - apply NoDup_cons_iff in Hnd as [Hnin Hnd'].
    pose proof (Forall2_mem _ _ _ (IH vs Hnd' (eq_add_S _ _ Hlen))) as Hall.
    eapply Forall2_impl; [|exact Hall].
    intros b w [Hg Hin]. simpl.
    destruct (String.eqb_spec a b) as [->|Hne]; [contradiction|assumption].
Qed.

Lemma combine_keys axes : forall (vals : list Z),
  List.length axes = List.length vals ->
  dict_keys (combine axes vals) = axes.
Proof.
  induction axes as [|a rest IH]; intros [|v vs] Hlen; try discriminate;
    simpl; [reflexivity|].
  f_equal. apply IH. now injection Hlen.
Qed.

Lemma motor_stopped_loop_run pd axes vals :
  Forall2 (fun a v => dict_get pd a = Some v) axes vals ->
  forall b (st : St W),
    fst (_motor_stopped_loop pd axes b st)
    = Ret (b && forallb (fun v => v =? 0) vals)%bool
    /\ world (snd (_motor_stopped_loop pd axes b st)) = world st
    /\ trace (snd (_motor_stopped_loop pd axes b st)) = trace st.
Proof.
  induction 1 as [|a v axes vals Hget Hrest IH]; intros b st.
  - simpl. now rewrite andb_true_r.
  - cbn [_motor_stopped_loop forallb]. unfold getitem. rewrite Hget.
    rewrite bind_ret_l. destruct (v =? 0); cbn [negb].
    + rewrite andb_true_l. apply IH.
    + unfold bind, log_call.
      destruct (IH false (mkSt (world st)
                            (log st ++ [mkLog DEBUG (a ++ " is moving") []])
                            (trace st))) as (Ho & Hw & Ht).
      rewrite andb_false_l, andb_false_r. rewrite andb_false_l in Ho. auto.
Qed.

(** With every status query answered, [_motor_stopped] returns whether all
    the values are even, in the world the queries left. *)
Lemma motor_stopped_replies (st st' : St W) vs :
  status_replies cfg (dict_keys (get_constraints cfg)) st vs st' ->
  fst (_motor_stopped cfg st) = Ret (forallb (fun v => v mod 2 =? 0) vs)
  /\ world (snd (_motor_stopped cfg st)) = world st'
  /\ trace (snd (_motor_stopped cfg st)) = trace st'.
Proof.
  intros Hrep. unfold _motor_stopped, _in_movement_xyz, bind.
  rewrite (in_movement_loop_replies _ _ _ _ Hrep None []);
    [|apply constraints_key|apply constraints_nodup|intros a _ []].
  cbn [app].
  pose proof (status_replies_length _ _ _ _ Hrep) as Hlen.
  assert (Hlen' : List.length (dict_keys (get_constraints cfg))
                  = List.length (map (fun v => v mod 2) vs))
    by now rewrite length_map.
  rewrite (combine_keys _ _ Hlen').
  destruct (motor_stopped_loop_run _ _ _
              (combine_lookup _ _ constraints_nodup Hlen') true st')
    as (Ho & Hw & Ht).
  rewrite Ho, Hw, Ht. rewrite andb_true_l, forallb_over_map. auto.
Qed.

End Stopped.

Lemma even_test (v : Z) : (v mod 2 =? 0) = Z.even v.
Proof.
  rewrite Zmod_even. destruct (Z.even v); reflexivity.
Qed.

(** C6 (amended). When the status query of every configured axis comes
    back with a value, [_motor_stopped] returns the conjunction of the
    tests [value % 2 == 0]: it returns [True] if and only if every value is
    even, and [False] as soon as one value is odd. *)
Theorem motor_stopped_iff_every_status_even
    {W : Type} `{Env W} (cfg : Config) (st st' : St W) (vs : list Z) :
  status_replies cfg (dict_keys (get_constraints cfg)) st vs st' ->
  fst (_motor_stopped cfg st) = Ret (forallb (fun v => v mod 2 =? 0) vs)
  /\ (fst (_motor_stopped cfg st) = Ret true
      <-> Forall (fun v => Z.even v = true) vs)
  /\ (Exists (fun v => Z.odd v = true) vs ->
      fst (_motor_stopped cfg st) = Ret false).
Proof.
  intros Hrep.
  destruct (motor_stopped_replies cfg st st' vs Hrep) as (Ho & _ & _).
  split; [exact Ho|]. rewrite Ho. split.
  - rewrite Forall_forall. split.
    + intros [= Hall]. rewrite forallb_forall in Hall.
      intros v Hin. rewrite <- even_test. now apply Hall.
    + intros Hall. f_equal. apply forallb_forall.
      intros v Hin. rewrite even_test. now apply Hall.
  - rewrite Exists_exists. intros (v & Hin & Hodd). f_equal.
    apply not_true_is_false. rewrite forallb_forall. intros Hall.
    specialize (Hall v Hin). rewrite even_test in Hall.
    rewrite <- Z.negb_odd, Hodd in Hall. discriminate.
Qed.

Lemma motor_stopped_iff_every_status_even_witness :
  fst (_motor_stopped example_cfg (Sim.boot (reporting [0; 2; 4]))) = Ret true
  /\ fst (_motor_stopped example_cfg (Sim.boot (reporting [0; 3; 4])))
     = Ret false.
Proof.
  assert (Heven : exists st',
             status_replies example_cfg (dict_keys (get_constraints example_cfg))
               (Sim.boot (reporting [0; 2; 4])) [0; 2; 4] st').
  { eexists.
    repeat (eapply replies_cons;
            [vm_compute; reflexivity|vm_compute; reflexivity|]).
    apply replies_nil. }
  assert (Hodd : exists st',
             status_replies example_cfg (dict_keys (get_constraints example_cfg))
               (Sim.boot (reporting [0; 3; 4])) [0; 3; 4] st').
  { eexists.
    repeat (eapply replies_cons;
            [vm_compute; reflexivity|vm_compute; reflexivity|]).
    apply replies_nil. }
  destruct Heven as [st1 Heven]. destruct Hodd as [st2 Hodd]. split.
  - apply (proj1 (proj2 (motor_stopped_iff_every_status_even
                           example_cfg _ st1 [0; 2; 4] Heven))).
    repeat constructor.
  - apply (proj2 (proj2 (motor_stopped_iff_every_status_even
                           example_cfg _ st2 [0; 3; 4] Hodd))).
    right. left. reflexivity.
Defined.

(** C6 as stated fails when a status query fails: [_motor_stopped] can
    return [True] although not every axis reported an even value.  Here
    ["x"] reports [4] and ["y"] reports [2]; the status query of ["z"]
    raises on its write, the exception is caught and logged, and ["z"] is
    counted with the value [2] left over from ["y"]. *)
Lemma motor_stopped_although_an_axis_did_not_report :
  let st := Sim.boot (scripted [false; false; true] [4; 2]) in
  let st1 := snd (_ask_xyz example_cfg "x" "TS" 3 st) in
  let st2 := snd (_ask_xyz example_cfg "y" "TS" 3 st1) in
  (exists r, fst (_ask_xyz example_cfg "x" "TS" 3 st) = Ret r
             /\ Py.int_of_str (Py.drop 8 r) = Some 4)
  /\ (exists r, fst (_ask_xyz example_cfg "y" "TS" 3 st1) = Ret r
                /\ Py.int_of_str (Py.drop 8 r) = Some 2)
  /\ fst (_ask_xyz example_cfg "z" "TS" 3 st2)
     = Raise (VisaIOError "write failed")
  /\ fst (_motor_stopped example_cfg st) = Ret true
  /\ writes (trace (snd (_motor_stopped example_cfg st)))
     = lines ["1TS"; "2TS"; "3TS"]
  /\ log (snd (_motor_stopped example_cfg st))
     = [mkLog ERROR "Failed: " [AExn (VisaIOError "write failed")]].
Proof.
  intros st st1 st2.
  split; [eexists; split; vm_compute; reflexivity|].
  split; [eexists; split; vm_compute; reflexivity|].
  repeat split; vm_compute; reflexivity.
Qed.

(** ** C8: the five tries of a position query *)

Section PositionRetries.
Context {W : Type} `{Env W}.
Variable cfg : Config.

Lemma writes_app tr tr' : writes (tr ++ tr') = (writes tr ++ writes tr')%list.
Proof. unfold writes. apply flat_map_app. Qed.

Lemma attempts_after_failures axis n (st st1 : St W) :
  failed_queries cfg axis n st st1 ->
  forall m d,
    get_pos_attempts cfg (n + m) axis d st = get_pos_attempts cfg m axis d st1.
Proof.
  induction 1 as [st|n st e st1 st2 Hq Hrest IH]; intros m d.
  - reflexivity.
  - cbn [Nat.add get_pos_attempts]. rewrite Hq. apply IH.
Qed.

Lemma get_pos_single axis (st : St W) :
  get_pos cfg (PList [axis]) st
  = (let (o, st') := get_pos_attempts cfg 5 axis [] st in
     match o with
     | Ret d => (Ret (Mapping d), st')
     | Raise e =>
         (Ret (Sentinel (-1)),
          logged (mkLog ERROR "Could not find current xyz motor position" [])
            st')
     | Diverge => (Diverge, st')
     end).
Proof.
  unfold get_pos, try_except, iter_param_list. cbn [get_pos_axes].
  unfold bind.
  destruct (get_pos_attempts cfg 5 axis [] st) as [[d|e|] st']; reflexivity.
Qed.

(** On a transport that always fails, one query of a configured axis is one
    write of the [TT] command and an exception. *)
Lemma query_pos_on_dead_line axis ax (st : St W) :
  always_fails W ->
  dict_get (get_constraints cfg) axis = Some ax ->
  exists e st',
    query_pos cfg axis st = (Raise e, st')
    /\ writes (trace st')
       = (writes (trace st) ++ [(ID ax ++ "TT" ++ Py.newline)%string])%list.
Proof.
  intros Hdead Hax.
  assert (Hask : exists e st',
             _ask_xyz cfg axis "TT" 3 st = (Raise e, st')
             /\ writes (trace st')
                = (writes (trace st)
                     ++ [(ID ax ++ "TT" ++ Py.newline)%string])%list).
  { unfold _ask_xyz, getitem. rewrite Hax, bind_ret_l.
    unfold bind at 1, write.
    destruct (serial_write (ID ax ++ "TT" ++ Py.newline) (world st))
      as [[e|] w1] eqn:Hw.
    - do 2 eexists. split; [reflexivity|].
      cbn [trace]. rewrite writes_app. reflexivity.
    - destruct Hdead as [Hwr|Hrd].
      + destruct (Hwr (ID ax ++ "TT" ++ Py.newline) (world st)) as [e He].
        rewrite Hw in He. discriminate.
      + cbn [read_chunks]. unfold bind at 1, read. cbn [world log trace].
        destruct (Hrd w1) as [e He].
        destruct (serial_read w1) as [[e'|c] w2]; [|discriminate].
        do 2 eexists. split; [reflexivity|].
        cbn [trace]. rewrite !writes_app. cbn. rewrite app_nil_r.
        reflexivity. }
  destruct Hask as (e & st' & Hask & Hw).
  exists e, st'. split; [|exact Hw].
  unfold query_pos. now apply bind_raise.
Qed.

Lemma get_pos_attempts_on_dead_line axis ax :
  always_fails W ->
  dict_get (get_constraints cfg) axis = Some ax ->
  forall n d (st : St W),
    exists st',
      get_pos_attempts cfg n axis d st = (Ret d, st')
      /\ writes (trace st')
         = (writes (trace st)
            ++ repeat (ID ax ++ "TT" ++ Py.newline)%string n)%list.
Proof.
  intros Hdead Hax. induction n as [|n IH]; intros d st.
  - exists st. simpl. now rewrite app_nil_r.
  - destruct (query_pos_on_dead_line axis ax st Hdead Hax)
      as (e & st1 & Hq & Hw).
    destruct (IH d st1) as (st2 & Hrun & Hw2).
    exists st2. cbn [get_pos_attempts]. rewrite Hq. split; [exact Hrun|].
    rewrite Hw2, Hw, <- app_assoc. reflexivity.
Qed.

End PositionRetries.

(** C8. For each requested axis [get_pos] tries the position query at most
    five times and stops at the first try that succeeds: after [n < 5] tries
    that raised, a try that succeeds stores its value for the axis and the
    loop over the axes moves on from the state that try left; after five
    tries that raised it moves on with the mapping unchanged, so the mapping
    has no entry for the axis.  Over a transport that always fails (every
    write raises, or every read raises) the query of a configured axis is
    written exactly five times and the returned mapping is empty: the axis
    is absent from it, no number stands in for it. *)
Theorem get_pos_tries_five_times
    {W : Type} `{Env W} (cfg : Config) (axis : string) (st : St W) :
  (forall rest d n st1 st2 p,
     failed_queries cfg axis n st st1 -> (n < 5)%nat ->
     query_pos cfg axis st1 = (Ret p, st2) ->
     get_pos_axes cfg (axis :: rest) d st
     = get_pos_axes cfg rest (dict_set d axis p) st2)
  /\ (forall rest d st1,
        failed_queries cfg axis 5 st st1 ->
        get_pos_axes cfg (axis :: rest) d st = get_pos_axes cfg rest d st1)
  /\ (forall n st1 st2 p,
        failed_queries cfg axis n st st1 -> (n < 5)%nat ->
        query_pos cfg axis st1 = (Ret p, st2) ->
        get_pos cfg (PList [axis]) st = (Ret (Mapping [(axis, p)]), st2))
  /\ (forall st1,
        failed_queries cfg axis 5 st st1 ->
        get_pos cfg (PList [axis]) st = (Ret (Mapping []), st1))
  /\ (forall ax,
        always_fails W ->
        dict_get (get_constraints cfg) axis = Some ax ->
        let r := get_pos cfg (PList [axis]) st in
        fst r = Ret (Mapping [])
        /\ writes (trace (snd r))
           = (writes (trace st)
                ++ repeat (ID ax ++ "TT" ++ Py.newline)%string 5)%list).
Proof.
  assert (Hhit : forall d n st1 st2 p,
             failed_queries cfg axis n st st1 -> (n < 5)%nat ->
             query_pos cfg axis st1 = (Ret p, st2) ->
             get_pos_attempts cfg 5 axis d st
             = (Ret (dict_set d axis p), st2)).
  { intros d n st1 st2 p Hfail Hn Hq.
    replace 5%nat with (n + S (4 - n))%nat by lia.
    rewrite (attempts_after_failures cfg axis n st st1 Hfail).
    cbn [get_pos_attempts]. now rewrite Hq. }
  assert (Hmiss : forall d st1,
             failed_queries cfg axis 5 st st1 ->
             get_pos_attempts cfg 5 axis d st = (Ret d, st1)).
  { intros d st1 Hfail. change 5%nat with (5 + 0)%nat.
    now rewrite (attempts_after_failures cfg axis 5 st st1 Hfail). }
  split; [|split; [|split; [|split]]].
  - intros rest d n st1 st2 p Hfail Hn Hq. cbn [get_pos_axes].
    apply bind_eq. now apply (Hhit d n st1).
  - intros rest d st1 Hfail. cbn [get_pos_axes].
    apply bind_eq. now apply Hmiss.
  - intros n st1 st2 p Hfail Hn Hq. rewrite get_pos_single.
    now rewrite (Hhit [] n st1 st2 p Hfail Hn Hq).
  - intros st1 Hfail. rewrite get_pos_single. now rewrite (Hmiss [] st1 Hfail).
  - intros ax Hdead Hax r. subst r. rewrite get_pos_single.
    destruct (get_pos_attempts_on_dead_line cfg axis ax Hdead Hax 5 [] st)
      as (st' & Hrun & Hw).
    rewrite Hrun. split; [reflexivity|exact Hw].
Qed.

Lemma get_pos_tries_five_times_witness :
  let r := get_pos example_cfg (PList ["x"]) Unplugged.boot in
  fst r = Ret (Mapping [])
  /\ writes (trace (snd r)) = lines ["1TT"; "1TT"; "1TT"; "1TT"; "1TT"].
Proof.
  apply (proj2 (proj2 (proj2 (proj2
           (get_pos_tries_five_times example_cfg "x" Unplugged.boot))))
           (example_axis "x" "1")).
  - left. intros c w. eexists. reflexivity.
  - reflexivity.
Defined.

(** ** Float arithmetic *)

Section FloatArithmetic.

Lemma rnd_div_close (a b : Z) :
  0 <= a -> 0 < b -> Z.abs (2 * (Py.rnd_div a b * b - a)) <= b.
Proof.
  intros Ha Hb. unfold Py.rnd_div.
  pose proof (Z.div_mod a b ltac:(lia)) as Hdm.
  pose proof (Z.mod_pos_bound a b Hb) as Hr.
  set (q := a / b) in *. set (r := a mod b) in *.
  destruct (Z.compare_spec (2 * r) b) as [Heq|Hlt|Hgt];
    [destruct (Z.even q)|..]; nia.
Qed.

(** [2 ^ log2_floor n d <= n / d] *)
Lemma log2_floor_lower (n d : Z) :
  0 < n -> 0 < d ->
  let l := Py.log2_floor n d in
  (0 <= l -> 2 ^ l * d <= n) /\ (l < 0 -> d <= n * 2 ^ (- l)).
Proof.
  intros Hn Hd. unfold Py.log2_floor.
  pose proof (Z.log2_spec n Hn) as [Hnl Hnu].
  pose proof (Z.log2_spec d Hd) as [Hdl Hdu].
  pose proof (Z.log2_nonneg n) as Hln. pose proof (Z.log2_nonneg d) as Hld.
  set (ln := Z.log2 n) in *. set (ld := Z.log2 d) in *.
  destruct (0 <=? ln - ld) eqn:Hsign.
  - apply Z.leb_le in Hsign.
    destruct (2 ^ (ln - ld) * d <=? n) eqn:Htest; cbn zeta.
    + apply Z.leb_le in Htest. split; [auto|lia].
    + apply Z.leb_gt in Htest. split.
      * intros Hl.
        assert (Hpow : 2 ^ (ln - ld - 1) * 2 ^ (Z.succ ld) = 2 ^ ln).
        { rewrite <- Z.pow_add_r by lia. f_equal. lia. }
        assert (Hpos : 0 < 2 ^ (ln - ld - 1))
          by (apply Z.pow_pos_nonneg; lia).
        nia.
      * intros Hl. assert (ln - ld = 0) by lia.
        replace (- (ln - ld - 1)) with 1 by lia.
        replace ld with ln in * by lia. change (2 ^ 1) with 2.
        rewrite Z.pow_succ_r in Hdu by lia. lia.
  - apply Z.leb_gt in Hsign.
    destruct (d <=? n * 2 ^ (- (ln - ld))) eqn:Htest; cbn zeta.
    + apply Z.leb_le in Htest. split; [lia|auto].
    + apply Z.leb_gt in Htest. split; [lia|]. intros _.
      replace (- (ln - ld - 1)) with (Z.succ ld - ln) by lia.
      assert (Hpow : 2 ^ ln * 2 ^ (Z.succ ld - ln) = 2 ^ (Z.succ ld)).
      { rewrite <- Z.pow_add_r by lia. f_equal. lia. }
      assert (Hpos : 0 < 2 ^ (Z.succ ld - ln))
        by (apply Z.pow_pos_nonneg; lia).
      nia.
Qed.

(** Rounding to the nearest float moves a positive number by at most half
    a unit in the last place. *)
Lemma round64_pos_close (n d : positive) :
  (Qabs (Py.round64_pos (Zpos n) (Zpos d) - (Zpos n # d))
   <= (Zpos n # d) * unit_roundoff + tiny)%Q.
Proof.
  unfold Py.round64_pos.
  pose proof (log2_floor_lower (Zpos n) (Zpos d) eq_refl eq_refl) as Hl.
  cbn zeta in Hl. destruct Hl as [Hl0 Hl1].
  set (l := Py.log2_floor (Zpos n) (Zpos d)) in *.
  set (N := Zpos n) in *. set (D := Zpos d) in *.
  assert (HN : 0 < N) by reflexivity. assert (HD : 0 < D) by reflexivity.
  destruct (0 <=? Z.max (l - 52) (-1074)) eqn:Hsign.
  - apply Z.leb_le in Hsign.
    assert (He : Z.max (l - 52) (-1074) = l - 52) by lia.
    rewrite He in *.
    assert (Hpow : 2 ^ l = 2 ^ (l - 52) * 2 ^ 52).
    { rewrite <- Z.pow_add_r by lia. f_equal. lia. }
    assert (HE : 0 < 2 ^ (l - 52)) by (apply Z.pow_pos_nonneg; lia).
    pose proof (rnd_div_close N (D * 2 ^ (l - 52)) ltac:(lia) ltac:(nia))
      as Hm.
    specialize (Hl0 ltac:(lia)). rewrite Hpow in Hl0.
    set (E := 2 ^ (l - 52)) in *.
    set (m := Py.rnd_div N (D * E)) in *.
    apply Qle_trans with ((N # d) * unit_roundoff)%Q;
      [|unfold tiny; rewrite <- Qplus_0_r at 1;
        apply Qplus_le_r; discriminate].
    unfold Qle, Qabs, Qminus, Qplus, Qopp, Qmult, inject_Z, unit_roundoff.
    cbn [Qnum Qden]. rewrite !Pos2Z.inj_mul. fold D.
    change (Z.pos (2 ^ 53)) with (2 ^ 53).
    change (2 ^ 52) with 4503599627370496 in *.
    change (2 ^ 53) with 9007199254740992.
    nia.
  - apply Z.leb_gt in Hsign.
    set (e := Z.max (l - 52) (-1074)) in *.
    assert (HK : 0 < 2 ^ (- e)) by (apply Z.pow_pos_nonneg; lia).
    pose proof (rnd_div_close (N * 2 ^ (- e)) D ltac:(nia) HD) as Hm.
    rewrite Qred_correct.
    set (m := Py.rnd_div (N * 2 ^ (- e)) D) in *.
    assert (Hcases : D * 2 ^ 52 <= N * 2 ^ (- e) \/ 2 ^ (- e) = 2 ^ 1074).
    { destruct (Z.max_spec (l - 52) (-1074)) as [[_ Hmax]|[_ Hmax]];
        fold e in Hmax.
      - right. now rewrite Hmax.
      - left. destruct (Z_le_gt_dec 0 l) as [Hpos|Hneg].
        + specialize (Hl0 Hpos).
          assert (Hpow : 2 ^ 52 = 2 ^ l * 2 ^ (- e)).
          { rewrite <- Z.pow_add_r by lia. f_equal. lia. }
          rewrite Hpow. assert (0 < 2 ^ l) by (apply Z.pow_pos_nonneg; lia).
          nia.
        + specialize (Hl1 ltac:(lia)).
          assert (Hpow : 2 ^ (- e) = 2 ^ (- l) * 2 ^ 52).
          { rewrite <- Z.pow_add_r by lia. f_equal. lia. }
          rewrite Hpow. nia. }
    set (K := 2 ^ (- e)) in *.
    assert (HKpos : Z.pos (Z.to_pos K) = K) by (apply Z2Pos.id; lia).
    unfold Qle, Qabs, Qminus, Qplus, Qopp, Qmult, unit_roundoff, tiny.
    cbn [Qnum Qden]. rewrite !Pos2Z.inj_mul, !HKpos. fold D.
    change (Z.pos (2 ^ 53)) with (2 ^ 53).
    change (Z.pos (2 ^ 1075)) with (2 ^ 1075).
    destruct Hcases as [Hnorm|Hsub].
    + change (2 ^ 52) with 4503599627370496 in *.
      change (2 ^ 53) with 9007199254740992.
      assert (0 < 2 ^ 1075) by (apply Z.pow_pos_nonneg; lia).
      set (T := 2 ^ 1075) in *.
      nia.
    + rewrite Hsub in *.
      replace (2 ^ 1075) with (2 * 2 ^ 1074)
        by (rewrite <- Z.pow_succ_r by lia; reflexivity).
      assert (0 < 2 ^ 1074) by (apply Z.pow_pos_nonneg; lia).
      set (T := 2 ^ 1074) in *.
      change (2 ^ 53) with 9007199254740992.
      nia.
Qed.

Lemma round64_close (x : Q) :
  (Qabs (Py.round64 x - x) <= Qabs x * unit_roundoff + tiny)%Q.
Proof.
  destruct x as [[|n|n] d]; unfold Py.round64; cbn [Qnum Qden].
  - unfold Qle, Qabs, Qminus, Qplus, Qopp, Qmult, unit_roundoff, tiny.
    cbn. lia.
  - change (Qabs (Z.pos n # d)) with (Z.pos n # d).
    apply round64_pos_close.
  - change (Qabs (Z.neg n # d)) with (Z.pos n # d).
    assert (Heq : (- Py.round64_pos (Z.pos n) (Z.pos d) - (Z.neg n # d)
                   == - (Py.round64_pos (Z.pos n) (Z.pos d)
                         - (Z.pos n # d)))%Q).
    { change (Z.neg n # d) with (- (Z.pos n # d))%Q. ring. }
    rewrite Heq, Qabs_opp. apply round64_pos_close.
Qed.

(** Truncation moves a number by less than one, towards zero. *)
Lemma int_of_float_close (x : Q) :
  (-1 < inject_Z (Py.int_of_float x) - x)%Q
  /\ (inject_Z (Py.int_of_float x) - x < 1)%Q.
Proof.
  destruct x as [a b]. unfold Py.int_of_float. cbn [Qnum Qden].
  pose proof (Z.quot_rem' a (Zpos b)) as Hqr.
  pose proof (Z.rem_bound_abs a (Zpos b) ltac:(discriminate)) as Hrem.
  unfold Qlt, Qminus, Qplus, Qopp, inject_Z. cbn [Qnum Qden].
  rewrite Pos.mul_1_l.
  set (q := Z.quot a (Zpos b)) in *. set (r := Z.rem a (Zpos b)) in *.
  assert (Hb : 0 < Zpos b) by reflexivity.
  split; nia.
Qed.

Lemma int_of_float_le (x : Q) :
  (Qabs (inject_Z (Py.int_of_float x)) <= Qabs x)%Q.
Proof.
  destruct x as [a b]. unfold Py.int_of_float. cbn [Qnum Qden].
  unfold Qle, Qabs, inject_Z. cbn [Qnum Qden].
  rewrite Z.mul_1_r, <- Z.quot_abs by discriminate.
  change (Z.abs (Z.pos b)) with (Z.pos b). rewrite Z.mul_comm.
  apply Z.mul_quot_le; [apply Z.abs_nonneg|discriminate].
Qed.

Lemma Qabs_bound (x b : Q) : (Qabs x <= b -> - b <= x /\ x <= b)%Q.
Proof. intros Hx. now apply Qabs_Qle_condition. Qed.

Lemma Qabs_diff_bound (x y b : Q) :
  (Qabs (x - y) <= b -> Qabs x <= Qabs y + b)%Q.
Proof.
  intros Hb.
  assert (Heq : (x == (x - y) + y)%Q) by ring.
  rewrite Heq at 1.
  eapply Qle_trans; [apply Qabs_triangle|]. lra.
Qed.

(** A number of magnitude at most [2 ^ 1023] rounds to a finite float. *)
Lemma small_does_not_overflow (x : Q) :
  (Qabs x <= inject_Z (2 ^ 1023))%Q -> Py.overflows x = false.
Proof.
  intros Hx. unfold Py.overflows.
  destruct (Qle_bool _ _) eqn:Htest; [|reflexivity].
  apply Qle_bool_iff in Htest.
  pose proof (Qabs_diff_bound _ _ _ (round64_close x)) as Hr.
  assert (Ht : (tiny <= 1)%Q) by (vm_compute; discriminate).
  assert (Hp : (inject_Z (2 ^ 1024) == 2 * inject_Z (2 ^ 1023))%Q)
    by (vm_compute; reflexivity).
  assert (Hpos : (2 < inject_Z (2 ^ 1023))%Q) by (vm_compute; reflexivity).
  rewrite Hp in Htest.
  set (B := inject_Z (2 ^ 1023)) in *. set (t := tiny) in *.
  set (X := Qabs x) in *. set (R := Qabs (Py.round64 x)) in *.
  clearbody B t X R. unfold unit_roundoff in Hr.
  change (2 ^ 53)%positive with 9007199254740992%positive in Hr.
  assert (HX : (X * (1 # 9007199254740992) <= B * (1 # 9007199254740992))%Q)
    by (apply Qmult_le_compat_r; [assumption|discriminate]).
  exfalso. lra.
Qed.

(** The value read back after a velocity [v] went through
    [int(v * 1e7)] and [raw * 1e-7]: one raw unit from the truncation,
    plus the rounding of the three float operations and of the literal. *)
Lemma round_trip_close (v : Q) :
  let n := Py.int_of_float (Py.fmul v scale_up) in
  (Qabs (Py.fmul (Py.round64 (inject_Z n)) scale_down - v)
   < (1 # 10000000) + (Qabs v + (1 # 10000000)) * (1 # 2 ^ 50))%Q.
Proof.
  intros n. subst n. unfold Py.fmul.
  set (V := (v * scale_up)%Q).
  set (p := Py.round64 V).
  set (n := inject_Z (Py.int_of_float p)).
  set (a := Py.round64 n).
  pose proof (round64_close V) as Hp. fold p in Hp.
  pose proof (int_of_float_close p) as [Hn1 Hn2]. fold n in Hn1, Hn2.
  pose proof (int_of_float_le p) as Hnp. fold n in Hnp.
  pose proof (round64_close n) as Ha. fold a in Ha.
  pose proof (round64_close (a * scale_down)) as Hv.
  assert (HV : (Qabs V == Qabs v * scale_up)%Q).
  { unfold V. rewrite Qabs_Qmult. reflexivity. }
  pose proof (Qabs_diff_bound _ _ _ Hp) as HP.
  pose proof (Qabs_diff_bound _ _ _ Ha) as HA.
  assert (Has : (Qabs (a * scale_down) == Qabs a * scale_down)%Q).
  { rewrite Qabs_Qmult. reflexivity. }
  rewrite Has in Hv.
  set (s := scale_down) in *.
  set (v' := Py.round64 (a * s)) in *.
  apply Qabs_bound in Hp, Ha, Hv.
  pose proof (Qabs_nonneg v) as Hv0.
  pose proof (Qabs_nonneg n) as Hn0.
  pose proof (Qabs_nonneg a) as Ha0.
  pose proof (Qabs_nonneg p) as Hp0.
  pose proof (Qle_Qabs n) as Hnle.
  pose proof (Qle_Qabs (- n)) as Hnle'. rewrite Qabs_opp in Hnle'.
  assert (Hvv : (v == V * (1 # 10000000))%Q).
  { unfold V, scale_up. field. }
  rewrite HV in *.
  set (X := Qabs v) in *. set (NN := Qabs n) in *.
  set (AA := Qabs a) in *. set (PP := Qabs p) in *.
  unfold unit_roundoff, tiny, scale_up in *.
  assert (Hs : s = 944473296573929 # 9444732965739290427392)
    by (vm_compute; reflexivity).
  assert (Ht0 : (0 <= 1 # 2 ^ 1075)%Q) by discriminate.
  assert (Ht1 : ((1 # 2 ^ 1075) <= 1 # 2 ^ 200)%Q)
    by (vm_compute; discriminate).
  set (eta := (1 # 2 ^ 1075)%Q) in *.
  clearbody eta v' a n p V X NN AA PP. rewrite Hs in *. clear Hs s.
  change (2 ^ 53)%positive with 9007199254740992%positive in *.
  change (2 ^ 50)%positive with 1125899906842624%positive.
  change (2 ^ 200)%positive
    with 1606938044258990275541962092341162602522202993782792835301376%positive
    in *.
  apply Qabs_Qlt_condition.
  split; lra.
Qed.

(** Within the range of velocities considered neither conversion leaves
    the floats: [v * 1e7] is finite and its truncation converts back. *)
Lemma in_range_converts (v : Q) :
  (Qabs v <= velocity_range)%Q ->
  Py.overflows (v * scale_up) = false
  /\ Py.overflows (inject_Z (Py.int_of_float (Py.fmul v scale_up))) = false.
Proof.
  intros Hv.
  assert (HV : (Qabs (v * scale_up) <= inject_Z (10 ^ 307))%Q).
  { rewrite Qabs_Qmult.
    assert (Hs : (Qabs scale_up == inject_Z (10 ^ 7))%Q) by reflexivity.
    assert (Hp : (inject_Z (10 ^ 307)
                  == velocity_range * inject_Z (10 ^ 7))%Q)
      by (vm_compute; reflexivity).
    rewrite Hs, Hp. apply Qmult_le_compat_r; [assumption|discriminate]. }
  assert (Hlt : (inject_Z (10 ^ 307) * (1 + unit_roundoff) + tiny
                 <= inject_Z (2 ^ 1023))%Q) by (vm_compute; discriminate).
  split.
  - apply small_does_not_overflow.
    eapply Qle_trans; [exact HV|]. vm_compute. discriminate.
  - apply small_does_not_overflow.
    eapply Qle_trans; [apply int_of_float_le|].
    eapply Qle_trans; [|exact Hlt].
    pose proof (Qabs_diff_bound _ _ _ (round64_close (v * scale_up))) as Hr.
    unfold Py.fmul.
    assert (Hu : (Qabs (v * scale_up) * unit_roundoff
                  <= inject_Z (10 ^ 307) * unit_roundoff)%Q)
      by (apply Qmult_le_compat_r; [assumption|discriminate]).
    set (B := inject_Z (10 ^ 307)) in *. set (t := tiny) in *.
    set (X := Qabs (v * scale_up)) in *.
    set (R := Qabs (Py.round64 (v * scale_up))) in *.
    set (u := unit_roundoff) in *.
    clearbody B t X R u. lra.
Qed.

End FloatArithmetic.

(** ** C7: raw units *)

Section RawUnits.
Context {W : Type} `{Env W}.
Variable cfg : Config.

Lemma query_pos_value axis (st st' : St W) r s raw :
  _ask_xyz cfg axis "TT" 3 st = (Ret r, st') ->
  Py.after_colon r = Some s ->
  Py.int_of_str s = Some raw ->
  Py.overflows (inject_Z raw) = false ->
  query_pos cfg axis st
  = (Ret (Py.fmul (Py.round64 (inject_Z raw)) scale_down), st').
Proof.
  intros Hask Hcolon Hint Hfin. unfold query_pos.
  rewrite (bind_eq _ _ _ _ _ Hask).
  unfold split_colon_1. rewrite Hcolon, bind_ret_l.
  unfold int_. rewrite Hint, bind_ret_l.
  unfold int_times_float. now rewrite Hfin.
Qed.

Lemma get_pos_value axis (st st' : St W) r s raw :
  _ask_xyz cfg axis "TT" 3 st = (Ret r, st') ->
  Py.after_colon r = Some s ->
  Py.int_of_str s = Some raw ->
  Py.overflows (inject_Z raw) = false ->
  get_pos cfg (PList [axis]) st
  = (Ret (Mapping [(axis, Py.fmul (Py.round64 (inject_Z raw)) scale_down)]),
     st').
Proof.
  intros Hask Hcolon Hint Hfin. rewrite get_pos_single.
  cbn [get_pos_attempts].
  now rewrite (query_pos_value axis st st' r s raw Hask Hcolon Hint Hfin).
Qed.

Lemma get_velocity_value axis (st st' : St W) r s raw :
  _ask_xyz cfg axis "TY" 3 st = (Ret r, st') ->
  Py.after_colon r = Some s ->
  Py.int_of_str s = Some raw ->
  Py.overflows (inject_Z raw) = false ->
  get_velocity cfg (PList [axis]) st
  = (Ret (Mapping [(axis, Py.fmul (Py.round64 (inject_Z raw)) scale_down)]),
     st').
Proof.
  intros Hask Hcolon Hint Hfin.
  assert (Haxes : get_velocity_axes cfg [axis] [] st
                  = (Ret [(axis,
                           Py.fmul (Py.round64 (inject_Z raw)) scale_down)],
                     st')).
  { cbn [get_velocity_axes]. rewrite (bind_eq _ _ _ _ _ Hask).
    unfold split_colon_1. rewrite Hcolon, bind_ret_l.
    unfold int_. rewrite Hint, bind_ret_l.
    unfold int_times_float. rewrite Hfin, bind_ret_l. reflexivity. }
  unfold get_velocity, try_except, iter_param_list.
  now rewrite (bind_eq _ _ _ _ _ Haxes).
Qed.

Lemma set_velocity_axes_single fuel axis v (st : St W) :
  Py.overflows (v * scale_up) = false ->
  set_velocity_axes cfg fuel [axis] [(axis, v)] st
  = bind (_write_xyz cfg fuel axis
            ("SV" ++ Py.format_d (Py.int_of_float (Py.fmul v scale_up))))
      (fun _ => ret tt) st.
Proof.
  intros Hfin. cbn [set_velocity_axes]. unfold getitem. cbn [dict_get].
  rewrite String.eqb_refl, bind_ret_l.
  unfold int_of_product. now rewrite Hfin, bind_ret_l.
Qed.

Lemma set_velocity_sends fuel axis ax v (st st' : St W) o :
  dict_get (get_constraints cfg) axis = Some ax ->
  Py.overflows (v * scale_up) = false ->
  set_velocity cfg fuel [(axis, v)] st = (o, st') ->
  (o = Ret (Mapping [(axis, v)]) \/ o = Diverge)
  /\ exists (w : option exn) (rest : list io_event),
       trace st'
       = (trace st
            ++ EvWrite (ID ax ++ ("SV" ++ Py.format_d
                                    (Py.int_of_float (Py.fmul v scale_up)))
                          ++ Py.newline)%string w :: rest)%list.
Proof.
  intros Hax Hfin.
  unfold set_velocity, try_except. cbn [dict_keys map fst].
  unfold bind at 1. rewrite set_velocity_axes_single by assumption.
  unfold bind.
  destruct (_write_xyz cfg fuel axis
              ("SV" ++ Py.format_d (Py.int_of_float (Py.fmul v scale_up)))
              st)
    as [o1 st1] eqn:Hsend.
  destruct (write_xyz_shape cfg fuel axis ax _ st st1 o1 Hax Hsend)
    as (w & chunks & tail & Htr & Hend).
  assert (Ho1 : (exists z, o1 = Ret z) \/ o1 = Diverge).
  { destruct w as [e|].
    - destruct Hend as (_ & _ & ->). eauto.
    - destruct Hend as [(e & _ & -> & _)|[(_ & -> & _)|(_ & ->)]]; eauto. }
  destruct Ho1 as [[z ->]| ->]; cbn [ret]; intros [= <- <-];
    (split; [auto|exists w, (ok_reads chunks ++ tail)%list; exact Htr]).
Qed.

(** A velocity whose product with [1e7] is not finite is refused before
    anything is sent: [int] raises and [set_velocity] answers [-1]. *)
Lemma set_velocity_overflow fuel axis v rest (st : St W) :
  Py.overflows (v * scale_up) = true ->
  set_velocity cfg fuel ((axis, v) :: rest) st
  = (Ret (Sentinel (-1)),
     logged (mkLog ERROR "Could not set axis velocity" []) st).
Proof.
  intros Hover. unfold set_velocity, try_except.
  cbn [dict_keys map fst set_velocity_axes].
  unfold getitem. cbn [dict_get]. rewrite String.eqb_refl.
  unfold bind at 1. rewrite bind_ret_l.
  unfold int_of_product. rewrite Hover. reflexivity.
Qed.

(** Setting a velocity and reading it back from a device that answers with
    the raw integer it was sent. *)
Lemma velocity_round_trip fuel axis v (st st1 st2 : St W) a r s :
  (Qabs v <= velocity_range)%Q ->
  set_velocity cfg fuel [(axis, v)] st = (Ret a, st1) ->
  _ask_xyz cfg axis "TY" 3 st1 = (Ret r, st2) ->
  Py.after_colon r = Some s ->
  Py.int_of_str s = Some (Py.int_of_float (Py.fmul v scale_up)) ->
  exists v',
    bind (set_velocity cfg fuel [(axis, v)])
      (fun _ => get_velocity cfg (PList [axis])) st
    = (Ret (Mapping [(axis, v')]), st2)
    /\ (Qabs (v' - v)
        < (1 # 10000000) + (Qabs v + (1 # 10000000)) * (1 # 2 ^ 50))%Q.
Proof.
  intros Hrange Hset Hask Hcolon Hint.
  destruct (in_range_converts v Hrange) as [_ Hback].
  exists (Py.fmul
            (Py.round64 (inject_Z (Py.int_of_float (Py.fmul v scale_up))))
            scale_down).
  split; [|apply round_trip_close].
  rewrite (bind_eq _ _ _ _ _ Hset).
  now apply (get_velocity_value axis st1 st2 r s).
Qed.

End RawUnits.

(** ** Decimal text of an integer *)

Section DecimalText.

Local Abbreviation ds := NilEmpty.string_of_uint.

Lemma rstrip_digits d suf :
  suf = EmptyString \/ suf = Py.newline \/ suf = Sim.crlf ->
  Py.rstrip (ds d ++ suf) = ds d.
Proof.
  intros Hsuf.
  induction d; cbn [NilEmpty.string_of_uint append Py.rstrip];
    try (rewrite IHd; destruct (NilEmpty.string_of_uint d); reflexivity).
  destruct Hsuf as [->|[->| ->]]; reflexivity.
Qed.

Lemma ungroup_digits d b :
  (d = Decimal.Nil -> b = true) -> Py.ungroup b (ds d) = Some (ds d).
Proof.
  revert b.
  induction d; intros b Hb; cbn [NilEmpty.string_of_uint Py.ungroup];
    try (cbn [Ascii.eqb Bool.eqb]; rewrite IHd by reflexivity; reflexivity).
  now rewrite Hb.
Qed.

Lemma lstrip_digits d r :
  d <> Decimal.Nil -> Py.lstrip (ds d ++ r) = ds d ++ r.
Proof. destruct d; intros Hd; [contradiction|reflexivity..]. Qed.

Lemma digits_head d :
  d <> Decimal.Nil ->
  exists a r, ds d = String a r
              /\ Ascii.eqb a "-" = false /\ Ascii.eqb a "+" = false.
Proof.
  destruct d; intros Hd; [contradiction|..];
    cbn [NilEmpty.string_of_uint]; do 2 eexists; repeat split.
Qed.

Lemma digits_value d :
  d <> Decimal.Nil -> Py.digits (ds d) = Some (Z.of_uint d).
Proof.
  intros Hd. unfold Py.digits.
  rewrite ungroup_digits by (intros ->; contradiction).
  now rewrite NilEmpty.usu.
Qed.

Lemma int_of_digits d suf :
  d <> Decimal.Nil ->
  suf = EmptyString \/ suf = Py.newline \/ suf = Sim.crlf ->
  Py.int_of_str (ds d ++ suf) = Some (Z.of_uint d).
Proof.
  intros Hd Hsuf. unfold Py.int_of_str, Py.strip.
  rewrite lstrip_digits, rstrip_digits by assumption.
  destruct (digits_head d Hd) as (a & r & Heq & Hm & Hp).
  rewrite Heq, Hm, Hp, <- Heq. now apply digits_value.
Qed.

Lemma int_of_minus_digits d suf :
  d <> Decimal.Nil ->
  suf = EmptyString \/ suf = Py.newline \/ suf = Sim.crlf ->
  Py.int_of_str (String "-" (ds d ++ suf)) = Some (- Z.of_uint d).
Proof.
  intros Hd Hsuf. unfold Py.int_of_str, Py.strip.
  assert (Hl : Py.lstrip (String "-" (ds d ++ suf)) = String "-" (ds d ++ suf))
    by reflexivity.
  assert (Hr : Py.rstrip (String "-" (ds d ++ suf)) = String "-" (ds d)).
  { cbn [Py.rstrip]. rewrite rstrip_digits by assumption.
    destruct (digits_head d Hd) as (a & r & -> & _). reflexivity. }
  rewrite Hl, Hr, Ascii.eqb_refl. now rewrite digits_value.
Qed.

Lemma remove_line_end_digits c d r :
  c = Py.CR \/ c = Py.LF ->
  Py.remove_char c (ds d ++ r) = ds d ++ Py.remove_char c r.
Proof.
  intros Hc.
  induction d; cbn [NilEmpty.string_of_uint append]; [reflexivity|..];
    cbn [Py.remove_char]; rewrite IHd;
    destruct Hc as [-> | ->]; reflexivity.
Qed.

Lemma append_empty (s : string) : s ++ EmptyString = s.
Proof. induction s as [|a s IH]; simpl; [reflexivity|now rewrite IH]. Qed.

Lemma strip_line_ends_digits d :
  Py.strip_line_ends (ds d ++ Sim.crlf) = ds d.
Proof.
  unfold Py.strip_line_ends.
  rewrite !remove_line_end_digits by auto.
  change (Py.remove_char Py.LF (Py.remove_char Py.CR Sim.crlf))
    with EmptyString.
  apply append_empty.
Qed.

(** The text [format_d] prints: digits, after a minus sign for a negative
    number. *)
Lemma format_d_text (n : Z) :
  exists d, d <> Decimal.Nil
    /\ ((Py.format_d n = ds d /\ Z.of_uint d = n)
        \/ (Py.format_d n = String "-" (ds d) /\ (- Z.of_uint d = n)%Z)).
Proof.
  unfold Py.format_d. destruct n as [|p|p]; cbn [Z.to_int].
  - exists (Decimal.D0 Decimal.Nil). split; [discriminate|]. left. now split.
  - exists (Pos.to_uint p).
    pose proof (DecimalPos.Unsigned.to_uint_nonnil p) as Hnn.
    split; [assumption|]. left. split.
    + cbn [NilZero.string_of_int]. unfold NilZero.string_of_uint.
      destruct (Pos.to_uint p); [contradiction|reflexivity..].
    + unfold Z.of_uint. now rewrite DecimalPos.Unsigned.of_to.
  - exists (Pos.to_uint p).
    pose proof (DecimalPos.Unsigned.to_uint_nonnil p) as Hnn.
    split; [assumption|]. right. split.
    + cbn [NilZero.string_of_int]. unfold NilZero.string_of_uint.
      destruct (Pos.to_uint p); [contradiction|reflexivity..].
    + unfold Z.of_uint. now rewrite DecimalPos.Unsigned.of_to.
Qed.

Lemma int_of_str_format (n : Z) suf :
  suf = EmptyString \/ suf = Py.newline \/ suf = Sim.crlf ->
  Py.int_of_str (Py.format_d n ++ suf) = Some n.
Proof.
  intros Hsuf. destruct (format_d_text n) as (d & Hd & [[-> <-]|[-> <-]]).
  - now apply int_of_digits.
  - cbn [append]. now apply int_of_minus_digits.
Qed.

Lemma strip_line_ends_format (n : Z) :
  Py.strip_line_ends (Py.format_d n ++ Sim.crlf) = Py.format_d n.
Proof.
  destruct (format_d_text n) as (d & Hd & [[-> _]|[-> _]]).
  - apply strip_line_ends_digits.
  - cbn [append]. unfold Py.strip_line_ends. cbn [Py.remove_char].
    cbn. f_equal. apply strip_line_ends_digits.
Qed.

End DecimalText.

(** ** The simulated controller echoes the velocity *)

Lemma sim_exec_SV arg n w :
  Py.int_of_str arg = Some n ->
  Sim.execute (String "1" (String "S" (String "V" arg))) w
  = Sim.mk (Sim.now w) (Sim.dead w) (Sim.wfail w) (Sim.inbox w)
      (dict_set (Sim.velocity w) "1" n) (Sim.position w) (Sim.status w).
Proof. intros Harg. unfold Sim.execute. rewrite Harg. reflexivity. Qed.

Lemma sim_send_SV fuel raw :
  _write_xyz example_cfg (S fuel) "x" ("SV" ++ Py.format_d raw)
    (Sim.boot Sim.idle)
  = (Ret 0, sim_after_set raw).
Proof.
  unfold _write_xyz, try_except.
  change (getitem (get_constraints example_cfg) "x")
    with (ret (W := Sim.t) (example_axis "x" "1")).
  rewrite bind_ret_l. unfold bind at 1, write.
  change (serial_write
            (ID (example_axis "x" "1") ++ ("SV" ++ Py.format_d raw)
             ++ Py.newline)
            (world (Sim.boot Sim.idle)))
    with (@None exn,
          Sim.execute
            (String "1" (String "S" (String "V"
               (Py.format_d raw ++ Py.newline)))) Sim.idle).
  rewrite (sim_exec_SV _ raw) by (apply int_of_str_format; auto).
  reflexivity.
Qed.

Lemma sim_set_velocity fuel v :
  Py.overflows (v * scale_up) = false ->
  set_velocity example_cfg (S fuel) [("x", v)] (Sim.boot Sim.idle)
  = (Ret (Mapping [("x", v)]),
     sim_after_set (Py.int_of_float (Py.fmul v scale_up))).
Proof.
  intros Hfin. unfold set_velocity, try_except. cbn [dict_keys map fst].
  unfold bind at 1. rewrite set_velocity_axes_single by assumption.
  unfold bind. now rewrite sim_send_SV.
Qed.

Lemma sim_ask_TY raw :
  _ask_xyz example_cfg "x" "TY" 3 (sim_after_set raw)
  = (Ret ("1TY:" ++ Py.format_d raw),
     snd (_ask_xyz example_cfg "x" "TY" 3 (sim_after_set raw))).
Proof.
  transitivity
    (Ret (A := string)
       ("1TY:" ++ Py.strip_line_ends (Py.format_d raw ++ Sim.crlf)),
     snd (_ask_xyz example_cfg "x" "TY" 3 (sim_after_set raw))).
  - reflexivity.
  - now rewrite strip_line_ends_format.
Qed.

(** C7 (amended). [get_pos] and [get_velocity] return the float product
    of the raw integer of the reply, converted to a float, and the float
    [1e-7]; [set_velocity] sends [SV] with the truncation of the float
    product [v * 1e7], and answers [-1] without sending anything when that
    product is not finite.  Hence, for a velocity [v] of magnitude at most
    [1e300], setting [v] and reading it back from a device that answers
    with the raw integer it was sent gives a value [v'] with
    [|v' - v| < 1e-7 + (|v| + 1e-7) * 2^-50]: one raw unit from the
    truncation, and the rounding of the float operations on top.  The
    simulated controller is such a device. *)
Theorem raw_units_scale_by_ten_million :
  (forall (W : Type) (E : Env W) cfg axis (st st' : St W) r s raw,
     _ask_xyz cfg axis "TT" 3 st = (Ret r, st') ->
     Py.after_colon r = Some s ->
     Py.int_of_str s = Some raw ->
     Py.overflows (inject_Z raw) = false ->
     get_pos cfg (PList [axis]) st
     = (Ret (Mapping [(axis,
                       Py.fmul (Py.round64 (inject_Z raw))
                         (Py.literal (1 # 10000000)))]), st'))
  /\ (forall (W : Type) (E : Env W) cfg axis (st st' : St W) r s raw,
        _ask_xyz cfg axis "TY" 3 st = (Ret r, st') ->
        Py.after_colon r = Some s ->
        Py.int_of_str s = Some raw ->
        Py.overflows (inject_Z raw) = false ->
        get_velocity cfg (PList [axis]) st
        = (Ret (Mapping [(axis,
                          Py.fmul (Py.round64 (inject_Z raw))
                            (Py.literal (1 # 10000000)))]), st'))
  /\ (forall (W : Type) (E : Env W) cfg fuel axis ax v (st : St W),
        dict_get (get_constraints cfg) axis = Some ax ->
        Py.overflows (v * (10000000 # 1)) = false ->
        let r := set_velocity cfg fuel [(axis, v)] st in
        (fst r = Ret (Mapping [(axis, v)]) \/ fst r = Diverge)
        /\ exists (w : option exn) (rest : list io_event),
             trace (snd r)
             = (trace st
                  ++ EvWrite
                       (ID ax
                        ++ ("SV" ++ Py.format_d
                                      (Py.int_of_float
                                         (Py.fmul v (10000000 # 1))))
                        ++ Py.newline)%string w :: rest)%list)
  /\ (forall (W : Type) (E : Env W) cfg fuel axis v (st : St W),
        Py.overflows (v * (10000000 # 1)) = true ->
        set_velocity cfg fuel [(axis, v)] st
        = (Ret (Sentinel (-1)),
           logged (mkLog ERROR "Could not set axis velocity" []) st))
  /\ (forall (W : Type) (E : Env W) cfg fuel axis v (st st1 st2 : St W) a r s,
        (Qabs v <= inject_Z (10 ^ 300))%Q ->
        set_velocity cfg fuel [(axis, v)] st = (Ret a, st1) ->
        _ask_xyz cfg axis "TY" 3 st1 = (Ret r, st2) ->
        Py.after_colon r = Some s ->
        Py.int_of_str s
        = Some (Py.int_of_float (Py.fmul v (10000000 # 1))) ->
        exists v',
          bind (set_velocity cfg fuel [(axis, v)])
            (fun _ => get_velocity cfg (PList [axis])) st
          = (Ret (Mapping [(axis, v')]), st2)
          /\ (Qabs (v' - v)
              < (1 # 10000000)
                + (Qabs v + (1 # 10000000)) * (1 # 2 ^ 50))%Q)
  /\ (forall fuel v,
        (Qabs v <= inject_Z (10 ^ 300))%Q ->
        exists v' st',
          bind (set_velocity example_cfg (S fuel) [("x", v)])
            (fun _ => get_velocity example_cfg (PList ["x"]))
            (Sim.boot Sim.idle)
          = (Ret (Mapping [("x", v')]), st')
          /\ (Qabs (v' - v)
              < (1 # 10000000)
                + (Qabs v + (1 # 10000000)) * (1 # 2 ^ 50))%Q).
Proof.
  split; [|split; [|split; [|split; [|split]]]].
  - intros W E cfg axis st st' r s raw. apply get_pos_value.
  - intros W E cfg axis st st' r s raw. apply get_velocity_value.
  - intros W E cfg fuel axis ax v st Hax Hfin r. subst r.
    destruct (set_velocity cfg fuel [(axis, v)] st) as [o st'] eqn:Hrun.
    exact (set_velocity_sends cfg fuel axis ax v st st' o Hax Hfin Hrun).
  - intros W E cfg fuel axis v st. apply set_velocity_overflow.
  - intros W E cfg fuel axis v st st1 st2 a r s.
    apply velocity_round_trip.
  - intros fuel v Hrange.
    destruct (in_range_converts v Hrange) as [Hfin _].
    assert (Hint : Py.int_of_str
                     (Py.format_d (Py.int_of_float (Py.fmul v scale_up)))
                   = Some (Py.int_of_float (Py.fmul v scale_up))).
    { rewrite <- (append_empty (Py.format_d _)).
      apply int_of_str_format. now left. }
    destruct (velocity_round_trip example_cfg (S fuel) "x" v
                (Sim.boot Sim.idle) _ _ _ _ _ Hrange
                (sim_set_velocity fuel v Hfin)
                (sim_ask_TY (Py.int_of_float (Py.fmul v scale_up)))
                eq_refl Hint)
      as (v' & Hrun & Hclose).
    exists v'. eexists. split; [exact Hrun|exact Hclose].
Qed.

Lemma raw_units_scale_by_ten_million_witness :
  exists v' st',
    bind (set_velocity example_cfg 10 [("x", Py.literal (3 # 1000))])
      (fun _ => get_velocity example_cfg (PList ["x"]))
      (Sim.boot Sim.idle)
    = (Ret (Mapping [("x", v')]), st')
    /\ (Qabs (v' - Py.literal (3 # 1000))
        < (1 # 10000000)
          + (Qabs (Py.literal (3 # 1000)) + (1 # 10000000))
            * (1 # 2 ^ 50))%Q.
Proof.
  apply (proj2 (proj2 (proj2 (proj2 (proj2
           raw_units_scale_by_ten_million))))
           9%nat (Py.literal (3 # 1000))).
  vm_compute. discriminate.
Defined.

(** C7 as stated fails: the float products are rounded, so the value read
    back is not within one raw unit of the velocity that was set.  For the
    velocity [4.56e-05] the product with [1e7] is the float just below
    [456], [SV455] is sent, and the value read back differs from the
    velocity by more than [1e-7]; likewise the position returned for the
    raw reply [500000], the float product [500000 * 1e-7], is not the
    float [0.05]. *)
Lemma velocity_read_back_is_off_by_more_than_a_raw_unit :
  let v := Py.literal (456 # 10000000) in
  let run :=
    bind (set_velocity example_cfg 10 [("x", v)])
      (fun _ => get_velocity example_cfg (PList ["x"]))
      (Sim.boot Sim.idle) in
  exists v',
    fst run = Ret (Mapping [("x", v')])
    /\ writes (trace (snd run)) = lines ["1SV455"; "1TY"]
    /\ (1 # 10000000 < Qabs (v' - v))%Q
    /\ Py.fmul (Py.round64 (inject_Z 500000)) scale_down
       <> Py.literal (5 # 100).
Proof.
  intros v run. eexists.
  split; [vm_compute; reflexivity|].
  split; [vm_compute; reflexivity|].
  split; [vm_compute; reflexivity|vm_compute; discriminate].
Qed.

(** ** The polling loops end *)

Section Clock.
Context {W : Type} `{Ticking W}.
Variable cfg : Config.

Lemma steady_ret {A} (a : A) : steady (ret (W := W) a).
Proof. intros st. apply Qle_refl. Qed.

Lemma steady_raise {A} e : steady (raise (W := W) (A := A) e).
Proof. intros st. apply Qle_refl. Qed.

Lemma steady_bind {A B} (m : M W A) (k : A -> M W B) :
  steady m -> (forall a, steady (k a)) -> steady (bind m k).
Proof.
  intros Hm Hk st. unfold bind. specialize (Hm st).
  destruct (m st) as [[a|e|] st1]; cbn [snd] in *; try assumption.
  eapply Qle_trans; [exact Hm|apply Hk].
Qed.

Lemma steady_try_except_Exception {A} (m : M W A) (h : exn -> M W A) :
  steady m -> (forall e, steady (h e)) -> steady (try_except_Exception m h).
Proof.
  intros Hm Hh st. unfold try_except_Exception. specialize (Hm st).
  destruct (m st) as [[a|e|] st1]; cbn [snd] in *; try assumption.
  destruct (is_Exception e); cbn [snd]; [|assumption].
  eapply Qle_trans; [exact Hm|apply Hh].
Qed.

Lemma steady_write cmd : steady (write cmd).
Proof.
  intros st. unfold write. pose proof (write_later cmd (world st)) as Hw.
  destruct (serial_write cmd (world st)) as [[e|] w1]; exact Hw.
Qed.

Lemma steady_read : steady read.
Proof.
  intros st. unfold read. pose proof (read_later (world st)) as Hr.
  destruct (serial_read (world st)) as [[e|c] w1]; exact Hr.
Qed.

Lemma steady_log l m a : steady (log_call (W := W) l m a).
Proof. intros st. apply Qle_refl. Qed.

Lemma steady_getitem {V} (d : dict V) k : steady (getitem (W := W) d k).
Proof.
  intros st. unfold getitem. destruct (dict_get d k); apply Qle_refl.
Qed.

Lemma steady_int s : steady (int_ (W := W) s).
Proof.
  intros st. unfold int_. destruct (Py.int_of_str s); apply Qle_refl.
Qed.

Lemma steady_int_of_product x y : steady (int_of_product (W := W) x y).
Proof.
  intros st. unfold int_of_product.
  destruct (Py.overflows (x * y)); apply Qle_refl.
Qed.

Hint Resolve steady_ret steady_raise steady_write steady_read steady_log
  steady_getitem steady_int steady_int_of_product : driver.
Hint Resolve terminates_ret terminates_raise terminates_write
  terminates_read terminates_clock terminates_sleep terminates_emit
  terminates_log terminates_getitem terminates_int terminates_split
  terminates_int_of_product terminates_int_times_float
  : driver.

Lemma steady_read_chunks n s : steady (read_chunks n s).
Proof.
  revert s. induction n as [|n IH]; intros s; cbn [read_chunks];
    auto with driver.
  apply steady_bind; auto with driver.
Qed.

Lemma steady_ask axis q n : steady (_ask_xyz cfg axis q n).
Proof.
  unfold _ask_xyz. apply steady_bind; [auto with driver|intros ax].
  apply steady_bind; [auto with driver|intros _]. apply steady_read_chunks.
Qed.

Lemma steady_in_movement_loop constraints axes :
  forall tmp0 d, steady (_in_movement_loop cfg constraints axes tmp0 d).
Proof.
  induction axes as [|a rest IH]; intros tmp0 d; cbn [_in_movement_loop];
    auto with driver.
  apply steady_bind.
  - apply steady_try_except_Exception.
    + apply steady_bind; [auto with driver|intros ax].
      apply steady_bind; [apply steady_ask|intros r].
      apply steady_bind; auto with driver.
    + intros e. apply steady_bind; auto with driver.
  - intros [v|]; auto with driver.
Qed.

Lemma steady_motor_stopped_loop pd axes :
  forall b, steady (_motor_stopped_loop (W := W) pd axes b).
Proof.
  induction axes as [|a rest IH]; intros b; cbn [_motor_stopped_loop];
    auto with driver.
  apply steady_bind; [auto with driver|intros v].
  destruct (negb (v =? 0)); [|apply IH].
  apply steady_bind; auto with driver.
Qed.

Lemma steady_motor_stopped : steady (_motor_stopped cfg).
Proof.
  unfold _motor_stopped, _in_movement_xyz.
  apply steady_bind; [apply steady_in_movement_loop|intros pd].
  apply steady_motor_stopped_loop.
Qed.

Lemma terminates_in_movement_loop constraints axes :
  forall tmp0 d, terminates (_in_movement_loop cfg constraints axes tmp0 d).
Proof.
  induction axes as [|a rest IH]; intros tmp0 d; cbn [_in_movement_loop];
    auto with driver.
  apply terminates_bind.
  - apply terminates_try_except_Exception.
    + apply terminates_bind; [auto with driver|intros ax].
      apply terminates_bind; [apply ask_terminates|intros r].
      apply terminates_bind; auto with driver.
    + intros e. apply terminates_bind; auto with driver.
  - intros [v|]; auto with driver.
Qed.

Lemma terminates_motor_stopped_loop pd axes :
  forall b, terminates (_motor_stopped_loop (W := W) pd axes b).
Proof.
  induction axes as [|a rest IH]; intros b; cbn [_motor_stopped_loop];
    auto with driver.
  apply terminates_bind; [auto with driver|intros v].
  destruct (negb (v =? 0)); [|apply IH].
  apply terminates_bind; auto with driver.
Qed.

Lemma terminates_motor_stopped : terminates (_motor_stopped cfg).
Proof.
  unfold _motor_stopped, _in_movement_xyz.
  apply terminates_bind; [apply terminates_in_movement_loop|intros pd].
  apply terminates_motor_stopped_loop.
Qed.

Lemma not_timed_out_test (T t : Q) :
  (0 <= T)%Q ->
  (Qle_bool 0 T && Py.Qlt_bool T t)%bool = false -> (t <= T)%Q.
Proof.
  intros Hpos Htest. apply andb_false_iff in Htest.
  destruct Htest as [Hneg|Hlt].
  - apply Qle_bool_iff in Hpos. congruence.
  - unfold Py.Qlt_bool in Hlt. apply negb_false_iff in Hlt.
    now apply Qle_bool_iff.
Qed.

Lemma timed_out_when_late (T t : Q) :
  (0 <= T)%Q -> (T < t)%Q ->
  (Qle_bool 0 T && Py.Qlt_bool T t)%bool = true.
Proof.
  intros Hpos Hlate. apply andb_true_iff. split.
  - now apply Qle_bool_iff.
  - unfold Py.Qlt_bool. apply negb_true_iff, not_true_is_false.
    rewrite Qle_bool_iff. lra.
Qed.

Lemma rounds_succ (f : nat) :
  (inject_Z (Z.of_nat (S f)) == inject_Z (Z.of_nat f) + 1)%Q.
Proof.
  rewrite Nat2Z.inj_succ. unfold Z.succ. rewrite inject_Z_plus. reflexivity.
Qed.

(** Each round of the read loop reads the clock once, so the loop is over
    after as many rounds as ticks fit before the time limit. *)
Lemma read_answer_loop_ends (T t0 : Q) :
  (0 <= T)%Q ->
  forall f ans (st : St W),
    (T + t0 - time_of (world st) < inject_Z (Z.of_nat f) * tick)%Q ->
    fst (_read_answer_loop (S f) T t0 ans st) <> Diverge.
Proof.
  intros Hpos. pose proof tick_pos as Htick.
  induction f as [|f IH]; intros ans st Hleft;
    cbn [_read_answer_loop]; unfold bind, time_perf_counter;
    pose proof (reading_lo (world st)) as Hlo;
    pose proof (reading_ticks (world st)) as Hticks;
    destruct (perf_counter (world st)) as [now w1]; cbn [fst snd] in *.
  - rewrite timed_out_when_late; [discriminate|assumption|].
    change (inject_Z (Z.of_nat 0)) with 0%Q in Hleft. lra.
  - destruct (Qle_bool 0 T && Py.Qlt_bool T (now - t0))%bool eqn:Htest;
      [discriminate|].
    apply (not_timed_out_test _ _ Hpos) in Htest.
    unfold read. cbn [world log trace].
    pose proof (read_later w1) as Hread.
    destruct (serial_read w1) as [[e|c] w2]; cbn [fst snd] in *;
      [discriminate|].
    apply IH. cbn [world]. rewrite rounds_succ in Hleft. lra.
Qed.

Lemma read_answer_ends fuel :
  (0 <= _pi_xyz_timeout cfg)%Q -> enough_fuel cfg fuel ->
  terminates (_read_answer_xyz cfg fuel).
Proof.
  intros Hpos Hfuel st. unfold enough_fuel in Hfuel.
  pose proof tick_pos as Htick.
  assert (HT : (0 <= _pi_xyz_timeout cfg / 1000)%Q).
  { unfold Qdiv. apply Qmult_le_0_compat; [assumption|discriminate]. }
  destruct fuel as [|f].
  - exfalso. change (inject_Z (Z.of_nat 0 - 1)) with (-1 # 1)%Q in Hfuel.
    lra.
  - replace (Z.of_nat (S f) - 1)%Z with (Z.of_nat f) in Hfuel by lia.
    unfold _read_answer_xyz, bind at 1, time_perf_counter.
    pose proof (reading_hi (world st)) as Hhi.
    destruct (perf_counter (world st)) as [t_start w1]; cbn [fst snd] in *.
    unfold bind.
    pose proof (read_answer_loop_ends (_pi_xyz_timeout cfg / 1000) t_start
                  HT f "" (mkSt w1 (log st) (trace st))) as Hloop.
    cbn [world] in Hloop.
    destruct (_read_answer_loop (S f) (_pi_xyz_timeout cfg / 1000) t_start ""
                (mkSt w1 (log st) (trace st))) as [[[a [t|]]|e|] st2];
      cbn [fst] in *; try discriminate.
    exfalso. apply Hloop; [lra|reflexivity].
Qed.

Lemma wait_loop_ends (condition : M W bool) (dt T t0 : Q) :
  (0 <= T)%Q -> terminates condition -> steady condition ->
  forall f (st : St W),
    (T + t0 - time_of (world st) < inject_Z (Z.of_nat f) * tick)%Q ->
    fst (wait_loop (S f) condition dt T t0 st) <> Diverge.
Proof.
  intros Hpos Hterm Hsteady. pose proof tick_pos as Htick.
  induction f as [|f IH]; intros st Hleft;
    cbn [wait_loop]; unfold bind at 1;
    specialize (Hterm st); specialize (Hsteady st);
    destruct (condition st) as [[[|]|e|] st1]; cbn [fst snd] in *;
    try discriminate; try congruence;
    unfold bind at 1, time_perf_counter;
    pose proof (reading_lo (world st1)) as Hlo;
    pose proof (reading_ticks (world st1)) as Hticks;
    destruct (perf_counter (world st1)) as [now w2]; cbn [fst snd] in *.
  - rewrite timed_out_when_late; [discriminate|assumption|].
    change (inject_Z (Z.of_nat 0)) with 0%Q in Hleft. lra.
  - destruct (Qle_bool 0 T && Py.Qlt_bool T (now - t0))%bool eqn:Htest;
      [discriminate|].
    apply (not_timed_out_test _ _ Hpos) in Htest.
    unfold bind, time_sleep. cbn [world log trace].
    pose proof (sleep_later dt w2) as Hsleep.
    apply IH. cbn [world]. rewrite rounds_succ in Hleft. lra.
Qed.

Lemma wait_on_condition_ends fuel name (condition : M W bool) dt :
  (0 <= _pi_xyz_timeout cfg)%Q -> enough_fuel cfg fuel ->
  terminates condition -> steady condition ->
  terminates (wait_on_condition fuel name condition dt
                (_pi_xyz_timeout cfg / 1000)).
Proof.
  intros Hpos Hfuel Hterm Hsteady st. unfold enough_fuel in Hfuel.
  pose proof tick_pos as Htick.
  assert (HT : (0 <= _pi_xyz_timeout cfg / 1000)%Q).
  { unfold Qdiv. apply Qmult_le_0_compat; [assumption|discriminate]. }
  destruct fuel as [|f].
  - exfalso. change (inject_Z (Z.of_nat 0 - 1)) with (-1 # 1)%Q in Hfuel.
    lra.
  - replace (Z.of_nat (S f) - 1)%Z with (Z.of_nat f) in Hfuel by lia.
    unfold wait_on_condition, bind at 1, time_perf_counter.
    pose proof (reading_hi (world st)) as Hhi.
    destruct (perf_counter (world st)) as [t_start w1]; cbn [fst snd] in *.
    unfold bind.
    pose proof (wait_loop_ends condition dt (_pi_xyz_timeout cfg / 1000)
                  t_start HT Hterm Hsteady f
                  (mkSt w1 (log st) (trace st))) as Hloop.
    cbn [world] in Hloop.
    destruct (wait_loop (S f) condition dt (_pi_xyz_timeout cfg / 1000)
                t_start (mkSt w1 (log st) (trace st))) as [[[t|]|e|] st2];
      cbn [fst] in *; try discriminate.
    exfalso. apply Hloop; [lra|reflexivity].
Qed.

Section EnoughFuel.
Variable fuel : nat.
Hypothesis timeout_not_negative : (0 <= _pi_xyz_timeout cfg)%Q.
Hypothesis fuel_outlasts_timeout : enough_fuel cfg fuel.

Lemma write_xyz_ends axis command :
  terminates (_write_xyz cfg fuel axis command).
Proof.
  unfold _write_xyz. apply terminates_try_except.
  - apply terminates_bind; [auto with driver|intros ax].
    apply terminates_bind; [auto with driver|intros _].
    apply terminates_bind; [|auto with driver].
    now apply read_answer_ends.
  - intros e. apply terminates_bind; auto with driver.
Qed.

Lemma do_move_abs_ends axis move :
  terminates (_do_move_abs cfg fuel axis move).
Proof.
  unfold _do_move_abs. apply terminates_bind; [auto with driver|intros ax].
  destruct (negb _); [apply terminates_bind; auto with driver|].
  apply terminates_bind; [auto with driver|intros raw].
  apply terminates_bind; auto using write_xyz_ends with driver.
Qed.

Lemma get_pos_ends pl : terminates (get_pos cfg pl).
Proof.
  intros st. destruct (get_pos_returns cfg pl st) as (d & st' & -> & _).
  discriminate.
Qed.

Lemma do_move_rel_ends axis step :
  terminates (_do_move_rel cfg fuel axis step).
Proof.
  unfold _do_move_rel. apply terminates_bind; [auto with driver|intros ax].
  destruct (negb _).
  - apply terminates_bind; auto with driver.
  - apply terminates_bind; [apply get_pos_ends|intros p].
    apply terminates_bind.
    + unfold subscript. destruct p; auto with driver.
    + intros cur. apply terminates_bind; auto using do_move_abs_ends
        with driver.
Qed.

Lemma move_rel_batch_ends axes pd :
  terminates (move_rel_batch cfg fuel axes pd).
Proof.
  induction axes as [|a rest IH]; cbn [move_rel_batch]; auto with driver.
  apply terminates_bind; [auto with driver|intros step].
  apply terminates_bind; [apply do_move_rel_ends|intros _]. exact IH.
Qed.

Lemma move_abs_batch_ends axes pd :
  terminates (move_abs_batch cfg fuel axes pd).
Proof.
  induction axes as [|a rest IH]; cbn [move_abs_batch]; auto with driver.
  apply terminates_bind; [auto with driver|intros move].
  apply terminates_bind; [apply do_move_abs_ends|intros _]. exact IH.
Qed.

Lemma attempt_ends b pd : terminates (attempt_of cfg fuel b pd).
Proof.
  destruct b; cbn [attempt_of].
  - apply move_rel_batch_ends.
  - unfold move_abs_attempt.
    apply terminates_bind; [apply move_abs_batch_ends|intros _].
    apply wait_on_condition_ends; auto using terminates_motor_stopped,
      steady_motor_stopped.
Qed.

Lemma run_batched_returns b pd (st : St W) :
  fst (run_batched cfg fuel b pd st) = Ret pd.
Proof.
  destruct (run_batched_outcome cfg fuel b pd st) as [Hret|Hdiv];
    [assumption|].
  exfalso. revert Hdiv. rewrite run_batched_eq.
  apply terminates_bind; [|auto with driver].
  apply attempts_terminates, attempt_ends.
Qed.

End EnoughFuel.

End Clock.

(** ** C9: what the two moves return *)

(** C9. [move_rel] and [move_abs] return the mapping they were given, in
    every state: when an attempt succeeds and when all three have failed
    alike.  With a clock that advances, a channel time limit that is not
    negative and fuel that outlasts it, the call always comes back, and
    what it returns is the request; with any fuel and any collaborators the
    only other outcome is that the fuel runs out.  No exception and no
    other value ever leaves these two operations. *)
Theorem moves_always_return_the_request
    {W : Type} `{Ticking W} (cfg : Config) (fuel : nat) (b : batched)
    (param_dict : dict Q) (st : St W) :
  (0 <= _pi_xyz_timeout cfg)%Q ->
  enough_fuel cfg fuel ->
  fst (run_batched cfg fuel b param_dict st) = Ret param_dict
  /\ forall fuel',
       fst (run_batched cfg fuel' b param_dict st) = Ret param_dict
       \/ fst (run_batched cfg fuel' b param_dict st) = Diverge.
Proof.
  intros Hpos Hfuel. split.
  - now apply run_batched_returns.
  - intros fuel'. apply run_batched_outcome.
Qed.

Lemma moves_always_return_the_request_witness :
  fst (run_batched example_cfg 1002 MoveRel [("x", 0 # 1); ("y", 1 # 100)]
         (Sim.boot Sim.idle))
  = Ret [("x", 0 # 1); ("y", 1 # 100)]
  /\ fst (run_batched example_cfg 1002 MoveAbs [("x", 5 # 100)]
            (Sim.boot (Sim.flaky 99)))
     = Ret [("x", 5 # 100)].
Proof.
  assert (Hpos : (0 <= _pi_xyz_timeout example_cfg)%Q)
    by (vm_compute; discriminate).
  assert (Hfuel : enough_fuel example_cfg 1002)
    by (vm_compute; reflexivity).
  split.
  - apply (moves_always_return_the_request example_cfg 1002 MoveRel);
      assumption.
  - apply (moves_always_return_the_request example_cfg 1002 MoveAbs);
      assumption.
Defined.

(** ** Scenarios on the simulated controller *)

(** The scenario of the interface description: an absolute move of ["x"]
    to [0.05] sends [1MA500000]; the position query that follows reads the
    raw [500000] back and returns the float product [500000 * 1e-7], which
    is the float just below [0.05]. *)
Example absolute_move_then_position :
  let st := snd (move_abs example_cfg 10 [("x", Py.literal (5 # 100))]
                   (Sim.boot Sim.idle)) in
  hd_error (writes (trace st)) = Some ("1MA500000" ++ Py.newline)
  /\ fst (get_pos example_cfg (PList ["x"]) st)
     = Ret (Mapping [("x", Py.fmul (inject_Z 500000) scale_down)])
  /\ (Py.fmul (inject_Z 500000) scale_down < Py.literal (5 # 100))%Q.
Proof.
  intros st. split; [|split]; vm_compute; reflexivity.
Qed.

(** A relative move of a one-character axis goes through: the position is
    queried once and the absolute move is sent. *)
Example relative_move_of_one_axis :
  let r := move_rel example_cfg 10 [("x", Py.literal (1 # 100))]
             (Sim.boot Sim.idle) in
  fst r = Ret [("x", Py.literal (1 # 100))]
  /\ log (snd r) = []
  /\ writes (trace (snd r)) = lines ["1TT"; "1MA100000"].
Proof.
  intros r. split; [|split]; vm_compute; reflexivity.
Qed.

(** When the axis with the too small step comes second, the axis before it
    is moved again in each of the three attempts. *)
Example sibling_before_a_small_step_moves_three_times :
  let r := move_rel example_cfg 10 [("y", Py.literal (1 # 100)); ("x", 0%Q)]
             (Sim.boot Sim.idle) in
  fst r = Ret [("y", Py.literal (1 # 100)); ("x", 0%Q)]
  /\ writes (trace (snd r))
     = lines ["2TT"; "2MA100000"; "2TT"; "2MA200000"; "2TT"; "2MA300000"]
  /\ last (log (snd r)) retry_warning = cannot_move_error.
Proof.
  intros r. split; [|split]; vm_compute; reflexivity.
Qed.

(** * Further properties of the driver *)

(** ** The constraints table *)

(** X1. The table [get_constraints] builds has no key twice, files every
    entry under its own label and has a key for the label of each of the
    three configured axes; when the three labels differ it lists the three
    axes in the order first, second, third. *)
Theorem get_constraints_is_keyed_by_label (cfg : Config) :
  NoDup (dict_keys (get_constraints cfg))
  /\ (forall k ax, dict_get (get_constraints cfg) k = Some ax -> label ax = k)
  /\ (forall a, In a [first_axis cfg; second_axis cfg; third_axis cfg] ->
                In (label a) (dict_keys (get_constraints cfg)))
  /\ (label (first_axis cfg) <> label (second_axis cfg) ->
      label (first_axis cfg) <> label (third_axis cfg) ->
      label (second_axis cfg) <> label (third_axis cfg) ->
      get_constraints cfg
      = [(label (first_axis cfg), first_axis cfg);
         (label (second_axis cfg), second_axis cfg);
         (label (third_axis cfg), third_axis cfg)]).
Proof.
  split; [apply constraints_nodup|]. split; [|split].
  - intros k ax Hget.
    pose proof (constraints_labelled cfg) as Hl. unfold labelled in Hl.
    rewrite Forall_forall in Hl.
    exact (Hl (k, ax) (dict_get_In _ _ _ Hget)).
  - intros a Hin. unfold get_constraints. cbn [dict_set].
    destruct (String.eqb_spec (label (first_axis cfg))
                (label (second_axis cfg))) as [E12|N12];
      cbn [dict_set];
      destruct (String.eqb_spec (label (first_axis cfg))
                  (label (third_axis cfg))) as [E13|N13];
      cbn [dict_set];
      try destruct (String.eqb_spec (label (second_axis cfg))
                      (label (third_axis cfg))) as [E23|N23];
      cbn [dict_keys map fst];
      destruct Hin as [<-|[<-|[<-|[]]]]; cbn [In]; try tauto;
      try (rewrite <- E12; tauto); try (rewrite <- E13; tauto);
      try (rewrite <- E23; tauto).
  - intros N12 N13 N23. unfold get_constraints. cbn [dict_set].
    apply String.eqb_neq in N12, N13, N23.
    rewrite N12. cbn [dict_set]. now rewrite N13, N23.
Qed.

Lemma get_constraints_is_keyed_by_label_witness :
  get_constraints example_cfg
  = [("x", example_axis "x" "1"); ("y", example_axis "y" "2");
     ("z", example_axis "z" "3")].
Proof.
  apply (proj2 (proj2 (proj2 (get_constraints_is_keyed_by_label example_cfg))));
    discriminate.
Defined.

(** X2. When axes share a label, the axis configured last takes the entry:
    the label of the third axis always leads to the third axis, the label
    of the second to the second unless the third has the same label, and
    the label of the first to the last axis that carries it.  An axis whose
    label is taken by a later one cannot be addressed. *)
Theorem get_constraints_last_label_wins (cfg : Config) :
  let l1 := label (first_axis cfg) in
  let l2 := label (second_axis cfg) in
  let l3 := label (third_axis cfg) in
  dict_get (get_constraints cfg) l3 = Some (third_axis cfg)
  /\ dict_get (get_constraints cfg) l2
     = Some (if String.eqb l2 l3 then third_axis cfg else second_axis cfg)
  /\ dict_get (get_constraints cfg) l1
     = Some (if String.eqb l1 l3 then third_axis cfg
             else if String.eqb l1 l2 then second_axis cfg
             else first_axis cfg).
Proof.
  cbn zeta. unfold get_constraints. cbn [dict_set].
  destruct (String.eqb_spec (label (first_axis cfg))
              (label (second_axis cfg))) as [E12|N12];
    cbn [dict_set];
    destruct (String.eqb_spec (label (first_axis cfg))
                (label (third_axis cfg))) as [E13|N13];
    cbn [dict_set dict_get];
    try destruct (String.eqb_spec (label (second_axis cfg))
                    (label (third_axis cfg))) as [E23|N23];
    cbn [dict_set dict_get];
    rewrite ?String.eqb_refl;
    repeat match goal with
           | |- context [String.eqb ?a ?b] =>
               destruct (String.eqb_spec a b); try congruence
           end;
    auto.
Qed.

(** ** The send primitive and the absolute move of one axis *)

(** X3. The send primitive never raises: it returns [0] or [-1] (or the
    fuel of its read loop runs out).  For a label that is not configured it
    returns [-1] after logging the [KeyError], without touching the line;
    when the write raises it returns [-1] after logging that exception,
    without reading. *)
Theorem write_xyz_reports_failure_by_code
    {W : Type} `{Env W} (cfg : Config) (fuel : nat) (axis command : string)
    (st : St W) :
  let r := _write_xyz cfg fuel axis command st in
  (fst r = Ret 0 \/ fst r = Ret (-1) \/ fst r = Diverge)
  /\ (dict_get (get_constraints cfg) axis = None ->
      r = (Ret (-1), logged (not_accepted (KeyError axis)) st))
  /\ (forall ax e w',
        dict_get (get_constraints cfg) axis = Some ax ->
        serial_write (ID ax ++ command ++ Py.newline) (world st)
        = (Some e, w') ->
        r = (Ret (-1),
             mkSt w' (log st ++ [not_accepted e])
               (trace st
                  ++ [EvWrite (ID ax ++ command ++ Py.newline) (Some e)]))).
Proof.
  cbn zeta. split; [|split].
  - destruct (dict_get (get_constraints cfg) axis) as [ax|] eqn:Hax.
    + destruct (_write_xyz cfg fuel axis command st) as [o st'] eqn:Hrun.
      destruct (write_xyz_shape cfg fuel axis ax command st st' o Hax Hrun)
        as (w & chunks & tail & _ & Hend).
      cbn [fst]. destruct w as [e|].
      * destruct Hend as (_ & _ & ->). auto.
      * destruct Hend as [(e & _ & -> & _)|[(_ & -> & _)|(_ & ->)]]; auto.
    + unfold _write_xyz, try_except, bind, getitem. rewrite Hax. cbn. auto.
  - intros Hax. unfold _write_xyz, try_except, bind, getitem. rewrite Hax.
    reflexivity.
  - intros ax e w' Hax Hw.
    unfold _write_xyz, try_except, getitem. rewrite Hax, bind_ret_l.
    unfold bind at 1, write. rewrite Hw. reflexivity.
Qed.

Lemma write_xyz_reports_failure_by_code_witness :
  _write_xyz example_cfg 10 "phi" "AB" (Sim.boot Sim.idle)
  = (Ret (-1), mkSt Sim.idle [not_accepted (KeyError "phi")] []).
Proof.
  apply (proj1 (proj2 (write_xyz_reports_failure_by_code example_cfg 10
                          "phi" "AB" (Sim.boot Sim.idle)))).
  reflexivity.
Defined.

(** X4. The absolute move of one axis raises [KeyError] without any effect
    when the label is not configured.  For a configured axis and a target
    within its bounds it is the send of [MA] with the truncation of the
    float product [move * 1e7], and the code that send returns is dropped:
    the move returns [(axis, move)] also when the command was not
    accepted.  When that product is not finite, [int] raises
    [OverflowError] and nothing is sent. *)
Theorem do_move_abs_sends_and_drops_the_code
    {W : Type} `{Env W} (cfg : Config) (fuel : nat) (axis : string)
    (move : Q) (st : St W) :
  (dict_get (get_constraints cfg) axis = None ->
   _do_move_abs cfg fuel axis move st = (Raise (KeyError axis), st))
  /\ (forall ax,
        dict_get (get_constraints cfg) axis = Some ax ->
        (pos_min ax <= move)%Q -> (move <= pos_max ax)%Q ->
        (Py.overflows (move * scale_up) = true ->
         _do_move_abs cfg fuel axis move st = (Raise OverflowError, st))
        /\ (Py.overflows (move * scale_up) = false ->
            let sent :=
              _write_xyz cfg fuel axis
                ("MA" ++ Py.format_d
                           (Py.int_of_float (Py.fmul move scale_up))) st in
            snd (_do_move_abs cfg fuel axis move st) = snd sent
            /\ (fst sent <> Diverge ->
                fst (_do_move_abs cfg fuel axis move st)
                = Ret (axis, move)))).
Proof.
  split.
  - intros Hax. unfold _do_move_abs, bind, getitem. now rewrite Hax.
  - intros ax Hax Hlo Hhi.
    assert (Htest : negb (Qle_bool (pos_min ax) move
                          && Qle_bool move (pos_max ax)) = false).
    { apply negb_false_iff, andb_true_iff. now rewrite !Qle_bool_iff. }
    split; intros Hfin.
    + unfold _do_move_abs, getitem. rewrite Hax, bind_ret_l, Htest.
      unfold bind, int_of_product. now rewrite Hfin.
    + intros sent. subst sent.
      unfold _do_move_abs, getitem. rewrite Hax, bind_ret_l, Htest.
      unfold int_of_product. rewrite Hfin, bind_ret_l. unfold bind.
      assert (Hcode : is_raise
                        (fst (_write_xyz cfg fuel axis
                                ("MA" ++ Py.format_d
                                           (Py.int_of_float
                                              (Py.fmul move scale_up)))
                                st)) = false).
      { unfold _write_xyz, try_except.
        destruct (bind (getitem (get_constraints cfg) axis) _ st)
          as [[a|e|] st1]; reflexivity. }
      destruct (_write_xyz cfg fuel axis _ st) as [[z|e|] st'];
        cbn [fst snd] in *.
      * split; reflexivity.
      * discriminate.
      * split; [reflexivity|]. intros Hd. now contradiction Hd.
Qed.

Lemma do_move_abs_sends_and_drops_the_code_witness :
  fst (_do_move_abs example_cfg 10 "x" (5 # 100) (Sim.boot (Sim.flaky 1)))
  = Ret ("x", 5 # 100)
  /\ log (snd (_do_move_abs example_cfg 10 "x" (5 # 100)
                 (Sim.boot (Sim.flaky 1))))
     = [not_accepted (VisaIOError "write failed")].
Proof.
  assert (Hlo : (pos_min (example_axis "x" "1") <= 5 # 100)%Q)
    by (vm_compute; discriminate).
  assert (Hhi : (5 # 100 <= pos_max (example_axis "x" "1"))%Q)
    by (vm_compute; discriminate).
  destruct (proj2 (proj2 (do_move_abs_sends_and_drops_the_code
                            example_cfg 10 "x" (5 # 100)
                            (Sim.boot (Sim.flaky 1)))
                     (example_axis "x" "1") eq_refl Hlo Hhi) eq_refl)
    as [Hst Hret].
  split.
  - apply Hret. vm_compute. discriminate.
  - rewrite Hst. vm_compute. reflexivity.
Defined.

(** ** Requests that name an axis that is not configured *)

Section UnknownAxis.
Context {W : Type} `{Env W}.
Variable cfg : Config.

Lemma do_move_rel_unknown fuel axis step (st : St W) :
  dict_get (get_constraints cfg) axis = None ->
  _do_move_rel cfg fuel axis step st = (Raise (KeyError axis), st).
Proof.
  intros Hax. unfold _do_move_rel, bind, getitem. now rewrite Hax.
Qed.

Lemma attempt_unknown_first fuel b axis v rest (st : St W) :
  dict_get (get_constraints cfg) axis = None ->
  attempt_of cfg fuel b ((axis, v) :: rest) st = (Raise (KeyError axis), st).
Proof.
  intros Hax. destruct b; cbn [attempt_of].
  - unfold move_rel_attempt. cbn [dict_keys map fst move_rel_batch].
    unfold getitem at 1. cbn [dict_get]. rewrite String.eqb_refl, bind_ret_l.
    unfold bind. now rewrite do_move_rel_unknown.
  - unfold move_abs_attempt. cbn [dict_keys map fst move_abs_batch].
    unfold bind at 1. unfold getitem at 1. cbn [dict_get].
    rewrite String.eqb_refl, bind_ret_l.
    unfold bind, _do_move_abs, getitem. now rewrite Hax.
Qed.

End UnknownAxis.

(** X5. A batched move ([move_rel] or [move_abs]) whose request starts with
    a label that is not configured sends nothing at all: each of the three
    attempts stops at the [KeyError] of that label, the retry warning is
    logged three times and then the error, and the request is returned as
    if it had been carried out.  The axes after that label are never
    commanded, and [move_abs] does not reach its settle poll. *)
Theorem batched_move_of_unknown_axis_sends_nothing
    {W : Type} `{Env W} (cfg : Config) (fuel : nat) (b : batched)
    (axis : string) (v : Q) (rest : dict Q) (st : St W) :
  dict_get (get_constraints cfg) axis = None ->
  run_batched cfg fuel b ((axis, v) :: rest) st
  = (Ret ((axis, v) :: rest),
     mkSt (world st)
       (log st ++ [retry_warning; retry_warning; retry_warning;
                   cannot_move_error])
       (trace st)).
Proof.
  intros Hax. apply run_batched_after.
  pose proof (attempt_unknown_first cfg fuel b axis v rest) as Hbody.
  rewrite attempts_retry by now rewrite Hbody.
  rewrite attempts_retry by now rewrite Hbody.
  rewrite attempts_retry by now rewrite Hbody.
  rewrite attempts_exhausted, !Hbody; auto.
  unfold logged; cbn [snd world log trace].
  repeat rewrite <- app_assoc. reflexivity.
Qed.

Lemma batched_move_of_unknown_axis_sends_nothing_witness :
  run_batched example_cfg 10 MoveAbs [("phi", 1 # 100); ("x", 1 # 100)]
    (Sim.boot Sim.idle)
  = (Ret [("phi", 1 # 100); ("x", 1 # 100)],
     mkSt Sim.idle
       [retry_warning; retry_warning; retry_warning; cannot_move_error] []).
Proof.
  apply (batched_move_of_unknown_axis_sends_nothing example_cfg 10 MoveAbs
           "phi" (1 # 100) [("x", 1 # 100)] (Sim.boot Sim.idle)).
  reflexivity.
Defined.

(** ** Position queries *)

Section Quiet.
Context {W : Type} `{Env W}.
Variable cfg : Config.

Lemma quiet_ret {A} (a : A) : quiet (ret (W := W) a).
Proof. intros st. reflexivity. Qed.

Lemma quiet_raise {A} e : quiet (raise (W := W) (A := A) e).
Proof. intros st. reflexivity. Qed.

Lemma quiet_bind {A B} (m : M W A) (k : A -> M W B) :
  quiet m -> (forall a, quiet (k a)) -> quiet (bind m k).
Proof.
  intros Hm Hk st. unfold bind. specialize (Hm st).
  destruct (m st) as [[a|e|] st1]; cbn [snd] in *; try assumption.
  now rewrite Hk.
Qed.

Lemma quiet_write cmd : quiet (write cmd).
Proof.
  intros st. unfold write.
  destruct (serial_write cmd (world st)) as [[e|] w1]; reflexivity.
Qed.

Lemma quiet_read : quiet read.
Proof.
  intros st. unfold read.
  destruct (serial_read (world st)) as [[e|c] w1]; reflexivity.
Qed.

Lemma quiet_getitem {V} (d : dict V) k : quiet (getitem (W := W) d k).
Proof. intros st. unfold getitem. now destruct (dict_get d k). Qed.

Lemma quiet_int s : quiet (int_ (W := W) s).
Proof. intros st. unfold int_. now destruct (Py.int_of_str s). Qed.

Lemma quiet_int_times_float n y : quiet (int_times_float (W := W) n y).
Proof.
  intros st. unfold int_times_float.
  now destruct (Py.overflows (inject_Z n)).
Qed.

Lemma quiet_split s : quiet (split_colon_1 (W := W) s).
Proof. intros st. unfold split_colon_1. now destruct (Py.after_colon s). Qed.

Hint Resolve quiet_ret quiet_raise quiet_write quiet_read quiet_getitem
  quiet_int quiet_split quiet_int_times_float : driver.

Lemma quiet_read_chunks n s : quiet (read_chunks n s).
Proof.
  revert s. induction n as [|n IH]; intros s; cbn [read_chunks];
    auto with driver.
  apply quiet_bind; auto with driver.
Qed.

Lemma quiet_ask axis q n : quiet (_ask_xyz cfg axis q n).
Proof.
  unfold _ask_xyz. apply quiet_bind; [auto with driver|intros ax].
  apply quiet_bind; [auto with driver|intros _]. apply quiet_read_chunks.
Qed.

Lemma quiet_query_pos axis : quiet (query_pos cfg axis).
Proof.
  unfold query_pos. apply quiet_bind; [apply quiet_ask|intros r].
  apply quiet_bind; [auto with driver|intros v].
  apply quiet_bind; auto with driver.
Qed.

Lemma query_pos_unknown axis (st : St W) :
  dict_get (get_constraints cfg) axis = None ->
  query_pos cfg axis st = (Raise (KeyError axis), st).
Proof.
  intros Hax. unfold query_pos, _ask_xyz, bind, getitem. now rewrite Hax.
Qed.

Lemma get_pos_attempts_unknown axis n d (st : St W) :
  dict_get (get_constraints cfg) axis = None ->
  get_pos_attempts cfg n axis d st = (Ret d, st).
Proof.
  intros Hax. induction n as [|n IH]; cbn [get_pos_attempts];
    [reflexivity|].
  now rewrite query_pos_unknown.
Qed.

(** What one axis adds to the mapping of [get_pos]. *)
Lemma get_pos_attempts_adds n axis d (st : St W) :
  exists d' st',
    get_pos_attempts cfg n axis d st = (Ret d', st')
    /\ log st' = log st
    /\ (NoDup (dict_keys d) -> NoDup (dict_keys d'))
    /\ forall k, In k (dict_keys d') ->
         In k (dict_keys d)
         \/ (k = axis /\ dict_get (get_constraints cfg) axis <> None).
Proof.
  revert st. induction n as [|n IH]; intros st; cbn [get_pos_attempts].
  - exists d, st. auto.
  - pose proof (quiet_query_pos axis st) as Hq.
    pose proof (query_pos_terminates cfg axis st) as Hterm.
    destruct (query_pos cfg axis st) as [[p|e|] st1] eqn:Hrun;
      cbn [fst snd] in *.
    + exists (dict_set d axis p), st1. split; [reflexivity|].
      split; [assumption|]. split; [apply dict_set_nodup|].
      intros k Hin. apply dict_set_keys in Hin.
      destruct Hin as [->|Hin]; [right|now left].
      split; [reflexivity|]. intros Hnone.
      rewrite (query_pos_unknown axis st Hnone) in Hrun. discriminate.
    + destruct (IH st1) as (d' & st' & Hr & Hl & Hk).
      exists d', st'. split; [assumption|]. split; [congruence|assumption].
    + congruence.
Qed.

Lemma get_pos_axes_adds axes : forall d (st : St W),
  exists d' st',
    get_pos_axes cfg axes d st = (Ret d', st')
    /\ log st' = log st
    /\ (NoDup (dict_keys d) -> NoDup (dict_keys d'))
    /\ forall k, In k (dict_keys d') ->
         In k (dict_keys d)
         \/ (In k axes /\ dict_get (get_constraints cfg) k <> None).
Proof.
  induction axes as [|a rest IH]; intros d st; cbn [get_pos_axes].
  - exists d, st. auto.
  - destruct (get_pos_attempts_adds 5 a d st)
      as (d1 & st1 & Hrun & Hl & Hnd & Hk).
    unfold bind. rewrite Hrun.
    destruct (IH d1 st1) as (d2 & st2 & Hrun2 & Hl2 & Hnd2 & Hk2).
    exists d2, st2. split; [assumption|]. split; [congruence|].
    split; [auto|].
    intros k Hin. destruct (Hk2 k Hin) as [Hd1|[Hrest Hcfg]].
    + destruct (Hk k Hd1) as [Hd|[-> Hcfg]]; [now left|right].
      split; [now left|assumption].
    + right. split; [now right|assumption].
Qed.

End Quiet.

(** X6. [get_pos] cannot fail: whatever the transport does, it returns a
    mapping, never its failure code and never an exception, and it logs
    nothing.  The keys of the mapping are distinct labels among those asked
    for, each of a configured axis.  A label that is not configured costs
    five silent [KeyError]s and no traffic: asked for it alone, [get_pos]
    returns the empty mapping and leaves the state as it was. *)
Theorem get_pos_always_returns_a_mapping
    {W : Type} `{Env W} (cfg : Config) (pl : param_list) (st : St W) :
  (exists d st',
     get_pos cfg pl st = (Ret (Mapping d), st')
     /\ log st' = log st
     /\ NoDup (dict_keys d)
     /\ forall k, In k (dict_keys d) ->
          In k (iter_param_list pl (get_constraints cfg))
          /\ dict_get (get_constraints cfg) k <> None)
  /\ (forall axis,
        dict_get (get_constraints cfg) axis = None ->
        get_pos cfg (PList [axis]) st = (Ret (Mapping []), st)).
Proof.
  split.
  - destruct (get_pos_axes_adds cfg
                (iter_param_list pl (get_constraints cfg)) [] st)
      as (d & st' & Hrun & Hl & Hnd & Hk).
    exists d, st'. unfold get_pos, try_except, bind. rewrite Hrun.
    split; [reflexivity|]. split; [assumption|].
    split; [apply Hnd; constructor|].
    intros k Hin. destruct (Hk k Hin) as [[]|Hok]. exact Hok.
  - intros axis Hax. rewrite get_pos_single.
    now rewrite get_pos_attempts_unknown.
Qed.

Lemma get_pos_always_returns_a_mapping_witness :
  get_pos example_cfg (PList ["phi"]) (Sim.boot Sim.idle)
  = (Ret (Mapping []), Sim.boot Sim.idle).
Proof.
  apply (proj2 (get_pos_always_returns_a_mapping example_cfg (PList ["phi"])
                  (Sim.boot Sim.idle))).
  reflexivity.
Defined.

(** ** What the getters write *)

Section GetterTraffic.
Context {W : Type} `{Env W}.
Variable cfg : Config.

Lemma emits_split P s : emits P (split_colon_1 (W := W) s).
Proof.
  apply emits_silent. intros st. unfold split_colon_1.
  now destruct (Py.after_colon s).
Qed.

Hint Resolve emits_ret emits_raise emits_log emits_emit emits_getitem
  emits_int emits_int_of_product emits_int_times_float emits_clock
  emits_sleep emits_read emits_split : driver.

Lemma emits_query (question : string) axis n :
  emits (query_of cfg question) (_ask_xyz cfg axis question n).
Proof.
  apply emits_ask. intros ax Hax. exists axis, ax. auto.
Qed.

Lemma emits_query_pos axis :
  emits (query_of cfg "TT") (query_pos cfg axis).
Proof.
  unfold query_pos. apply emits_bind; [apply emits_query|intros r].
  apply emits_bind; [auto with driver|intros v].
  apply emits_bind; auto with driver.
Qed.

Lemma emits_get_pos_attempts n axis :
  forall d, emits (query_of cfg "TT") (get_pos_attempts cfg n axis d).
Proof.
  induction n as [|n IH]; intros d; cbn [get_pos_attempts];
    [auto with driver|].
  intros st. destruct (emits_query_pos axis st) as (tr & Htr & Hp).
  destruct (query_pos cfg axis st) as [[p|e|] st1]; cbn [snd] in *;
    try (exists tr; now split).
  destruct (IH d st1) as (tr' & Htr' & Hp').
  exists (tr ++ tr')%list. split.
  - now rewrite Htr', Htr, app_assoc.
  - rewrite writes_app. now apply Forall_app.
Qed.

Lemma emits_get_pos_axes axes :
  forall d, emits (query_of cfg "TT") (get_pos_axes cfg axes d).
Proof.
  induction axes as [|a rest IH]; intros d; cbn [get_pos_axes];
    [auto with driver|].
  apply emits_bind; [apply emits_get_pos_attempts|exact IH].
Qed.

Lemma emits_get_pos pl : emits (query_of cfg "TT") (get_pos cfg pl).
Proof.
  unfold get_pos. apply emits_try_except.
  - apply emits_bind; [apply emits_get_pos_axes|auto with driver].
  - intros e. apply emits_bind; auto with driver.
Qed.

Lemma emits_get_velocity_axes axes :
  forall d, emits (query_of cfg "TY") (get_velocity_axes cfg axes d).
Proof.
  induction axes as [|a rest IH]; intros d; cbn [get_velocity_axes];
    [auto with driver|].
  apply emits_bind; [apply emits_query|intros r].
  apply emits_bind; [auto with driver|intros v].
  apply emits_bind; [auto with driver|intros vel].
  apply emits_bind; [auto with driver|intros velocity]. apply IH.
Qed.

Lemma emits_get_velocity pl :
  emits (query_of cfg "TY") (get_velocity cfg pl).
Proof.
  unfold get_velocity. apply emits_try_except.
  - apply emits_bind; [apply emits_get_velocity_axes|auto with driver].
  - intros e. apply emits_bind; auto with driver.
Qed.

Lemma emits_get_status_axes axes :
  forall d, emits (query_of cfg "TS") (get_status_axes cfg axes d).
Proof.
  induction axes as [|a rest IH]; intros d; cbn [get_status_axes];
    [auto with driver|].
  apply emits_bind; [apply emits_query|intros r].
  apply emits_bind; [auto with driver|intros v]. apply IH.
Qed.

Lemma emits_get_status pl : emits (query_of cfg "TS") (get_status cfg pl).
Proof.
  unfold get_status. apply emits_try_except.
  - apply emits_bind; [apply emits_get_status_axes|auto with driver].
  - intros e. apply emits_bind; auto with driver.
Qed.

End GetterTraffic.

(** X7. The getters only ask: every command [get_pos] writes is the
    position query [TT] of a configured axis, every command [get_status]
    writes is a status query [TS], every command [get_velocity] writes is a
    velocity query [TY].  None of them ever sends a command that moves or
    configures the stage. *)
Theorem getters_write_only_their_query
    {W : Type} `{Env W} (cfg : Config) (pl : param_list) (st : St W) :
  (exists tr : list io_event,
     trace (snd (get_pos cfg pl st)) = (trace st ++ tr)%list
     /\ Forall (query_of cfg "TT") (writes tr))
  /\ (exists tr : list io_event,
        trace (snd (get_status cfg pl st)) = (trace st ++ tr)%list
        /\ Forall (query_of cfg "TS") (writes tr))
  /\ (exists tr : list io_event,
        trace (snd (get_velocity cfg pl st)) = (trace st ++ tr)%list
        /\ Forall (query_of cfg "TY") (writes tr)).
Proof.
  split; [apply emits_get_pos|].
  split; [apply emits_get_status|apply emits_get_velocity].
Qed.

(** ** Velocity and status queries are asked once *)

Section OneShot.
Context {W : Type} `{Env W}.
Variable cfg : Config.

Hint Resolve terminates_ret terminates_raise terminates_write
  terminates_read terminates_clock terminates_sleep terminates_emit
  terminates_log terminates_getitem terminates_int terminates_split
  terminates_int_of_product terminates_int_times_float
  : driver.

Lemma get_velocity_axes_terminates axes :
  forall d, terminates (get_velocity_axes cfg axes d).
Proof.
  induction axes as [|a rest IH]; intros d; cbn [get_velocity_axes];
    [auto with driver|].
  apply terminates_bind; [apply ask_terminates|intros r].
  apply terminates_bind; [auto with driver|intros v].
  apply terminates_bind; [auto with driver|intros vel].
  apply terminates_bind; [auto with driver|intros velocity]. apply IH.
Qed.

Lemma get_status_axes_terminates axes :
  forall d, terminates (get_status_axes cfg axes d).
Proof.
  induction axes as [|a rest IH]; intros d; cbn [get_status_axes];
    [auto with driver|].
  apply terminates_bind; [apply ask_terminates|intros r].
  apply terminates_bind; [auto with driver|intros v]. apply IH.
Qed.

(** A failure while the axes are asked turns into the failure code. *)
Lemma get_velocity_fails pl (st st1 : St W) e :
  get_velocity_axes cfg (iter_param_list pl (get_constraints cfg)) [] st
  = (Raise e, st1) ->
  get_velocity cfg pl st
  = (Ret (Sentinel (-1)),
     logged (mkLog ERROR "Could not find current axis velocity" []) st1).
Proof.
  intros Hrun. unfold get_velocity, try_except, bind. now rewrite Hrun.
Qed.

Lemma get_status_fails pl (st st1 : St W) e :
  get_status_axes cfg (iter_param_list pl (get_constraints cfg)) [] st
  = (Raise e, st1) ->
  get_status cfg pl st
  = (Ret (Sentinel (-1)),
     logged (mkLog ERROR "Status request unsuccessful" []) st1).
Proof.
  intros Hrun. unfold get_status, try_except, bind. now rewrite Hrun.
Qed.

End OneShot.

(** X8. [get_velocity] asks each axis once and gives up at the first
    failure: when the query of the first axis asked raises, or its reply has
    no colon, no integer after it or an integer too large for a float, the
    axes after it are not asked and the result is the failure code [-1]
    with one error logged; when a later axis fails, the velocities already
    read are dropped for the same code.  It never raises: the result is a
    mapping or [-1]. *)
Theorem get_velocity_gives_up_at_the_first_failure
    {W : Type} `{Env W} (cfg : Config) (st : St W) :
  let failed (s : St W) :=
    (Ret (Sentinel (V := Q) (-1)),
     logged (mkLog ERROR "Could not find current axis velocity" []) s) in
  (forall axis rest e st1,
     _ask_xyz cfg axis "TY" 3 st = (Raise e, st1) ->
     get_velocity cfg (PList (axis :: rest)) st = failed st1)
  /\ (forall axis rest r st1,
        _ask_xyz cfg axis "TY" 3 st = (Ret r, st1) ->
        (Py.after_colon r = None
         \/ (exists s, Py.after_colon r = Some s /\ Py.int_of_str s = None)
         \/ (exists s raw,
               Py.after_colon r = Some s /\ Py.int_of_str s = Some raw
               /\ Py.overflows (inject_Z raw) = true)) ->
        get_velocity cfg (PList (axis :: rest)) st = failed st1)
  /\ (forall a b r s raw st1 e st2,
        _ask_xyz cfg a "TY" 3 st = (Ret r, st1) ->
        Py.after_colon r = Some s ->
        Py.int_of_str s = Some raw ->
        Py.overflows (inject_Z raw) = false ->
        _ask_xyz cfg b "TY" 3 st1 = (Raise e, st2) ->
        get_velocity cfg (PList [a; b]) st = failed st2)
  /\ (forall pl,
        exists a st',
          get_velocity cfg pl st = (Ret a, st')
          /\ (a = Sentinel (-1) \/ exists d, a = Mapping d)).
Proof.
  cbn zeta. split; [|split; [|split]].
  - intros axis rest e st1 Hask. apply (get_velocity_fails cfg _ st st1 e).
    cbn [iter_param_list get_velocity_axes]. now apply bind_raise.
  - intros axis rest r st1 Hask Hbad.
    destruct Hbad as [Hcolon|[(s & Hcolon & Hint)
                             |(s & raw & Hcolon & Hint & Hover)]].
    + apply (get_velocity_fails cfg _ st st1 IndexError).
      cbn [iter_param_list get_velocity_axes].
      rewrite (bind_eq _ _ _ _ _ Hask).
      unfold split_colon_1. rewrite Hcolon. reflexivity.
    + apply (get_velocity_fails cfg _ st st1 ValueError).
      cbn [iter_param_list get_velocity_axes].
      rewrite (bind_eq _ _ _ _ _ Hask).
      unfold split_colon_1. rewrite Hcolon, bind_ret_l.
      unfold int_. rewrite Hint. reflexivity.
    + apply (get_velocity_fails cfg _ st st1 OverflowError).
      cbn [iter_param_list get_velocity_axes].
      rewrite (bind_eq _ _ _ _ _ Hask).
      unfold split_colon_1. rewrite Hcolon, bind_ret_l.
      unfold int_. rewrite Hint, bind_ret_l.
      unfold int_times_float. rewrite Hover. reflexivity.
  - intros a b r s raw st1 e st2 Hask Hcolon Hint Hfin Hask2.
    apply (get_velocity_fails cfg _ st st2 e).
    cbn [iter_param_list get_velocity_axes].
    rewrite (bind_eq _ _ _ _ _ Hask).
    unfold split_colon_1. rewrite Hcolon, bind_ret_l.
    unfold int_. rewrite Hint, bind_ret_l.
    unfold int_times_float. rewrite Hfin, bind_ret_l.
    now apply bind_raise.
  - intros pl. unfold get_velocity, try_except, bind.
    pose proof (get_velocity_axes_terminates cfg
                  (iter_param_list pl (get_constraints cfg)) [] st) as Hterm.
    destruct (get_velocity_axes cfg _ [] st) as [[d|e|] st1];
      cbn [fst] in Hterm.
    + do 2 eexists. split; [reflexivity|]. right. eauto.
    + do 2 eexists. split; [reflexivity|]. now left.
    + congruence.
Qed.

Lemma get_velocity_gives_up_at_the_first_failure_witness :
  get_velocity example_cfg (PList ["x"; "y"]) Unplugged.boot
  = (Ret (Sentinel (-1)),
     mkSt tt [mkLog ERROR "Could not find current axis velocity" []]
       [EvWrite ("1TY" ++ Py.newline) (Some (VisaIOError "no device"))]).
Proof.
  apply (proj1 (get_velocity_gives_up_at_the_first_failure example_cfg
                  Unplugged.boot) "x" ["y"] (VisaIOError "no device")
           (mkSt tt []
              [EvWrite ("1TY" ++ Py.newline)
                 (Some (VisaIOError "no device"))])).
  reflexivity.
Defined.

(** X9. [get_status] hands back, for an axis, the text after the first
    colon of the reply as it stands: it is not converted to a number.  It
    asks once: when the query raises or the reply has no colon, the result
    is the failure code [-1] with one error logged and the axes after it
    are not asked. *)
Theorem get_status_returns_the_text_after_the_colon
    {W : Type} `{Env W} (cfg : Config) (axis : string) (st : St W) :
  (forall r s st1,
     _ask_xyz cfg axis "TS" 3 st = (Ret r, st1) ->
     Py.after_colon r = Some s ->
     get_status cfg (PList [axis]) st = (Ret (Mapping [(axis, s)]), st1))
  /\ (forall rest e st1,
        _ask_xyz cfg axis "TS" 3 st = (Raise e, st1) ->
        get_status cfg (PList (axis :: rest)) st
        = (Ret (Sentinel (-1)),
           logged (mkLog ERROR "Status request unsuccessful" []) st1))
  /\ (forall rest r st1,
        _ask_xyz cfg axis "TS" 3 st = (Ret r, st1) ->
        Py.after_colon r = None ->
        get_status cfg (PList (axis :: rest)) st
        = (Ret (Sentinel (-1)),
           logged (mkLog ERROR "Status request unsuccessful" []) st1)).
Proof.
  split; [|split].
  - intros r s st1 Hask Hcolon. unfold get_status, try_except.
    cbn [iter_param_list get_status_axes].
    assert (Haxes : get_status_axes cfg [axis] [] st
                    = (Ret [(axis, s)], st1)).
    { cbn [get_status_axes]. rewrite (bind_eq _ _ _ _ _ Hask).
      unfold split_colon_1. now rewrite Hcolon, bind_ret_l. }
    now rewrite (bind_eq _ _ _ _ _ Haxes).
  - intros rest e st1 Hask. apply (get_status_fails cfg _ st st1 e).
    cbn [iter_param_list get_status_axes]. now apply bind_raise.
  - intros rest r st1 Hask Hcolon.
    apply (get_status_fails cfg _ st st1 IndexError).
    cbn [iter_param_list get_status_axes].
    rewrite (bind_eq _ _ _ _ _ Hask).
    unfold split_colon_1. rewrite Hcolon. reflexivity.
Qed.

Lemma get_status_returns_the_text_after_the_colon_witness :
  get_status example_cfg (PList ["x"]) (Sim.boot (reporting [5]))
  = (Ret (Mapping [("x", "0x5")]),
     snd (_ask_xyz example_cfg "x" "TS" 3 (Sim.boot (reporting [5])))).
Proof.
  apply (proj1 (get_status_returns_the_text_after_the_colon example_cfg "x"
                  (Sim.boot (reporting [5])))
           "1TS S:0x5").
  - vm_compute. reflexivity.
  - reflexivity.
Defined.

(** ** Velocities for axes that are not configured *)

Section UnknownVelocity.
Context {W : Type} `{Env W}.
Variable cfg : Config.

Lemma write_xyz_unknown fuel axis command (st : St W) :
  dict_get (get_constraints cfg) axis = None ->
  _write_xyz cfg fuel axis command st
  = (Ret (-1), logged (not_accepted (KeyError axis)) st).
Proof.
  intros Hax. unfold _write_xyz, try_except, bind, getitem. now rewrite Hax.
Qed.

Lemma set_velocity_axes_unknown fuel pd axes :
  convertible pd ->
  (forall k, In k axes ->
     In k (dict_keys pd) /\ dict_get (get_constraints cfg) k = None) ->
  forall st : St W,
    set_velocity_axes cfg fuel axes pd st
    = (Ret tt,
       mkSt (world st)
         (log st ++ map (fun k => not_accepted (KeyError k)) axes)
         (trace st)).
Proof.
  intros Hfin.
  induction axes as [|a rest IH]; intros Hall st; cbn [set_velocity_axes].
  - cbn [map]. rewrite app_nil_r. now destruct st.
  - destruct (Hall a (or_introl eq_refl)) as [Hin Hax].
    destruct (dict_get_keys _ _ Hin) as [v Hv].
    unfold getitem. rewrite Hv, bind_ret_l.
    unfold int_of_product. rewrite (Hfin a v Hv), bind_ret_l.
    unfold bind. rewrite write_xyz_unknown by assumption.
    rewrite IH by (intros k Hk; apply Hall; now right).
    unfold logged. cbn [world log trace map].
    now rewrite <- app_assoc.
Qed.

End UnknownVelocity.

(** X10. [set_velocity] reports success for axes that do not exist: for a
    request whose labels are all unconfigured (and whose velocities all
    convert, [int(v * 1e7)] being evaluated before the label is looked
    up) it returns the request itself, not the failure code, and nothing
    is written on the line; the only sign is one error in the log per
    label. *)
Theorem set_velocity_of_unknown_axes_reports_success
    {W : Type} `{Env W} (cfg : Config) (fuel : nat) (param_dict : dict Q)
    (st : St W) :
  convertible param_dict ->
  (forall k, In k (dict_keys param_dict) ->
             dict_get (get_constraints cfg) k = None) ->
  set_velocity cfg fuel param_dict st
  = (Ret (Mapping param_dict),
     mkSt (world st)
       (log st
          ++ map (fun k => not_accepted (KeyError k)) (dict_keys param_dict))
       (trace st)).
Proof.
  intros Hfin Hall. unfold set_velocity, try_except, bind.
  rewrite set_velocity_axes_unknown; [reflexivity|assumption|].
  intros k Hk. split; [assumption|now apply Hall].
Qed.

Lemma set_velocity_of_unknown_axes_reports_success_witness :
  set_velocity
    (mkConfig (example_axis "a" "1") (example_axis "b" "2")
              (example_axis "c" "3") 1000 (3 # 1000))
    10 [("x", 3 # 1000); ("y", 3 # 1000)] (Sim.boot Sim.idle)
  = (Ret (Mapping [("x", 3 # 1000); ("y", 3 # 1000)]),
     mkSt Sim.idle
       [not_accepted (KeyError "x"); not_accepted (KeyError "y")] []).
Proof.
  apply (set_velocity_of_unknown_axes_reports_success
           (mkConfig (example_axis "a" "1") (example_axis "b" "2")
                     (example_axis "c" "3") 1000 (3 # 1000))
           10 [("x", 3 # 1000); ("y", 3 # 1000)] (Sim.boot Sim.idle)).
  - intros k v Hv. cbn [dict_get] in Hv.
    destruct (String.eqb "x" k);
      [|destruct (String.eqb "y" k); [|discriminate]];
      injection Hv as <-; vm_compute; reflexivity.
  - intros k [<-|[<-|[]]]; reflexivity.
Defined.

(** ** Replies *)

Section Replies.
Context {W : Type} `{Env W}.
Variable cfg : Config.

Lemma append_assoc_s (a b c : string) : (a ++ b) ++ c = a ++ (b ++ c).
Proof. induction a as [|x a IH]; simpl; [reflexivity|now rewrite IH]. Qed.

Lemma has_char_app c a b :
  has_char c (a ++ b) = (has_char c a || has_char c b)%bool.
Proof.
  induction a as [|x a IH]; simpl; [reflexivity|].
  now rewrite IH, orb_assoc.
Qed.

Lemma has_char_removed c s : has_char c (Py.remove_char c s) = false.
Proof.
  induction s as [|x s IH]; simpl; [reflexivity|].
  destruct (Ascii.eqb x c) eqn:Hx; [assumption|].
  simpl. now rewrite Hx.
Qed.

Lemma has_char_after_remove c c' s :
  has_char c s = false -> has_char c (Py.remove_char c' s) = false.
Proof.
  induction s as [|x s IH]; simpl; [reflexivity|].
  intros Hs. apply orb_false_iff in Hs. destruct Hs as [Hx Hs].
  destruct (Ascii.eqb x c'); [now apply IH|].
  simpl. now rewrite Hx, IH.
Qed.

Lemma strip_line_ends_clean s :
  has_char Py.CR (Py.strip_line_ends s) = false
  /\ has_char Py.LF (Py.strip_line_ends s) = false.
Proof.
  unfold Py.strip_line_ends. split.
  - apply has_char_after_remove, has_char_removed.
  - apply has_char_removed.
Qed.

Lemma unlined_clean chunks :
  has_char Py.CR (unlined chunks) = false
  /\ has_char Py.LF (unlined chunks) = false.
Proof.
  unfold unlined. induction chunks as [|c rest [IHr IHn]]; cbn [map fold_right].
  - now split.
  - rewrite !has_char_app, IHr, IHn.
    destruct (strip_line_ends_clean c) as [-> ->]. now split.
Qed.

Lemma read_chunks_shape n : forall s (st st' : St W) r,
  read_chunks n s st = (Ret r, st') ->
  exists chunks : list string,
    List.length chunks = n
    /\ trace st' = (trace st ++ ok_reads chunks)%list
    /\ log st' = log st
    /\ r = s ++ unlined chunks.
Proof.
  induction n as [|n IH]; intros s st st' r; cbn [read_chunks].
  - intros [= <- <-]. exists []. cbn. rewrite app_nil_r.
    now rewrite append_empty.
  - unfold bind, read.
    destruct (serial_read (world st)) as [[e|c] w1]; [discriminate|].
    intros Hrun. apply IH in Hrun. cbn [trace log] in Hrun.
    destruct Hrun as (chunks & Hlen & Htr & Hlog & Hr).
    exists (c :: chunks). split; [cbn; congruence|].
    split; [rewrite Htr, <- app_assoc; reflexivity|].
    split; [assumption|].
    rewrite Hr. unfold unlined. cbn [map fold_right].
    apply append_assoc_s.
Qed.

Lemma ask_shape axis question n (st st' : St W) r :
  _ask_xyz cfg axis question n st = (Ret r, st') ->
  exists ax (chunks : list string),
    dict_get (get_constraints cfg) axis = Some ax
    /\ List.length chunks = n
    /\ trace st'
       = (trace st ++ EvWrite (ID ax ++ question ++ Py.newline) None
            :: ok_reads chunks)%list
    /\ log st' = log st
    /\ r = unlined chunks.
Proof.
  unfold _ask_xyz, getitem.
  destruct (dict_get (get_constraints cfg) axis) as [ax|]; [|discriminate].
  rewrite bind_ret_l. unfold bind at 1, write.
  destruct (serial_write (ID ax ++ question ++ Py.newline) (world st))
    as [[e|] w1]; [discriminate|].
  intros Hrun. apply read_chunks_shape in Hrun. cbn [trace log] in Hrun.
  destruct Hrun as (chunks & Hlen & Htr & Hlog & Hr).
  exists ax, chunks. split; [reflexivity|]. split; [assumption|].
  split; [rewrite Htr, <- app_assoc; reflexivity|]. now split.
Qed.

(** The read loop hands back what it had, followed by the chunks it read,
    each without its last character. *)
Lemma read_answer_loop_joins fuel T t0 : forall ans (st st' : St W) a ot,
  _read_answer_loop fuel T t0 ans st = (Ret (a, ot), st') ->
  exists (chunks : list string) (tail : list io_event),
    trace st' = (trace st ++ ok_reads chunks ++ tail)%list
    /\ a = ans ++ joined chunks
    /\ (tail = [] \/ exists e, tail = [EvRead (inl e)]).
Proof.
  induction fuel as [|fuel IH]; intros ans st st' a ot;
    cbn [_read_answer_loop]; [discriminate|].
  unfold bind, time_perf_counter.
  destruct (perf_counter (world st)) as [now w1].
  destruct (Qle_bool 0 T && Py.Qlt_bool T (now - t0))%bool.
  - intros [= <- _ <-]. exists [], []. cbn. rewrite app_nil_r.
    rewrite append_empty. auto.
  - unfold read. cbn [world log trace].
    destruct (serial_read w1) as [[e|c] w2].
    + intros [= <- _ <-]. exists [], [EvRead (inl e)]. cbn.
      rewrite append_empty. eauto.
    + intros Hrun. apply IH in Hrun. cbn [trace] in Hrun.
      destruct Hrun as (chunks & tail & Htr & Ha & Htail).
      exists (c :: chunks), tail. split; [|split; [|assumption]].
      * rewrite Htr. cbn. now rewrite <- app_assoc.
      * rewrite Ha. unfold joined. cbn [map fold_right].
        apply append_assoc_s.
Qed.

End Replies.

(** X11. A query that succeeds is one write of the framed question
    followed by exactly [nchunks] reads that all returned; its answer is
    those chunks in order with every carriage return and line feed
    removed, so the answer itself never contains either character.
    Nothing is logged. *)
Theorem ask_xyz_reads_the_chunks_without_line_ends
    {W : Type} `{Env W} (cfg : Config) (axis question : string) (n : nat)
    (st st' : St W) (r : string) :
  _ask_xyz cfg axis question n st = (Ret r, st') ->
  exists ax (chunks : list string),
    dict_get (get_constraints cfg) axis = Some ax
    /\ List.length chunks = n
    /\ trace st'
       = (trace st ++ EvWrite (ID ax ++ question ++ Py.newline) None
            :: ok_reads chunks)%list
    /\ log st' = log st
    /\ r = unlined chunks
    /\ has_char Py.CR r = false
    /\ has_char Py.LF r = false.
Proof.
  intros Hrun. destruct (ask_shape cfg axis question n st st' r Hrun)
    as (ax & chunks & Hax & Hlen & Htr & Hlog & Hr).
  exists ax, chunks. repeat (split; [assumption|]).
  rewrite Hr. apply unlined_clean.
Qed.

Lemma ask_xyz_reads_the_chunks_without_line_ends_witness :
  exists ax (chunks : list string),
    dict_get (get_constraints example_cfg) "x" = Some ax
    /\ List.length chunks = 3%nat
    /\ "1TT:0" = unlined chunks.
Proof.
  assert (Hrun : _ask_xyz example_cfg "x" "TT" 3 (Sim.boot Sim.idle)
                 = (Ret "1TT:0",
                    snd (_ask_xyz example_cfg "x" "TT" 3
                           (Sim.boot Sim.idle))))
    by (vm_compute; reflexivity).
  destruct (ask_xyz_reads_the_chunks_without_line_ends example_cfg "x" "TT" 3
              (Sim.boot Sim.idle) _ "1TT:0" Hrun)
    as (ax & chunks & Hax & Hlen & _ & _ & Hr & _).
  exists ax, chunks. auto.
Defined.

(** X12. Reading an answer never raises, whatever the transport raises:
    the routine returns (or its fuel runs out), and what it returns is the
    chunks it read, in order, each without its last character; the read
    that raised, if any, contributes nothing. *)
Theorem read_answer_joins_the_chunks
    {W : Type} `{Env W} (cfg : Config) (fuel : nat) (st : St W) :
  let r := _read_answer_xyz cfg fuel st in
  fst r = Diverge
  \/ exists (chunks : list string) (tail : list io_event),
       fst r = Ret (joined chunks)
       /\ trace (snd r) = (trace st ++ ok_reads chunks ++ tail)%list
       /\ (tail = [] \/ exists e, tail = [EvRead (inl e)]).
Proof.
  cbn zeta.
  destruct (_read_answer_xyz cfg fuel st) as [o st'] eqn:Hrun.
  cbn [fst snd]. revert Hrun.
  unfold _read_answer_xyz, bind at 1, time_perf_counter.
  destruct (perf_counter (world st)) as [t_start w1]. unfold bind.
  destruct (_read_answer_loop fuel (_pi_xyz_timeout cfg / 1000) t_start ""
              (mkSt w1 (log st) (trace st))) as [[[a ot]|e|] st2] eqn:Hloop.
  - intros Hrun. right.
    apply read_answer_loop_joins in Hloop. cbn [trace] in Hloop.
    destruct Hloop as (chunks & tail & Htr & Ha & Htail).
    exists chunks, tail. cbn [append] in Ha. subst a.
    destruct ot as [t|].
    + rewrite emit_eq in Hrun. injection Hrun as <- <-.
      cbn [logged trace]. auto.
    + injection Hrun as <- <-. auto.
  - exfalso. apply read_answer_loop_shape in Hloop.
    destruct Hloop as (_ & chunks & tail & _ & Hend).
    destruct Hend as [(e' & a & _ & Hr)|[(_ & a & t & Hr & _)|(_ & Hr)]];
      discriminate.
  - intros [= <- _]. now left.
Qed.

(** ** On a transport that always fails *)

Section DeadLine.
Context {W : Type} `{Env W}.
Variable cfg : Config.
Hypothesis dead : always_fails W.

Hint Resolve terminates_ret terminates_raise terminates_write
  terminates_read terminates_clock terminates_sleep terminates_emit
  terminates_log terminates_getitem terminates_int terminates_split
  terminates_int_of_product terminates_int_times_float
  : driver.

Lemma ask_on_dead_line axis ax question n (st : St W) :
  dict_get (get_constraints cfg) axis = Some ax ->
  exists e st', _ask_xyz cfg axis question (S n) st = (Raise e, st').
Proof.
  intros Hax. unfold _ask_xyz, getitem. rewrite Hax, bind_ret_l.
  unfold bind at 1, write.
  destruct (serial_write (ID ax ++ question ++ Py.newline) (world st))
    as [[e|] w1] eqn:Hw; [eauto|].
  destruct dead as [Hwr|Hrd].
  - destruct (Hwr (ID ax ++ question ++ Py.newline) (world st)) as [e He].
    rewrite Hw in He. discriminate.
  - cbn [read_chunks]. unfold bind at 1, read. cbn [world log trace].
    destruct (Hrd w1) as [e He].
    destruct (serial_read w1) as [[e'|c] w2]; [eauto|discriminate].
Qed.

Lemma constraints_head :
  exists rest,
    dict_keys (get_constraints cfg) = label (first_axis cfg) :: rest.
Proof.
  unfold get_constraints. cbn [dict_set].
  destruct (String.eqb (label (first_axis cfg)) (label (second_axis cfg)));
    cbn [dict_set];
    destruct (String.eqb (label (first_axis cfg)) (label (third_axis cfg)));
    cbn [dict_set];
    try destruct (String.eqb (label (second_axis cfg))
                    (label (third_axis cfg)));
    cbn [dict_keys map fst]; eauto.
Qed.

Lemma motor_stopped_on_dead_line (st : St W) :
  exists e st', _motor_stopped cfg st = (Raise e, st').
Proof.
  destruct constraints_head as [rest Hkeys].
  assert (Hin : In (label (first_axis cfg)) (dict_keys (get_constraints cfg)))
    by (rewrite Hkeys; now left).
  destruct (constraints_key cfg _ Hin) as (ax & Hax & Hlab).
  unfold _motor_stopped, _in_movement_xyz. rewrite Hkeys.
  cbn [_in_movement_loop]. unfold bind at 1. unfold bind at 1.
  unfold try_except_Exception. unfold getitem at 1.
  rewrite Hax, bind_ret_l, Hlab.
  destruct (ask_on_dead_line (label (first_axis cfg)) ax "TS" 2 st Hax)
    as (e & st1 & Hask).
  unfold bind at 1. rewrite Hask.
  destruct (is_Exception e); [|eauto].
  unfold bind, log_call, ret, raise. eauto.
Qed.

Lemma read_answer_when_reads_fail f :
  (forall w, exists e, fst (serial_read w) = inl e) ->
  terminates (_read_answer_xyz cfg (S f)).
Proof.
  intros Hrd st. unfold _read_answer_xyz, bind at 1, time_perf_counter.
  destruct (perf_counter (world st)) as [t0 w1].
  cbn [_read_answer_loop]. unfold bind, time_perf_counter.
  cbn [world log trace].
  destruct (perf_counter w1) as [now w2].
  destruct (Qle_bool 0 (_pi_xyz_timeout cfg / 1000)
            && Py.Qlt_bool (_pi_xyz_timeout cfg / 1000) (now - t0))%bool.
  - unfold ret. rewrite emit_eq. discriminate.
  - unfold read. cbn [world log trace].
    destruct (Hrd w2) as [e He].
    destruct (serial_read w2) as [[e'|c] w3]; [|discriminate].
    unfold ret. discriminate.
Qed.

Lemma write_xyz_on_dead_line f axis command :
  terminates (_write_xyz cfg (S f) axis command).
Proof.
  intros st.
  destruct (dict_get (get_constraints cfg) axis) as [ax|] eqn:Hax.
  - unfold _write_xyz, try_except, getitem. rewrite Hax, bind_ret_l.
    unfold bind at 1, write.
    destruct (serial_write (ID ax ++ command ++ Py.newline) (world st))
      as [[e|] w1] eqn:Hw; [unfold bind, log_call, ret; discriminate|].
    destruct dead as [Hwr|Hrd].
    + destruct (Hwr (ID ax ++ command ++ Py.newline) (world st)) as [e He].
      rewrite Hw in He. discriminate.
    + pose proof (read_answer_when_reads_fail f Hrd
                    (mkSt w1 (log st)
                       (trace st
                          ++ [EvWrite (ID ax ++ command ++ Py.newline) None])))
        as Hread.
      unfold bind.
      destruct (_read_answer_xyz cfg (S f) _) as [[a|e|] st2];
        cbn [fst] in *; [discriminate|unfold log_call, ret; discriminate|].
      congruence.
  - unfold _write_xyz, try_except, bind, getitem. rewrite Hax.
    unfold log_call, ret. discriminate.
Qed.

Lemma move_abs_batch_on_dead_line f pd axes :
  terminates (move_abs_batch cfg (S f) axes pd).
Proof.
  induction axes as [|a rest IH]; cbn [move_abs_batch]; auto with driver.
  apply terminates_bind; [auto with driver|intros move].
  apply terminates_bind; [|intros _; exact IH].
  unfold _do_move_abs. apply terminates_bind; [auto with driver|intros ax].
  destruct (negb _); [apply terminates_bind; auto with driver|].
  apply terminates_bind; [auto with driver|intros raw].
  apply terminates_bind; auto using write_xyz_on_dead_line with driver.
Qed.

Lemma write_each_on_dead_line f command axes :
  terminates (write_each cfg (S f) axes command).
Proof.
  induction axes as [|a rest IH]; cbn [write_each]; auto with driver.
  apply terminates_bind; [apply write_xyz_on_dead_line|intros _; exact IH].
Qed.

(** The poll of [move_abs] cannot be passed: the attempt raises. *)
Lemma move_abs_attempt_on_dead_line f pd (st : St W) :
  is_raise (fst (move_abs_attempt cfg (S f) pd st)) = true.
Proof.
  unfold move_abs_attempt, bind at 1.
  pose proof (move_abs_batch_on_dead_line f pd (dict_keys pd) st) as Hb.
  destruct (move_abs_batch cfg (S f) (dict_keys pd) pd st)
    as [[[]|e|] st1]; cbn [fst] in *; [|reflexivity|congruence].
  unfold wait_on_condition, bind at 1, time_perf_counter.
  destruct (perf_counter (world st1)) as [t0 w1].
  cbn [wait_loop]. unfold bind at 1. unfold bind at 1.
  destruct (motor_stopped_on_dead_line (mkSt w1 (log st1) (trace st1)))
    as (e & st2 & ->).
  reflexivity.
Qed.

Lemma abort_wait_on_dead_line f (st : St W) :
  exists e st', abort_wait cfg (S f) st = (Raise e, st').
Proof.
  cbn [abort_wait]. unfold bind at 1.
  destruct (motor_stopped_on_dead_line st) as (e & st' & ->). eauto.
Qed.

End DeadLine.

(** X13. On a transport that always fails (every write raises, or every
    read raises) the settle poll cannot be passed: [_motor_stopped] raises
    in every state, so every attempt of [move_abs] raises.  [move_abs]
    then uses its three attempts, logs the error last and returns the
    request all the same. *)
Theorem move_abs_on_a_dead_line_gives_up
    {W : Type} `{Env W} (cfg : Config) (f : nat) (param_dict : dict Q)
    (st : St W) :
  always_fails W ->
  (exists e st', _motor_stopped cfg st = (Raise e, st'))
  /\ fst (move_abs cfg (S f) param_dict st) = Ret param_dict
  /\ exists l : list log_record,
       log (snd (move_abs cfg (S f) param_dict st))
       = (l ++ [retry_warning; cannot_move_error])%list.
Proof.
  intros Hdead. split; [now apply motor_stopped_on_dead_line|].
  pose proof (move_abs_attempt_on_dead_line cfg Hdead f param_dict) as Hbody.
  unfold move_abs, bind.
  rewrite attempts_retry by apply Hbody.
  rewrite attempts_retry by apply Hbody.
  rewrite attempts_retry by apply Hbody.
  rewrite attempts_exhausted. cbn [fst snd ret]. split; [reflexivity|].
  unfold logged at 1 2. cbn [log]. eexists.
  rewrite <- app_assoc. reflexivity.
Qed.

Lemma move_abs_on_a_dead_line_gives_up_witness :
  fst (move_abs example_cfg 1 [("x", 5 # 100)] Unplugged.boot)
  = Ret [("x", 5 # 100)].
Proof.
  apply (move_abs_on_a_dead_line_gives_up example_cfg 0 [("x", 5 # 100)]
           Unplugged.boot).
  left. intros c w. eexists. reflexivity.
Defined.

(** ** What cannot fail *)

Section NoFailure.
Context {W : Type} `{Env W}.
Variable cfg : Config.

Hint Resolve emits_ret emits_raise emits_log emits_emit emits_getitem
  emits_int emits_int_of_product emits_int_times_float emits_clock
  emits_sleep emits_read : driver.

Lemma write_xyz_no_raise fuel axis command (st : St W) :
  is_raise (fst (_write_xyz cfg fuel axis command st)) = false.
Proof.
  unfold _write_xyz, try_except.
  destruct (bind (getitem (get_constraints cfg) axis) _ st)
    as [[a|e|] st1]; reflexivity.
Qed.

Lemma write_each_no_raise fuel command axes : forall st : St W,
  is_raise (fst (write_each cfg fuel axes command st)) = false.
Proof.
  induction axes as [|a rest IH]; intros st; cbn [write_each];
    [reflexivity|].
  unfold bind.
  pose proof (write_xyz_no_raise fuel a command st) as Hw.
  destruct (_write_xyz cfg fuel a command st) as [[z|e|] st1];
    cbn [fst] in *; [apply IH|discriminate|reflexivity].
Qed.

Lemma set_velocity_axes_no_raise fuel pd axes :
  convertible pd ->
  incl axes (dict_keys pd) ->
  forall st : St W,
    is_raise (fst (set_velocity_axes cfg fuel axes pd st)) = false.
Proof.
  intros Hfin.
  induction axes as [|a rest IH]; intros Hin st; cbn [set_velocity_axes];
    [reflexivity|].
  destruct (dict_get_keys pd a (Hin a (or_introl eq_refl))) as [v Hv].
  unfold getitem. rewrite Hv, bind_ret_l.
  unfold int_of_product. rewrite (Hfin a v Hv), bind_ret_l. unfold bind.
  pose proof (write_xyz_no_raise fuel a
                ("SV" ++ Py.format_d
                           (Py.int_of_float (Py.fmul v scale_up))) st)
    as Hw.
  destruct (_write_xyz cfg fuel a _ st) as [[z|e|] st1];
    cbn [fst] in *; [|discriminate|reflexivity].
  apply IH. intros k Hk. apply Hin. now right.
Qed.

(** With velocities that convert, the request comes back. *)
Lemma set_velocity_outcome fuel pd (st : St W) :
  convertible pd ->
  fst (set_velocity cfg fuel pd st) = Ret (Mapping pd)
  \/ fst (set_velocity cfg fuel pd st) = Diverge.
Proof.
  intros Hfin. unfold set_velocity, try_except, bind.
  pose proof (set_velocity_axes_no_raise fuel pd (dict_keys pd) Hfin
                (incl_refl _) st) as Hs.
  destruct (set_velocity_axes cfg fuel (dict_keys pd) pd st)
    as [[[]|e|] st1]; cbn [fst] in *; [now left|discriminate|now right].
Qed.

(** Whatever the request, [set_velocity] does not raise. *)
Lemma set_velocity_no_raise fuel pd (st : St W) :
  fst (set_velocity cfg fuel pd st) = Ret (Mapping pd)
  \/ fst (set_velocity cfg fuel pd st) = Ret (Sentinel (-1))
  \/ fst (set_velocity cfg fuel pd st) = Diverge.
Proof.
  unfold set_velocity, try_except, bind.
  destruct (set_velocity_axes cfg fuel (dict_keys pd) pd st)
    as [[[]|e|] st1]; cbn [fst]; auto.
Qed.

Lemma emits_set_velocity_axes (P : string -> Prop) fuel pd :
  (forall k v ax,
     dict_get pd k = Some v ->
     dict_get (get_constraints cfg) k = Some ax ->
     P (ID ax
        ++ ("SV" ++ Py.format_d (Py.int_of_float (Py.fmul v scale_up)))
        ++ Py.newline)) ->
  forall axes, emits P (set_velocity_axes cfg fuel axes pd).
Proof.
  intros Hp. induction axes as [|k rest IH]; cbn [set_velocity_axes];
    auto with driver.
  unfold getitem. destruct (dict_get pd k) as [v|] eqn:Hv;
    [|now apply emits_silent].
  apply (emits_ext P _
           (bind (int_of_product v scale_up)
              (fun vel =>
                 bind (_write_xyz cfg fuel k ("SV" ++ Py.format_d vel))
                   (fun _ => set_velocity_axes cfg fuel rest pd))));
    [intros st; reflexivity|].
  unfold int_of_product. destruct (Py.overflows (v * scale_up));
    [apply emits_silent; intros st; reflexivity|].
  apply (emits_ext P _
           (bind (_write_xyz cfg fuel k
                    ("SV" ++ Py.format_d
                               (Py.int_of_float (Py.fmul v scale_up))))
              (fun _ => set_velocity_axes cfg fuel rest pd)));
    [intros st; reflexivity|].
  apply emits_bind; [|intros _; exact IH].
  apply emits_write_xyz. intros ax Hax. now apply (Hp k v).
Qed.

Lemma emits_set_velocity (P : string -> Prop) fuel pd :
  (forall k v ax,
     dict_get pd k = Some v ->
     dict_get (get_constraints cfg) k = Some ax ->
     P (ID ax
        ++ ("SV" ++ Py.format_d (Py.int_of_float (Py.fmul v scale_up)))
        ++ Py.newline)) ->
  emits P (set_velocity cfg fuel pd).
Proof.
  intros Hp. unfold set_velocity. apply emits_try_except.
  - apply emits_bind; [now apply emits_set_velocity_axes|auto with driver].
  - intros e. apply emits_bind; auto with driver.
Qed.

End NoFailure.

(** X14. [set_velocity] fails only in the conversion of a velocity.  It
    never raises: the result is the request, the failure code [-1], or
    the fuel of a read loop runs out.  When the float product [v * 1e7] is
    finite for every velocity of the request, the failure code is
    impossible, whatever the transport does, because the send primitive
    swallows every exception.  When the product of the first velocity is
    not finite, as for [1e305], [int] raises [OverflowError]: the call
    answers [-1] with one error logged and nothing is sent. *)
Theorem set_velocity_fails_only_in_the_conversion
    {W : Type} `{Env W} (cfg : Config) (fuel : nat) (param_dict : dict Q)
    (st : St W) :
  (fst (set_velocity cfg fuel param_dict st) = Ret (Mapping param_dict)
   \/ fst (set_velocity cfg fuel param_dict st) = Ret (Sentinel (-1))
   \/ fst (set_velocity cfg fuel param_dict st) = Diverge)
  /\ (convertible param_dict ->
      fst (set_velocity cfg fuel param_dict st) = Ret (Mapping param_dict)
      \/ fst (set_velocity cfg fuel param_dict st) = Diverge)
  /\ (forall axis v rest,
        param_dict = (axis, v) :: rest ->
        Py.overflows (v * scale_up) = true ->
        set_velocity cfg fuel param_dict st
        = (Ret (Sentinel (-1)),
           logged (mkLog ERROR "Could not set axis velocity" []) st)).
Proof.
  split; [apply set_velocity_no_raise|].
  split; [apply set_velocity_outcome|].
  intros axis v rest -> Hover. now apply set_velocity_overflow.
Qed.

Lemma set_velocity_fails_only_in_the_conversion_witness :
  set_velocity example_cfg 10 [("x", Py.literal (inject_Z (10 ^ 305)))]
    (Sim.boot Sim.idle)
  = (Ret (Sentinel (-1)),
     mkSt Sim.idle [mkLog ERROR "Could not set axis velocity" []] []).
Proof.
  apply (proj2 (proj2 (set_velocity_fails_only_in_the_conversion
                         example_cfg 10
                         [("x", Py.literal (inject_Z (10 ^ 305)))]
                         (Sim.boot Sim.idle)))
           "x" (Py.literal (inject_Z (10 ^ 305))) [] eq_refl).
  vm_compute. reflexivity.
Defined.

(** X15. Activation addresses the axes by the fixed labels ['x'], ['y']
    and ['z'], not by the configured ones: every command [on_activate]
    writes is the velocity command [SV] with the default velocity in raw
    units, for an axis configured under one of these three labels.  With
    other labels nothing is written at all.  Once the resource is open the
    call cannot fail: what [set_velocity] returns is dropped, so it
    returns [0] (or the fuel of a read loop runs out). *)
Theorem on_activate_sets_the_velocity_of_x_y_z
    {W : Type} `{Env W} (cfg : Config) (fuel : nat) (st : St W) :
  (fst (on_activate cfg fuel st) = Ret 0
   \/ fst (on_activate cfg fuel st) = Diverge)
  /\ exists tr : list io_event,
       trace (snd (on_activate cfg fuel st)) = (trace st ++ tr)%list
       /\ Forall
            (fun c =>
               exists k ax,
                 In k ["x"; "y"; "z"]
                 /\ dict_get (get_constraints cfg) k = Some ax
                 /\ c = (ID ax
                         ++ ("SV" ++ Py.format_d
                                       (Py.int_of_float
                                          (Py.fmul (_vel_default cfg)
                                             scale_up)))
                         ++ Py.newline)%string)
            (writes tr).
Proof.
  split.
  - destruct (on_activate cfg fuel st) as [o st'] eqn:Hrun. cbn [fst].
    unfold on_activate, bind, log_call in Hrun.
    match type of Hrun with
    | context [set_velocity cfg fuel ?pd ?s] =>
        destruct (set_velocity_no_raise cfg fuel pd s) as [Hr|[Hr|Hr]];
        destruct (set_velocity cfg fuel pd s) as [o1 st1]
    end; cbn [fst] in Hr; subst o1; injection Hrun as <- _; auto.
  - apply (emits_bind _ _ _ (emits_log _ _ _ _)). intros _.
    apply emits_bind; [|intros _; apply emits_ret].
    apply emits_set_velocity. intros k v ax Hv Hax.
    exists k, ax. cbn [dict_get] in Hv.
    destruct (String.eqb "x" k) eqn:Hx;
      [apply String.eqb_eq in Hx; injection Hv as <-;
       split; [subst k; simpl In; auto|split; [assumption|reflexivity]]|].
    destruct (String.eqb "y" k) eqn:Hy;
      [apply String.eqb_eq in Hy; injection Hv as <-;
       split; [subst k; simpl In; auto|split; [assumption|reflexivity]]|].
    destruct (String.eqb "z" k) eqn:Hz;
      [apply String.eqb_eq in Hz; injection Hv as <-;
       split; [subst k; simpl In; auto|split; [assumption|reflexivity]]|].
    discriminate.
Qed.

(** ** Abort *)

(** X16. [abort] never raises: its bare [except] turns every exception
    into the return code [-1], logged as an error, so the call returns [0]
    or [-1] (or a loop runs out of fuel).  On a transport that always
    fails the stop commands are swallowed one by one by the send primitive
    and the first settle poll raises: the call returns [-1] with the error
    logged last. *)
Theorem abort_reports_by_code
    {W : Type} `{Env W} (cfg : Config) (fuel : nat) (st : St W) :
  (fst (abort cfg fuel st) = Ret 0
   \/ fst (abort cfg fuel st) = Ret (-1)
   \/ fst (abort cfg fuel st) = Diverge)
  /\ (always_fails W -> (0 < fuel)%nat ->
      fst (abort cfg fuel st) = Ret (-1)
      /\ exists l : list log_record,
           log (snd (abort cfg fuel st))
           = (l ++ [mkLog ERROR "MOTOR MOVEMENT NOT STOPPED!!!)" []])%list).
Proof.
  destruct (abort cfg fuel st) as [o st'] eqn:Hrun. cbn [fst snd].
  unfold abort, try_except, bind in Hrun.
  pose proof (write_each_no_raise cfg fuel "AB"
                (dict_keys (get_constraints cfg)) st) as Hnr.
  split.
  - destruct (write_each cfg fuel (dict_keys (get_constraints cfg)) "AB" st)
      as [[[]|e|] st1]; cbn [fst] in Hnr; [|discriminate|].
    + destruct (abort_wait cfg fuel st1) as [[[]|e|] st2];
        unfold ret, log_call in Hrun; injection Hrun as <- _; auto.
    + injection Hrun as <- _. auto.
  - intros Hdead Hfuel. destruct fuel as [|f]; [lia|].
    pose proof (write_each_on_dead_line cfg Hdead f "AB"
                  (dict_keys (get_constraints cfg)) st) as Hterm.
    destruct (write_each cfg (S f) (dict_keys (get_constraints cfg)) "AB" st)
      as [[[]|e|] st1]; cbn [fst] in Hnr, Hterm;
      [|discriminate|congruence].
    destruct (abort_wait_on_dead_line cfg Hdead f st1) as (e & st2 & Hw).
    rewrite Hw in Hrun. unfold ret, log_call in Hrun.
    injection Hrun as <- <-. cbn [log]. eauto.
Qed.

Lemma abort_reports_by_code_witness :
  fst (abort example_cfg 1 Unplugged.boot) = Ret (-1).
Proof.
  apply (abort_reports_by_code example_cfg 1 Unplugged.boot).
  - left. intros c w. eexists. reflexivity.
  - lia.
Defined.

(** ** Status values in hand *)

Section Stale.
Context {W : Type} `{Env W}.
Variable cfg : Config.

(** The [try] body of [_in_movement_xyz] for a configured axis runs the
    status query of the axis. *)
Lemma status_body_eq a ax (st : St W) :
  dict_get (get_constraints cfg) a = Some ax -> label ax = a ->
  (ax <- getitem (get_constraints cfg) a ;;
   r <- _ask_xyz cfg (label ax) "TS" 3 ;;
   v <- int_ (Py.drop 8 r) ;;
   ret (Some v)) st
  = match status_value cfg a st with
    | (Ret v, st1) => (Ret (Some v), st1)
    | (Raise e, st1) => (Raise e, st1)
    | (Diverge, st1) => (Diverge, st1)
    end.
Proof.
  intros Hax Hlab. unfold getitem. rewrite Hax, bind_ret_l, Hlab.
  unfold status_value, bind.
  destruct (_ask_xyz cfg a "TS" 3 st) as [[r|e|] st1]; [|reflexivity..].
  destruct (int_ (Py.drop 8 r) st1) as [[v|e|] st2]; reflexivity.
Qed.

Lemma status_poll_length axes tmp0 (st st' : St W) vs :
  status_poll cfg axes tmp0 st vs st' -> List.length axes = List.length vs.
Proof. induction 1; simpl; congruence. Qed.

Lemma in_movement_loop_poll axes tmp0 (st st' : St W) vs :
  status_poll cfg axes tmp0 st vs st' ->
  forall d,
    (forall a, In a axes ->
       exists ax, dict_get (get_constraints cfg) a = Some ax /\ label ax = a) ->
    NoDup axes ->
    (forall a, In a axes -> ~ In a (dict_keys d)) ->
    _in_movement_loop cfg (get_constraints cfg) axes tmp0 d st
    = (Ret (d ++ combine axes (map (fun v => v mod 2) vs))%list, st').
Proof.
  assert (Hfresh_step : forall (d : dict Z) a v rest,
             (forall b, In b (a :: rest) -> ~ In b (dict_keys d)) ->
             NoDup (a :: rest) ->
             forall b, In b rest -> ~ In b (dict_keys (d ++ [(a, v)])%list)).
  { intros d a v rest Hfresh Hnd b Hb Hin.
    apply NoDup_cons_iff in Hnd as [Hnin _].
    unfold dict_keys in Hin. rewrite map_app in Hin.
    apply in_app_or in Hin. destruct Hin as [Hin|[<-|[]]].
    - apply (Hfresh b); [now right|assumption].
    - contradiction. }
  induction 1 as [tmp0 st
                 |a axes tmp0 st v st1 vs st2 Hval Hrest IH
                 |a axes v0 st e st1 vs st2 Hval Hexc Hrest IH];
    intros d Hcfg Hnd Hfresh.
  - simpl. now rewrite app_nil_r.
  - cbn [_in_movement_loop]. unfold bind at 1, try_except_Exception.
    destruct (Hcfg a (or_introl eq_refl)) as (ax & Hax & Hlab).
    rewrite (status_body_eq a ax st Hax Hlab), Hval.
    rewrite (dict_set_fresh d a (v mod 2)) by (apply Hfresh; now left).
    rewrite IH.
    + simpl. now rewrite <- app_assoc.
    + intros b Hb. apply Hcfg. now right.
    + now apply NoDup_cons_iff in Hnd as [_ Hnd'].
    + now apply Hfresh_step.
  - cbn [_in_movement_loop]. unfold bind at 1, try_except_Exception.
    destruct (Hcfg a (or_introl eq_refl)) as (ax & Hax & Hlab).
    rewrite (status_body_eq a ax st Hax Hlab), Hval, Hexc.
    unfold bind at 1, log_call, ret.
    rewrite (dict_set_fresh d a (v0 mod 2)) by (apply Hfresh; now left).
    unfold logged in IH. rewrite IH.
    + simpl. now rewrite <- app_assoc.
    + intros b Hb. apply Hcfg. now right.
    + now apply NoDup_cons_iff in Hnd as [_ Hnd'].
    + now apply Hfresh_step.
Qed.

Lemma motor_stopped_poll (st st' : St W) vs :
  status_poll cfg (dict_keys (get_constraints cfg)) None st vs st' ->
  _in_movement_xyz cfg st
  = (Ret (combine (dict_keys (get_constraints cfg))
            (map (fun v => v mod 2) vs)), st')
  /\ fst (_motor_stopped cfg st) = Ret (forallb (fun v => v mod 2 =? 0) vs).
Proof.
  intros Hpoll.
  assert (Hloop : _in_movement_xyz cfg st
                  = (Ret (combine (dict_keys (get_constraints cfg))
                            (map (fun v => v mod 2) vs)), st')).
  { unfold _in_movement_xyz.
    rewrite (in_movement_loop_poll _ _ _ _ _ Hpoll []);
      [reflexivity|apply constraints_key|apply constraints_nodup
      |intros a _ []]. }
  split; [exact Hloop|].
  unfold _motor_stopped, bind. rewrite Hloop.
  pose proof (status_poll_length _ _ _ _ _ Hpoll) as Hlen.
  assert (Hlen' : List.length (dict_keys (get_constraints cfg))
                  = List.length (map (fun v => v mod 2) vs))
    by now rewrite length_map.
  rewrite (combine_keys _ _ Hlen').
  destruct (motor_stopped_loop_run _ _ _
              (combine_lookup _ _ (constraints_nodup cfg) Hlen') true st')
    as (Ho & _ & _).
  rewrite Ho. now rewrite andb_true_l, forallb_over_map.
Qed.

(** The first query of the poll fails: there is no value in hand. *)
Lemma in_movement_first_fails (st st1 : St W) e :
  status_value cfg (label (first_axis cfg)) st = (Raise e, st1) ->
  is_Exception e = true ->
  _in_movement_xyz cfg st
  = (Raise (UnboundLocalError "tmp0"),
     logged (mkLog ERROR "Failed: " [AExn e]) st1).
Proof.
  intros Hval Hexc.
  destruct (constraints_head cfg) as [rest Hkeys].
  assert (Hin : In (label (first_axis cfg)) (dict_keys (get_constraints cfg)))
    by (rewrite Hkeys; now left).
  destruct (constraints_key cfg _ Hin) as (ax & Hax & Hlab).
  unfold _in_movement_xyz. rewrite Hkeys. cbn [_in_movement_loop].
  unfold bind at 1, try_except_Exception.
  rewrite (status_body_eq _ ax st Hax Hlab), Hval, Hexc.
  reflexivity.
Qed.

End Stale.

(** X17. A status query that fails does not stop the poll: the failure is
    logged and the axis is counted with the value in hand, the one the
    axis before it reported.  So when the first axis answers and later
    ones may fail, [_in_movement_xyz] still returns an entry for every
    configured axis, and [_motor_stopped] decides on the values counted,
    stale ones included. *)
Theorem motor_stopped_counts_a_silent_axis_with_the_value_before
    {W : Type} `{Env W} (cfg : Config) (st st' : St W) (vs : list Z) :
  status_poll cfg (dict_keys (get_constraints cfg)) None st vs st' ->
  _in_movement_xyz cfg st
  = (Ret (combine (dict_keys (get_constraints cfg))
            (map (fun v => v mod 2) vs)), st')
  /\ fst (_motor_stopped cfg st) = Ret (forallb (fun v => v mod 2 =? 0) vs).
Proof. apply motor_stopped_poll. Qed.

Lemma motor_stopped_counts_a_silent_axis_with_the_value_before_witness :
  fst (_motor_stopped example_cfg
         (Sim.boot (scripted [false; true; false] [4; 3])))
  = Ret false
  /\ fst (_motor_stopped example_cfg
            (Sim.boot (scripted [false; false; true] [4; 2])))
     = Ret true.
Proof.
  assert (Hy : exists st',
             status_poll example_cfg
               (dict_keys (get_constraints example_cfg)) None
               (Sim.boot (scripted [false; true; false] [4; 3]))
               [4; 4; 3] st').
  { eexists.
    eapply poll_fresh; [vm_compute; reflexivity|].
    eapply poll_stale; [vm_compute; reflexivity|reflexivity|].
    eapply poll_fresh; [vm_compute; reflexivity|].
    apply poll_done. }
  assert (Hz : exists st',
             status_poll example_cfg
               (dict_keys (get_constraints example_cfg)) None
               (Sim.boot (scripted [false; false; true] [4; 2]))
               [4; 2; 2] st').
  { eexists.
    eapply poll_fresh; [vm_compute; reflexivity|].
    eapply poll_fresh; [vm_compute; reflexivity|].
    eapply poll_stale; [vm_compute; reflexivity|reflexivity|].
    apply poll_done. }
  destruct Hy as [st1 Hy]. destruct Hz as [st2 Hz]. split.
  - exact (proj2 (motor_stopped_counts_a_silent_axis_with_the_value_before
                    example_cfg _ st1 [4; 4; 3] Hy)).
  - exact (proj2 (motor_stopped_counts_a_silent_axis_with_the_value_before
                    example_cfg _ st2 [4; 2; 2] Hz)).
Defined.

(** X18. When the status query of the first configured axis fails with an
    [Exception], there is no value in hand yet: after logging the failure
    [_in_movement_xyz] raises [UnboundLocalError] for [tmp0], and so does
    [_motor_stopped], without asking the other axes. *)
Theorem in_movement_needs_the_first_axis_to_answer
    {W : Type} `{Env W} (cfg : Config) (st st1 : St W) (e : exn) :
  status_value cfg (label (first_axis cfg)) st = (Raise e, st1) ->
  is_Exception e = true ->
  _in_movement_xyz cfg st
  = (Raise (UnboundLocalError "tmp0"),
     logged (mkLog ERROR "Failed: " [AExn e]) st1)
  /\ _motor_stopped cfg st
     = (Raise (UnboundLocalError "tmp0"),
        logged (mkLog ERROR "Failed: " [AExn e]) st1).
Proof.
  intros Hval Hexc.
  pose proof (in_movement_first_fails cfg st st1 e Hval Hexc) as Hloop.
  split; [exact Hloop|].
  unfold _motor_stopped, bind. now rewrite Hloop.
Qed.

Lemma in_movement_needs_the_first_axis_to_answer_witness :
  _motor_stopped example_cfg (Sim.boot (Sim.flaky 1))
  = (Raise (UnboundLocalError "tmp0"),
     mkSt Sim.idle
       [mkLog ERROR "Failed: " [AExn (VisaIOError "write failed")]]
       [EvWrite ("1TS" ++ Py.newline) (Some (VisaIOError "write failed"))]).
Proof.
  apply (in_movement_needs_the_first_axis_to_answer example_cfg
           (Sim.boot (Sim.flaky 1))
           (mkSt Sim.idle []
              [EvWrite ("1TS" ++ Py.newline)
                 (Some (VisaIOError "write failed"))])
           (VisaIOError "write failed")).
  - vm_compute. reflexivity.
  - reflexivity.
Defined.

(** ** Calibration *)

Section Calibration.
Context {W : Type} `{Env W}.
Variable cfg : Config.

Hint Resolve emits_ret emits_raise emits_log emits_emit emits_getitem
  emits_int emits_int_of_product emits_int_times_float emits_clock
  emits_sleep emits_read : driver.

Lemma emits_weaken {A} (P Q : string -> Prop) (m : M W A) :
  (forall c, P c -> Q c) -> emits P m -> emits Q m.
Proof.
  intros Himp Hm st. destruct (Hm st) as (tr & Htr & Hp).
  exists tr. split; [assumption|]. eapply Forall_impl; eauto.
Qed.

Lemma emits_iterate P pl : emits P (iterate (W := W) pl).
Proof. destruct pl; cbn [iterate]; auto with driver. Qed.

Lemma emits_subscript P x axis : emits P (subscript (W := W) x axis).
Proof. destruct x; cbn [subscript]; auto with driver. Qed.

Lemma calibrate_direction_test (direction : Z) :
  existsb (Z.eqb direction) [0; 1; 2; 3] = true <-> 0 <= direction <= 3.
Proof.
  cbn [existsb]. rewrite !orb_true_iff, !Z.eqb_eq. lia.
Qed.

Lemma calibrate_without_axes fuel direction (st : St W) :
  0 <= direction <= 3 ->
  calibrate cfg fuel PNone direction st
  = (Raise TypeError,
     logged (mkLog ERROR "Calibration did not work: " [AExn TypeError]) st).
Proof.
  intros Hdir. apply calibrate_direction_test in Hdir.
  unfold calibrate. rewrite Hdir. reflexivity.
Qed.

Lemma emits_finish_calibrate_without_axes fuel :
  emits (fun c => query_of cfg "TS" c \/ query_of cfg "TT" c)
    (finish_calibrate cfg fuel PNone).
Proof.
  unfold finish_calibrate.
  apply emits_bind; [apply emits_motor_stopped; intros c Hc; now left|].
  intros [|]; cbn [negb iterate].
  - now apply emits_silent.
  - apply emits_bind; [auto with driver|intros _].
    apply (emits_weaken (query_of cfg "TT")); [intros c Hc; now right|].
    apply emits_get_pos.
Qed.

End Calibration.

(** X19. [calibrate] called without a list of axes never returns a
    position and sends nothing.  A direction outside [0..3] raises
    [ValueError] at once; any other direction logs that the calibration
    did not work, because [None] cannot be iterated, and then raises
    [TypeError] from the second loop over the same [None].  The device
    state and the serial trace are as before the call. *)
Theorem calibrate_without_axes_raises
    {W : Type} `{Env W} (cfg : Config) (fuel : nat) (direction : Z)
    (st : St W) :
  (~ 0 <= direction <= 3
   /\ calibrate cfg fuel PNone direction st = (Raise ValueError, st))
  \/ (0 <= direction <= 3
      /\ calibrate cfg fuel PNone direction st
         = (Raise TypeError,
            logged (mkLog ERROR "Calibration did not work: "
                      [AExn TypeError]) st)).
Proof.
  destruct (Z_le_dec 0 direction) as [Hlo|Hlo];
    [destruct (Z_le_dec direction 3) as [Hhi|Hhi]|].
  - right. split; [lia|]. apply calibrate_without_axes. lia.
  - left. split; [lia|]. apply calibrate_refuses_direction. lia.
  - left. split; [lia|]. apply calibrate_refuses_direction. lia.
Qed.

(** X20. [finish_calibrate] called without a list of axes never defines a
    home position: every command it writes is a status query or a position
    query.  When the motors are reported stopped it raises [TypeError] in
    the state the poll left, since [None] cannot be iterated; otherwise it
    warns and returns the positions. *)
Theorem finish_calibrate_without_axes_defines_no_home
    {W : Type} `{Env W} (cfg : Config) (fuel : nat) (st st1 : St W) :
  (exists tr : list io_event,
     trace (snd (finish_calibrate cfg fuel PNone st))
     = (trace st ++ tr)%list
     /\ Forall (fun c => query_of cfg "TS" c \/ query_of cfg "TT" c)
          (writes tr))
  /\ (_motor_stopped cfg st = (Ret true, st1) ->
      finish_calibrate cfg fuel PNone st = (Raise TypeError, st1))
  /\ (_motor_stopped cfg st = (Ret false, st1) ->
      finish_calibrate cfg fuel PNone st
      = get_pos cfg PNone
          (logged (mkLog WARNING
                     "Motors still moving. Couldn't finish calibration." [])
             st1)).
Proof.
  split; [apply emits_finish_calibrate_without_axes|].
  split; intros Hstop; unfold finish_calibrate, bind at 1; rewrite Hstop;
    reflexivity.
Qed.

Lemma finish_calibrate_without_axes_defines_no_home_witness :
  fst (finish_calibrate example_cfg 1 PNone
         (Sim.boot (reporting [0; 2; 4])))
  = Raise TypeError.
Proof.
  rewrite (proj1 (proj2 (finish_calibrate_without_axes_defines_no_home
                           example_cfg 1 (Sim.boot (reporting [0; 2; 4]))
                           (snd (_motor_stopped example_cfg
                                   (Sim.boot (reporting [0; 2; 4]))))))).
  - reflexivity.
  - vm_compute. reflexivity.
Defined.

(** ** Waiting *)

Section Waiting.
Context {W : Type} `{Env W}.

Lemma wait_loop_limit (condition : M W bool) dt T t0 fuel :
  forall (st st' : St W) t,
    wait_loop fuel condition dt T t0 st = (Ret (Some t), st') ->
    (0 <= T)%Q /\ (T < t)%Q.
Proof.
  induction fuel as [|fuel IH]; intros st st' t Hrun; [discriminate|].
  cbn [wait_loop] in Hrun. unfold bind at 1 in Hrun.
  destruct (condition st) as [[[|]|e|] st1]; try discriminate.
  unfold bind at 1, time_perf_counter in Hrun.
  destruct (perf_counter (world st1)) as [now w2].
  destruct (Qle_bool 0 T && Py.Qlt_bool T (now - t0))%bool eqn:Htest.
  - injection Hrun as <- _. now apply timed_out_test.
  - unfold bind at 1, time_sleep in Hrun. now apply IH in Hrun.
Qed.

Lemma wait_loop_quiet (condition : M W bool) dt T t0 fuel :
  quiet condition -> quiet (wait_loop fuel condition dt T t0).
Proof.
  intros Hc. induction fuel as [|fuel IH]; cbn [wait_loop];
    [intros st; reflexivity|].
  apply quiet_bind; [exact Hc|intros [|]]; [apply quiet_ret|].
  apply quiet_bind; [intros st; unfold time_perf_counter;
                     now destruct (perf_counter (world st))|intros now].
  destruct (Qle_bool 0 T && Py.Qlt_bool T (now - t0))%bool;
    [apply quiet_ret|].
  apply quiet_bind; [intros st; reflexivity|intros _; exact IH].
Qed.

End Waiting.

(** X21. [wait_on_condition] gives up only past a limit that is not
    negative: its loop ends with a time [t] only when [0 <= timeout_s] and
    [timeout_s < t], [t] being the time since the start as measured in
    that round.  So with a negative limit (the default is [-1]) the wait
    ends only when the condition holds or raises, and the call adds
    nothing to the log beyond what the condition logs. *)
Theorem wait_gives_up_only_past_a_limit_that_is_not_negative
    {W : Type} `{Env W} (fuel : nat) (name : string) (condition : M W bool)
    (dt T t0 : Q) :
  (forall (st st' : St W) t,
     wait_loop fuel condition dt T t0 st = (Ret (Some t), st') ->
     (0 <= T)%Q /\ (T < t)%Q)
  /\ ((T < 0)%Q -> quiet condition ->
      quiet (wait_on_condition fuel name condition dt T)).
Proof.
  split; [apply wait_loop_limit|].
  intros Hneg Hc st. unfold wait_on_condition, bind at 1, time_perf_counter.
  destruct (perf_counter (world st)) as [t1 w1].
  unfold bind.
  pose proof (wait_loop_quiet condition dt T t1 fuel Hc
                (mkSt w1 (log st) (trace st))) as Hq.
  destruct (wait_loop fuel condition dt T t1 (mkSt w1 (log st) (trace st)))
    as [[[t|]|e|] st2] eqn:Hrun; cbn [snd log] in *; try exact Hq.
  apply wait_loop_limit in Hrun. destruct Hrun as [Hpos _].
  exfalso. apply (Qlt_not_le _ _ Hneg Hpos).
Qed.

Lemma wait_gives_up_only_past_a_limit_that_is_not_negative_witness :
  log (snd (wait_on_condition 3 "False" (ret false) (2 # 10) (-1 # 1)
              (Sim.boot Sim.idle)))
  = [].
Proof.
  apply (proj2 (wait_gives_up_only_past_a_limit_that_is_not_negative
                  3 "False" (ret false) (2 # 10) (-1 # 1) 0)).
  - reflexivity.
  - intros st. reflexivity.
Defined.

(** ** Framing *)

Section Framing.
Context {W : Type} `{Env W}.
Variable cfg : Config.

Hint Resolve emits_ret emits_raise emits_log emits_emit emits_getitem
  emits_int emits_int_of_product emits_int_times_float emits_clock
  emits_sleep emits_read : driver.

Lemma opcode_AB : opcode "AB".
Proof. left. reflexivity. Qed.

Lemma opcode_DH : opcode "DH".
Proof. right. left. reflexivity. Qed.

Lemma opcode_TT : opcode "TT".
Proof. do 2 right. left. reflexivity. Qed.

Lemma opcode_TS : opcode "TS".
Proof. do 3 right. left. reflexivity. Qed.

Lemma framed_query question c :
  opcode question -> query_of cfg question c -> framed cfg c.
Proof.
  intros Hop (k & ax & Hax & ->). exists k, ax, question. auto.
Qed.

Lemma framed_status c : status_query cfg c -> framed cfg c.
Proof.
  intros (k & ax & Hax & ->). exists k, ax, "TS".
  split; [assumption|split; [apply opcode_TS|reflexivity]].
Qed.

Lemma framed_send k ax body :
  dict_get (get_constraints cfg) k = Some ax -> opcode body ->
  framed cfg (ID ax ++ body ++ Py.newline).
Proof. intros Hax Hop. exists k, ax, body. auto. Qed.

Lemma opcode_MA z : opcode ("MA" ++ Py.format_d z).
Proof. unfold opcode. do 5 right. exists z. auto. Qed.

Lemma opcode_SV z : opcode ("SV" ++ Py.format_d z).
Proof. unfold opcode. do 5 right. exists z. auto. Qed.

Lemma opcode_FE z : opcode ("FE" ++ Py.format_d z).
Proof. unfold opcode. do 5 right. exists z. auto. Qed.

Lemma framed_move pd c : move_command cfg pd c -> framed cfg c.
Proof.
  intros (k & v & ax & _ & Hax & _ & _ & ->).
  apply (framed_send k); [assumption|apply opcode_MA].
Qed.

Lemma emits_framed_get_pos pl : emits (framed cfg) (get_pos cfg pl).
Proof.
  apply (emits_weaken (query_of cfg "TT")); [|apply emits_get_pos].
  intros c. apply framed_query. apply opcode_TT.
Qed.

Lemma emits_framed_move_abs fuel pd : emits (framed cfg) (move_abs cfg fuel pd).
Proof.
  eapply emits_weaken; [|apply emits_move_abs].
  intros c [Hc|Hc]; [now apply framed_status|now apply (framed_move pd)].
Qed.

Lemma emits_framed_do_move_rel fuel axis step :
  emits (framed cfg) (_do_move_rel cfg fuel axis step).
Proof.
  unfold _do_move_rel. apply emits_lookup. intros ax Hax.
  destruct (negb _).
  - apply emits_bind; auto with driver.
  - apply emits_bind; [apply emits_framed_get_pos|intros p].
    apply emits_bind; [apply emits_subscript|intros cur].
    apply emits_bind; [|auto with driver].
    apply emits_do_move_abs. intros ax' Hax' _ _.
    apply (framed_send axis); [assumption|apply opcode_MA].
Qed.

Lemma emits_framed_move_rel_batch fuel pd axes :
  emits (framed cfg) (move_rel_batch cfg fuel axes pd).
Proof.
  induction axes as [|k rest IH]; cbn [move_rel_batch]; auto with driver.
  apply emits_bind; [auto with driver|intros step].
  apply emits_bind; [apply emits_framed_do_move_rel|intros _; exact IH].
Qed.

Lemma emits_framed_move_rel fuel pd : emits (framed cfg) (move_rel cfg fuel pd).
Proof.
  unfold move_rel. apply emits_bind; [|auto with driver].
  apply emits_attempts. apply emits_framed_move_rel_batch.
Qed.

Lemma emits_framed_abort fuel : emits (framed cfg) (abort cfg fuel).
Proof.
  eapply emits_weaken; [|apply emits_abort].
  intros c [Hc|(k & ax & Hax & ->)]; [now apply framed_status|].
  apply (framed_send k); [assumption|apply opcode_AB].
Qed.

Lemma emits_framed_set_velocity fuel pd :
  emits (framed cfg) (set_velocity cfg fuel pd).
Proof.
  apply emits_set_velocity. intros k v ax _ Hax.
  apply (framed_send k); [assumption|apply opcode_SV].
Qed.

Lemma emits_framed_on_activate fuel : emits (framed cfg) (on_activate cfg fuel).
Proof.
  unfold on_activate. apply emits_bind; [auto with driver|intros _].
  apply emits_bind; [apply emits_framed_set_velocity|auto with driver].
Qed.

Lemma emits_framed_calibrate fuel pl direction :
  emits (framed cfg) (calibrate cfg fuel pl direction).
Proof.
  unfold calibrate. destruct (negb _); [auto with driver|].
  apply emits_bind.
  - apply emits_try_except.
    + apply emits_bind; [apply emits_iterate|intros axes].
      apply emits_bind; [|auto with driver].
      apply emits_write_each. intros k ax Hax.
      apply (framed_send k); [assumption|apply opcode_FE].
    + intros e. auto with driver.
  - intros _. apply emits_bind; [apply emits_iterate|intros axes].
    apply emits_bind; [apply emits_framed_move_abs|intros _].
    apply emits_framed_get_pos.
Qed.

Lemma emits_framed_finish_calibrate fuel pl :
  emits (framed cfg) (finish_calibrate cfg fuel pl).
Proof.
  unfold finish_calibrate.
  apply emits_bind; [apply emits_motor_stopped, framed_status|intros b].
  destruct (negb b).
  - apply emits_bind; [auto with driver|intros _].
    apply emits_framed_get_pos.
  - apply emits_bind; [apply emits_iterate|intros axes].
    apply emits_bind; [|intros _; apply emits_framed_get_pos].
    apply emits_write_each. intros k ax Hax.
    apply (framed_send k); [assumption|apply opcode_DH].
Qed.

End Framing.

(** X22. Whatever the operation and its arguments, the driver writes only
    framed commands: the device id of a configured axis, one of the
    command bodies [AB], [DH], [TT], [TS], [TY], [MA<int>], [SV<int>],
    [FE<int>], and a line feed.  This holds for every serial write of
    [on_activate], [move_rel], [move_abs], [abort], [set_velocity],
    [calibrate] and [finish_calibrate], whether the call returns, raises
    or is cut short; a label that is not configured never reaches the
    line. *)
Theorem every_write_is_a_framed_command
    {W : Type} `{Env W} (cfg : Config) (fuel : nat) (param_dict : dict Q)
    (pl : param_list) (direction : Z) :
  emits (framed cfg) (on_activate cfg fuel)
  /\ emits (framed cfg) (move_rel cfg fuel param_dict)
  /\ emits (framed cfg) (move_abs cfg fuel param_dict)
  /\ emits (framed cfg) (abort cfg fuel)
  /\ emits (framed cfg) (set_velocity cfg fuel param_dict)
  /\ emits (framed cfg) (calibrate cfg fuel pl direction)
  /\ emits (framed cfg) (finish_calibrate cfg fuel pl).
Proof.
  repeat split.
  - apply emits_framed_on_activate.
  - apply emits_framed_move_rel.
  - apply emits_framed_move_abs.
  - apply emits_framed_abort.
  - apply emits_framed_set_velocity.
  - apply emits_framed_calibrate.
  - apply emits_framed_finish_calibrate.
Qed.

(** ** The relative move does not wait *)

Section Suffix.

Local Abbreviation ds := NilEmpty.string_of_uint.

Lemma last_char_app (a b : string) :
  b <> EmptyString -> last_char (a ++ b) = last_char b.
Proof.
  intros Hb. induction a as [|x a IH]; [reflexivity|].
  cbn [append last_char]. rewrite IH.
  destruct (a ++ b) eqn:Hab; [|reflexivity].
  destruct a; [cbn [append] in Hab; contradiction|discriminate].
Qed.

Lemma drop_last_app (a b : string) :
  b <> EmptyString -> Py.drop_last (a ++ b) = a ++ Py.drop_last b.
Proof.
  intros Hb. induction a as [|x a IH]; [reflexivity|].
  cbn [append Py.drop_last]. rewrite IH.
  destruct (a ++ b) eqn:Hab; [|reflexivity].
  destruct a; [cbn [append] in Hab; contradiction|discriminate].
Qed.

Lemma last_char_digits d :
  d <> Decimal.Nil ->
  exists a, last_char (ds d) = Some a /\ a <> "S"%char.
Proof.
  induction d as [|d IH|d IH|d IH|d IH|d IH|d IH|d IH|d IH|d IH|d IH];
    intros Hd; [contradiction|..];
    cbn [NilEmpty.string_of_uint last_char];
    (destruct d;
     [eexists; split; [reflexivity|discriminate]
     |apply IH; discriminate..]).
Qed.

Lemma last_char_format_d z :
  exists a, last_char (Py.format_d z) = Some a /\ a <> "S"%char.
Proof.
  destruct (format_d_text z) as (d & Hd & [[-> _]|[-> _]]).
  - now apply last_char_digits.
  - destruct (last_char_digits d Hd) as (a & Ha & Hne).
    exists a. split; [|assumption].
    cbn [last_char]. destruct (ds d); [discriminate|assumption].
Qed.

(** The character before the line feed that ends a framed command. *)
Lemma last_of_framed (id body : string) :
  body <> EmptyString ->
  last_char (Py.drop_last (id ++ body ++ Py.newline)) = last_char body.
Proof.
  intros Hb.
  rewrite drop_last_app by (destruct body; [contradiction|discriminate]).
  rewrite drop_last_app by discriminate.
  change (Py.drop_last Py.newline) with EmptyString.
  rewrite append_empty. now apply last_char_app.
Qed.

End Suffix.

Section RelativeTraffic.
Context {W : Type} `{Env W}.
Variable cfg : Config.

Hint Resolve emits_ret emits_raise emits_log emits_emit emits_getitem
  emits_int emits_int_of_product emits_int_times_float emits_clock
  emits_sleep emits_read : driver.

(** [c] asks a configured axis for its position or sends it to a target. *)
Local Abbreviation asks_or_moves :=
  (fun c : string =>
     query_of cfg "TT" c
     \/ exists k ax z,
          dict_get (get_constraints cfg) k = Some ax
          /\ c = (ID ax ++ ("MA" ++ Py.format_d z) ++ Py.newline)%string).

Lemma emits_do_move_rel fuel axis step :
  emits asks_or_moves (_do_move_rel cfg fuel axis step).
Proof.
  unfold _do_move_rel. apply emits_lookup. intros ax Hax.
  destruct (negb _).
  - apply emits_bind; auto with driver.
  - apply emits_bind;
      [apply (emits_weaken (query_of cfg "TT"));
       [intros c Hc; now left|apply emits_get_pos]
      |intros p].
    apply emits_bind; [apply emits_subscript|intros cur].
    apply emits_bind; [|auto with driver].
    apply emits_do_move_abs. intros ax' Hax' _ _.
    right. exists axis, ax'. eauto.
Qed.

Lemma emits_move_rel_batch fuel pd axes :
  emits asks_or_moves (move_rel_batch cfg fuel axes pd).
Proof.
  induction axes as [|k rest IH]; cbn [move_rel_batch]; auto with driver.
  apply emits_bind; [auto with driver|intros step].
  apply emits_bind; [apply emits_do_move_rel|intros _; exact IH].
Qed.

Lemma asks_or_moves_is_no_status_query c :
  asks_or_moves c -> ~ status_query cfg c.
Proof.
  intros Hc (k' & ax' & _ & Hs).
  assert (Hlast : last_char (Py.drop_last c) = Some "S"%char).
  { rewrite Hs. now rewrite last_of_framed. }
  destruct Hc as [(k & ax & _ & ->)|(k & ax & z & _ & ->)].
  - rewrite last_of_framed in Hlast by discriminate. discriminate.
  - rewrite last_of_framed in Hlast by discriminate.
    destruct (last_char_format_d z) as (a & Ha & Hne).
    change (last_char ("MA" ++ Py.format_d z))
      with (match Py.format_d z with
            | EmptyString => Some "A"%char
            | String _ _ => last_char (Py.format_d z)
            end) in Hlast.
    destruct (Py.format_d z); [discriminate|].
    rewrite Ha in Hlast. congruence.
Qed.

End RelativeTraffic.

(** X23. [move_rel] does not wait for the motion to end: unlike
    [move_abs] it never polls the status.  Every command it writes is the
    position query [TT] of a configured axis or a move command [MA] with
    an integer target for a configured axis, and none of them is a status
    query [TS]. *)
Theorem move_rel_never_polls_the_status
    {W : Type} `{Env W} (cfg : Config) (fuel : nat) (param_dict : dict Q)
    (st : St W) :
  exists tr : list io_event,
    trace (snd (move_rel cfg fuel param_dict st)) = (trace st ++ tr)%list
    /\ Forall
         (fun c =>
            query_of cfg "TT" c
            \/ exists k ax z,
                 dict_get (get_constraints cfg) k = Some ax
                 /\ c = (ID ax ++ ("MA" ++ Py.format_d z)
                         ++ Py.newline)%string)
         (writes tr)
    /\ Forall (fun c => ~ status_query cfg c) (writes tr).
Proof.
  cut (exists tr : list io_event,
         trace (snd (move_rel cfg fuel param_dict st)) = (trace st ++ tr)%list
         /\ Forall
              (fun c =>
                 query_of cfg "TT" c
                 \/ exists k ax z,
                      dict_get (get_constraints cfg) k = Some ax
                      /\ c = (ID ax ++ ("MA" ++ Py.format_d z)
                              ++ Py.newline)%string)
              (writes tr)).
  { intros (tr & Htr & Hp). exists tr. repeat split; try assumption.
    eapply Forall_impl; [|exact Hp].
    intros c. apply asks_or_moves_is_no_status_query. }
  revert st. change (emits
    (fun c =>
       query_of cfg "TT" c
       \/ exists k ax z,
            dict_get (get_constraints cfg) k = Some ax
            /\ c = (ID ax ++ ("MA" ++ Py.format_d z) ++ Py.newline)%string)
    (move_rel cfg fuel param_dict)).
  unfold move_rel. apply emits_bind; [|apply emits_ret].
  apply emits_attempts. apply emits_move_rel_batch.
Qed.
